(** * SecureFHSSAlgorithm: frequency hopping shared by a sender and a receiver

    A shallow embedding of [TEKNOFESTGUVENLIUYDU.py].  Python [float]s are
    IEEE 754 binary64 values; they are modelled by Rocq's primitive [float],
    whose operations are the same binary64 operations (the standard library
    specifies them through [Prim2SF] in [FloatAxioms]).  Python [int]s are
    [Z]; an int the code computes with as a float ([f0], the band limits,
    [t_hop], the literals 0 and 1) is the float of the same value.  A method
    that mutates [self] takes the algorithm state and returns the new one; a
    call that can raise returns [option] ([None] is the exception).  The
    console output, the timestamps, the pacing sleeps and the two human
    readable strings of a frequency result are not modelled. *)

From Stdlib Require Import ZArith List Bool Lia Floats Sorted Permutation.
From Stdlib Require Uint63.
Import ListNotations.

Set Warnings "-inexact-float".

(** ** Python primitives used by the source *)

Module Py.

(** [int -> float] conversion, as done implicitly by [float * int] and
    [float / int]: the integer rounded to the nearest float, ties to even.
    An integer that fits 63 bits goes through the primitive conversion,
    which rounds that way; a larger one is rounded by [binary_normalize].
    The integers of this program are coefficients below 3000 and hop
    counts, for which the conversion is exact. *)
Definition float_of_int (z : Z) : float :=
  if (Z.abs z <? 2 ^ 63)%Z then
    if (z <? 0)%Z then (- of_uint63 (Uint63.of_Z (- z)))%float
    else of_uint63 (Uint63.of_Z z)
  else SF2Prim (binary_normalize prec emax z 0 false).

(** Python raises [OverflowError] instead of converting an integer that
    rounds beyond the largest float, that is from [2^1024 - 2^970] on in
    magnitude.  [float_of_int] is an infinity there; the statements about
    arbitrary coefficient lists exclude such integers by hypothesis. *)
Definition float_of_int_raises (z : Z) : bool :=
  (2 ^ 1024 - 2 ^ 970 <=? Z.abs z)%Z.

(** [x / y] on floats: raises [ZeroDivisionError] when [y] is [0.0] or
    [-0.0]; otherwise the IEEE quotient (possibly infinite or NaN). *)
Definition truediv (x y : float) : option float :=
  if (y =? 0)%float then None else Some (x / y)%float.

(** [a / b] on ints: the correctly rounded quotient, which for
    [|a|, |b| < 2^53] is the float quotient of the two conversions. *)
Definition int_truediv (a b : Z) : option float :=
  if (b =? 0)%Z then None else Some (float_of_int a / float_of_int b)%float.

(** [random.uniform(a, b)] is [a + (b - a) * random.random()]; [r] is the
    value drawn by [random.random()]. *)
Definition uniform (a b r : float) : float := (a + (b - a) * r)%float.

(** [sum(l)]: left to right, starting from [0]. *)
Definition sum (l : list float) : float :=
  fold_left (fun acc x => (acc + x)%float) l (float_of_int 0).

(** [min(l)] and [max(l)]: [ValueError] on the empty list, otherwise the
    first extremal element under [<] and [>]. *)
Definition min (l : list float) : option float :=
  match l with
  | [] => None
  | x :: t => Some (fold_left (fun acc y => if (y <? acc)%float then y else acc) t x)
  end.

Definition max (l : list float) : option float :=
  match l with
  | [] => None
  | x :: t => Some (fold_left (fun acc y => if (acc <? y)%float then y else acc) t x)
  end.

(** [len(l)] *)
Definition len {A} (l : list A) : Z := Z.of_nat (length l).

(** [l[i]]: a negative index counts from the end; [IndexError] outside
    [-len(l) <= i < len(l)]. *)
Definition getitem {A} (l : list A) (i : Z) : option A :=
  let j := if (i <? 0)%Z then (len l + i)%Z else i in
  if (j <? 0)%Z then None else nth_error l (Z.to_nat j).

(** [a % b] on ints: [ZeroDivisionError] when [b = 0]; the sign of the
    result follows [b], as [Z.modulo] does. *)
Definition mod_ (a b : Z) : option Z :=
  if (b =? 0)%Z then None else Some (a mod b)%Z.

End Py.

(** ** The algorithm state and its constants *)

(** The attributes [__init__] sets once and nothing ever assigns again. *)
Definition f0 : Z := 2000.
Definition t_hop : Z := 2.
Definition band_min : Z := 2000.
Definition band_max : Z := 4000.
Definition nominal_amplitude : float := 3.0.
Definition amplitude_tolerance : float := 0.3.
Definition time_tolerance : float := 0.1.
Definition k2_constant : Z := 100.

(** The attributes that vary.  [k1_k2_list] is drawn by [__init__] from the
    Mersenne Twister seeded with [sync_key] (five values of
    [random.randint(1000, 3000)], sorted); the generator is not modelled and
    the list is a field. *)
Record SecureFHSSAlgorithm := {
  sync_key : Z;
  k1_k2_list : list Z;
  current_k_index : Z;
  hop_counter : Z
}.

Definition set_current_k_index (self : SecureFHSSAlgorithm) (i : Z) :=
  {| sync_key := sync_key self; k1_k2_list := k1_k2_list self;
     current_k_index := i; hop_counter := hop_counter self |}.

Definition set_hop_counter (self : SecureFHSSAlgorithm) (h : Z) :=
  {| sync_key := sync_key self; k1_k2_list := k1_k2_list self;
     current_k_index := current_k_index self; hop_counter := h |}.

(** What [__init__] guarantees about the coefficient list. *)
Definition coefficient_list_ok (l : list Z) : Prop :=
  length l = 5%nat /\ Forall (fun p => (1000 <= p <= 3000)%Z) l.

(** The state right after construction. *)
Definition fresh (key : Z) (l : list Z) : SecureFHSSAlgorithm :=
  {| sync_key := key; k1_k2_list := l; current_k_index := 0; hop_counter := 0 |}.

(** ** Result records (the dictionaries the methods return) *)

Inductive Origin := sender_generated | receiver_measured.

Record SignalParameters := {
  sp_amplitude : float;
  sp_time_ms : float;
  sp_energy : float;
  sp_generation_method : Origin
}.

Record FrequencyResult := {
  frequency : float;
  amplitude : float;
  time_ms : float;
  energy : float;
  k1 : Z;
  k2 : Z;
  k1_k2_product : Z;
  k_index : Z;
  is_valid : bool;
  attempts : Z
}.

Record ValidationResult := {
  v_is_valid : bool;
  is_valid_amplitude : bool;
  is_valid_time : bool;
  v_amplitude : float;
  v_time_ms : float;
  min_allowed_amplitude : float;
  max_allowed_amplitude : float;
  min_allowed_time : float;
  max_allowed_time : float;
  tolerance_amplitude : float;
  tolerance_time : float
}.

(** [sync_check]'s two dictionaries; the message string is kept as the
    number it prints, [hop_counter // 100]. *)
Inductive SyncCheckResult :=
| SyncNeeded (hop_count : Z) (reference_freq : Z) (test_amplitude : float)
             (test_duration : Z) (check_number : Z)
| SyncNotNeeded (hop_count : Z).

Definition sync_needed (r : SyncCheckResult) : bool :=
  match r with SyncNeeded _ _ _ _ _ => true | SyncNotNeeded _ => false end.

Definition sync_hop_count (r : SyncCheckResult) : Z :=
  match r with SyncNeeded h _ _ _ _ => h | SyncNotNeeded h => h end.

(** One sender hop: [{'hop_number': .., **params, **freq_result,
    'sync_info': ..}].  The keys [amplitude], [time_ms] and [energy] occur in
    both merged dictionaries and the later one, [freq_result], wins. *)
Record SenderRecord := {
  sr_hop_number : Z;
  sr_amplitude : float;
  sr_time_ms : float;
  sr_energy : float;
  sr_generation_method : Origin;
  sr_frequency : float;
  sr_k1 : Z;
  sr_k2 : Z;
  sr_k1_k2_product : Z;
  sr_k_index : Z;
  sr_is_valid : bool;
  sr_attempts : Z;
  sr_sync_info : SyncCheckResult
}.

(** The receiver's [freq_result]: the full dictionary of
    [calculate_frequency], or [{'frequency': 0, 'is_valid': False}] when the
    signal was rejected and no frequency was computed. *)
Inductive ReceiverFrequency :=
| Computed (r : FrequencyResult)
| Rejected.

Definition rf_frequency (f : ReceiverFrequency) : float :=
  match f with Computed r => frequency r | Rejected => Py.float_of_int 0 end.

Definition rf_is_valid (f : ReceiverFrequency) : bool :=
  match f with Computed r => is_valid r | Rejected => false end.

Record ReceiverRecord := {
  rr_hop_number : Z;
  original_data : SenderRecord;
  rr_amplitude : float;
  rr_time_ms : float;
  rr_energy : float;
  rr_generation_method : Origin;
  validation : ValidationResult;
  freq_result : ReceiverFrequency;
  frequency_difference : float;
  is_match : bool;
  rr_sync_info : SyncCheckResult
}.

Record SenderStatistics := {
  total_hops : Z;
  valid_hops : Z;
  avg_frequency : float;
  min_frequency : float;
  max_frequency : float;
  frequency_range : float
}.

Record ReceiverStatistics := {
  total_receptions : Z;
  valid_receptions : Z;
  successful_matches : Z;
  success_rate : float;
  validation_rate : float;
  noise_percentage : float;
  estimated_snr_db : float
}.

Record Statistics := {
  sender : SenderStatistics;
  receiver : ReceiverStatistics
}.

(** ** The methods *)

(** [get_k1_k2_values]: the coefficient pair at the current index. *)
Definition get_k1_k2_values (self : SecureFHSSAlgorithm) : option (Z * Z) :=
  match Py.mod_ (current_k_index self) (Py.len (k1_k2_list self)) with
  | None => None
  | Some i =>
      match Py.getitem (k1_k2_list self) i with
      | None => None
      | Some k1_k2_product =>
          let k1 := (k1_k2_product / k2_constant)%Z in
          let k2 := k2_constant in
          Some (k1, k2)
      end
  end.

(** The formula [f0 + (A * k1 + E * k2) / t] inside its [try]: the value,
    or [None] when the division raises [ZeroDivisionError]. *)
Definition formula (amplitude time_ms energy : float) (k1 k2 : Z) : option float :=
  match Py.truediv (amplitude * Py.float_of_int k1 + energy * Py.float_of_int k2)%float time_ms with
  | Some q => Some (Py.float_of_int f0 + q)%float
  | None => None
  end.

(** [try: frequency = ... except ZeroDivisionError: frequency = self.f0] *)
Definition raw_frequency (amplitude time_ms energy : float) (k1 k2 : Z) : float :=
  match formula amplitude time_ms energy k1 k2 with
  | Some f => f
  | None => Py.float_of_int f0
  end.

(** The band check and correction that follows the formula. *)
Definition clamp (frequency : float) : float :=
  if (frequency <? Py.float_of_int band_min)%float then Py.float_of_int band_min
  else if (Py.float_of_int band_max <? frequency)%float then Py.float_of_int band_max
  else frequency.

(** [self.band_min <= frequency <= self.band_max] *)
Definition in_band (frequency : float) : bool :=
  (Py.float_of_int band_min <=? frequency)%float && (frequency <=? Py.float_of_int band_max)%float.

(** [self.current_k_index = (self.current_k_index + 1) % len(self.k1_k2_list)] *)
Definition advance_k_index (self : SecureFHSSAlgorithm) : option SecureFHSSAlgorithm :=
  match Py.mod_ (current_k_index self + 1) (Py.len (k1_k2_list self)) with
  | None => None
  | Some i => Some (set_current_k_index self i)
  end.

(** The [while attempts < max_attempts] loop of [calculate_frequency];
    [remaining] is [max_attempts - attempts].  It yields [Some r] when an
    iteration returns [r], and [None] when the loop condition fails. *)
Fixpoint attempt_loop (remaining : nat) (attempts : Z)
    (amplitude time_ms energy : float) (self : SecureFHSSAlgorithm)
    : option (option FrequencyResult * SecureFHSSAlgorithm) :=
  match remaining with
  | O => Some (None, self)
  | S remaining' =>
      match get_k1_k2_values self with
      | None => None
      | Some (k1, k2) =>
          let frequency := raw_frequency amplitude time_ms energy k1 k2 in
          let frequency := clamp frequency in
          if in_band frequency then
            Some (Some {| frequency := frequency;
                          amplitude := amplitude;
                          time_ms := time_ms;
                          energy := energy;
                          k1 := k1;
                          k2 := k2;
                          k1_k2_product := (k1 * k2)%Z;
                          k_index := current_k_index self;
                          is_valid := true;
                          attempts := (attempts + 1)%Z |}, self)
          else
            match advance_k_index self with
            | None => None
            | Some self' =>
                attempt_loop remaining' (attempts + 1)%Z amplitude time_ms energy self'
            end
      end
  end.

(** The guard against a zero or negative hop time. *)
Definition guard_time (time_ms : float) : float :=
  if (time_ms <=? 0)%float then Py.float_of_int t_hop else time_ms.

(** The dictionary returned when no attempt was accepted. *)
Definition fallback (amplitude time_ms energy : float) (k_index max_attempts : Z)
    : FrequencyResult :=
  {| frequency := Py.float_of_int f0;
     amplitude := amplitude;
     time_ms := time_ms;
     energy := energy;
     k1 := 10;
     k2 := 100;
     k1_k2_product := 1000;
     k_index := k_index;
     is_valid := false;
     attempts := max_attempts |}.

Definition calculate_frequency (self : SecureFHSSAlgorithm)
    (amplitude time_ms energy : float)
    : option (FrequencyResult * SecureFHSSAlgorithm) :=
  let time_ms := guard_time time_ms in
  let attempts := 0%Z in
  let max_attempts := Py.len (k1_k2_list self) in
  let original_k_index := current_k_index self in
  match attempt_loop (Z.to_nat (max_attempts - attempts)) attempts
                     amplitude time_ms energy self with
  | None => None
  | Some (Some result, self) => Some (result, self)
  | Some (None, self) =>
      let self := set_current_k_index self original_k_index in
      Some (fallback amplitude time_ms energy (current_k_index self) max_attempts, self)
  end.

(** [generate_signal_parameters]; [r] is the value [random.random()] yields
    inside [random.uniform(-0.15, 0.15)].  [amplitude ** 2] is C's
    [pow(amplitude, 2.0)], which is accurate to one unit in the last place
    but need not be the correctly rounded square.  The model takes the
    rounded square [amplitude * amplitude], so a generated energy can differ
    from the source's in its last bit; what is stated of generated energies
    below allows for that bit. *)
Definition generate_signal_parameters (r : float) : SignalParameters :=
  let amplitude := (nominal_amplitude + Py.uniform (-0.15) 0.15 r)%float in
  let time_ms := Py.float_of_int t_hop in
  let energy := (amplitude * amplitude * time_ms)%float in
  {| sp_amplitude := amplitude;
     sp_time_ms := time_ms;
     sp_energy := energy;
     sp_generation_method := sender_generated |}.

Definition measure_signal_parameters (received_amplitude received_energy received_time : float)
    : SignalParameters :=
  {| sp_amplitude := received_amplitude;
     sp_time_ms := received_time;
     sp_energy := received_energy;
     sp_generation_method := receiver_measured |}.

(** [validate_signal] is a method: it is given the state it is called on and
    returns it next to the dictionary, so that what the call leaves of the
    state is part of its result. *)
Definition validate_signal (self : SecureFHSSAlgorithm) (amplitude time_ms : float)
    : ValidationResult * SecureFHSSAlgorithm :=
  let min_amplitude := (nominal_amplitude - amplitude_tolerance)%float in
  let max_amplitude := (nominal_amplitude + amplitude_tolerance)%float in
  let min_time := (Py.float_of_int t_hop - time_tolerance)%float in
  let max_time := (Py.float_of_int t_hop + time_tolerance)%float in
  let is_valid_amplitude := (min_amplitude <=? amplitude)%float && (amplitude <=? max_amplitude)%float in
  let is_valid_time := (min_time <=? time_ms)%float && (time_ms <=? max_time)%float in
  let is_valid := is_valid_amplitude && is_valid_time in
  ({| v_is_valid := is_valid;
      is_valid_amplitude := is_valid_amplitude;
      is_valid_time := is_valid_time;
      v_amplitude := amplitude;
      v_time_ms := time_ms;
      min_allowed_amplitude := min_amplitude;
      max_allowed_amplitude := max_amplitude;
      min_allowed_time := min_time;
      max_allowed_time := max_time;
      tolerance_amplitude := amplitude_tolerance;
      tolerance_time := time_tolerance |}, self).

Definition sync_check (self : SecureFHSSAlgorithm) : SyncCheckResult :=
  if ((hop_counter self mod 100 =? 0) && (0 <? hop_counter self))%Z then
    SyncNeeded (hop_counter self) 2750 nominal_amplitude 5 (hop_counter self / 100)
  else
    SyncNotNeeded (hop_counter self).

(** [next_hop] returns a dictionary nobody reads; the state is its effect. *)
Definition next_hop (self : SecureFHSSAlgorithm) : option SecureFHSSAlgorithm :=
  let self := set_hop_counter self (hop_counter self + 1) in
  advance_k_index self.

(** ** The simulation drivers *)

Section Simulation.

(** The process-wide generator of the [random] module after its last
    seeding: [random n] is the value of the [n]-th call of
    [random.random()].  The drivers thread the number of values drawn so
    far. *)
Variable random : nat -> float.

(** The body of [for i in range(hop_count)] in
    [simulate_sender_operation], [n] iterations from iteration [i]. *)
Fixpoint sender_loop (n : nat) (i : Z) (self : SecureFHSSAlgorithm) (drawn : nat)
    : option (list SenderRecord * SecureFHSSAlgorithm * nat) :=
  match n with
  | O => Some ([], self, drawn)
  | S n' =>
      let params := generate_signal_parameters (random drawn) in
      let drawn := S drawn in
      match calculate_frequency self (sp_amplitude params) (sp_time_ms params)
                                (sp_energy params) with
      | None => None
      | Some (freq, self) =>
          let sync_result := sync_check self in
          let result :=
            {| sr_hop_number := (i + 1)%Z;
               sr_amplitude := amplitude freq;
               sr_time_ms := time_ms freq;
               sr_energy := energy freq;
               sr_generation_method := sp_generation_method params;
               sr_frequency := frequency freq;
               sr_k1 := k1 freq;
               sr_k2 := k2 freq;
               sr_k1_k2_product := k1_k2_product freq;
               sr_k_index := k_index freq;
               sr_is_valid := is_valid freq;
               sr_attempts := attempts freq;
               sr_sync_info := sync_result |} in
          match next_hop self with
          | None => None
          | Some self =>
              match sender_loop n' (i + 1)%Z self drawn with
              | None => None
              | Some (results, self, drawn) => Some (result :: results, self, drawn)
              end
          end
      end
  end.

Definition simulate_sender_operation (self : SecureFHSSAlgorithm) (drawn : nat)
    (hop_count : Z) : option (list SenderRecord * SecureFHSSAlgorithm * nat) :=
  sender_loop (Z.to_nat hop_count) 0 self drawn.

(** One iteration of the receiver's loop, up to the record it appends; the
    state it returns is the one before [next_hop]. *)
Definition receive_hop (i : Z) (sender_data : SenderRecord) (noise_level : float)
    (self : SecureFHSSAlgorithm) (drawn : nat)
    : option (ReceiverRecord * SecureFHSSAlgorithm * nat) :=
  let noise_factor :=
    (Py.float_of_int 1 + Py.uniform (- noise_level) noise_level (random drawn))%float in
  let drawn := S drawn in
  let received_amplitude := (sr_amplitude sender_data * noise_factor)%float in
  let received_energy := (sr_energy sender_data * noise_factor)%float in
  let received_time :=
    (sr_time_ms sender_data + Py.uniform (-0.05) 0.05 (random drawn))%float in
  let drawn := S drawn in
  let measured_params :=
    measure_signal_parameters received_amplitude received_energy received_time in
  let (validation, self) :=
    validate_signal self (sp_amplitude measured_params) (sp_time_ms measured_params) in
  let outcome :=
    if v_is_valid validation then
      match calculate_frequency self (sp_amplitude measured_params)
              (sp_time_ms measured_params) (sp_energy measured_params) with
      | None => None
      | Some (freq, self) =>
          let freq_difference := abs (frequency freq - sr_frequency sender_data) in
          let is_match := (freq_difference <? 40.0)%float in
          Some (Computed freq, freq_difference, is_match, self)
      end
    else
      Some (Rejected, infinity, false, self) in
  match outcome with
  | None => None
  | Some (freq, freq_difference, is_match, self) =>
      let sync_result := sync_check self in
      Some ({| rr_hop_number := (i + 1)%Z;
               original_data := sender_data;
               rr_amplitude := sp_amplitude measured_params;
               rr_time_ms := sp_time_ms measured_params;
               rr_energy := sp_energy measured_params;
               rr_generation_method := sp_generation_method measured_params;
               validation := validation;
               freq_result := freq;
               frequency_difference := freq_difference;
               is_match := is_match;
               rr_sync_info := sync_result |}, self, drawn)
  end.

(** [for i, sender_data in enumerate(sender_results)], from index [i]. *)
Fixpoint receiver_loop (sender_results : list SenderRecord) (i : Z)
    (noise_level : float) (self : SecureFHSSAlgorithm) (drawn : nat)
    : option (list ReceiverRecord * SecureFHSSAlgorithm * nat) :=
  match sender_results with
  | [] => Some ([], self, drawn)
  | sender_data :: rest =>
      match receive_hop i sender_data noise_level self drawn with
      | None => None
      | Some (result, self, drawn) =>
          match next_hop self with
          | None => None
          | Some self =>
              match receiver_loop rest (i + 1)%Z noise_level self drawn with
              | None => None
              | Some (results, self, drawn) => Some (result :: results, self, drawn)
              end
          end
      end
  end.

Definition simulate_receiver_operation (self : SecureFHSSAlgorithm) (drawn : nat)
    (sender_results : list SenderRecord) (noise_level : float)
    : option (list ReceiverRecord * SecureFHSSAlgorithm * nat) :=
  let self := set_current_k_index self 0 in
  let self := set_hop_counter self 0 in
  receiver_loop sender_results 0 noise_level self drawn.

End Simulation.

(** ** Statistics *)

Section Statistics.

(** [math.log10], a function of the C library. *)
Variable log10 : float -> float.

(** [x if l else 0] around an expression that may raise. *)
Definition if_nonempty {A} (l : list A) (x : option float) : option float :=
  match l with
  | [] => Some (Py.float_of_int 0)
  | _ :: _ => x
  end.

Definition sub_opt (x y : option float) : option float :=
  match x, y with
  | Some a, Some b => Some (a - b)%float
  | _, _ => None
  end.

Definition mul100_opt (x : option float) : option float :=
  match x with
  | Some a => Some (a * Py.float_of_int 100)%float
  | None => None
  end.

Definition calculate_statistics (sender_results : list SenderRecord)
    (receiver_results : list ReceiverRecord) : option Statistics :=
  let sender_frequencies :=
    map sr_frequency (filter sr_is_valid sender_results) in
  let valid_receptions :=
    filter (fun r => v_is_valid (validation r)) receiver_results in
  let successful_matches := filter is_match valid_receptions in
  let noise_percentage := 0.99%float in
  let estimated_snr :=
    (Py.float_of_int 10 * log10 (Py.float_of_int 1 / (noise_percentage / Py.float_of_int 100)))%float in
  match
    if_nonempty sender_frequencies
      (Py.truediv (Py.sum sender_frequencies) (Py.float_of_int (Py.len sender_frequencies))),
    if_nonempty sender_frequencies (Py.min sender_frequencies),
    if_nonempty sender_frequencies (Py.max sender_frequencies),
    if_nonempty sender_frequencies
      (sub_opt (Py.max sender_frequencies) (Py.min sender_frequencies)),
    if_nonempty receiver_results
      (mul100_opt (Py.int_truediv (Py.len successful_matches) (Py.len receiver_results))),
    if_nonempty receiver_results
      (mul100_opt (Py.int_truediv (Py.len valid_receptions) (Py.len receiver_results)))
  with
  | Some avg, Some mn, Some mx, Some range, Some success, Some valid =>
      Some {| sender :=
                {| total_hops := Py.len sender_results;
                   valid_hops := Py.len sender_frequencies;
                   avg_frequency := avg;
                   min_frequency := mn;
                   max_frequency := mx;
                   frequency_range := range |};
              receiver :=
                {| total_receptions := Py.len receiver_results;
                   valid_receptions := Py.len valid_receptions;
                   successful_matches := Py.len successful_matches;
                   success_rate := success;
                   validation_rate := valid;
                   noise_percentage := noise_percentage;
                   estimated_snr_db := estimated_snr |} |}
  | _, _, _, _, _, _ => None
  end.

End Statistics.

(** ** Notions used to state and prove the properties *)

(** The coefficient lists [calculate_frequency] can work with: every [k1]
    the list yields converts to a float.  With a larger coefficient Python
    raises [OverflowError] at [amplitude * k1], which no handler of the
    method catches. *)
Definition coefficients_convertible (l : list Z) : Prop :=
  Forall (fun p => Py.float_of_int_raises (p / k2_constant) = false) l.

(** [finite_below K x]: [x] is a zero or a finite number of magnitude below
    [2 ^ K] (a mantissa of [d] binary digits with exponent [e] has
    [d + e <= K]). *)
Definition finite_below (K : Z) (x : spec_float) : Prop :=
  match x with
  | S754_zero _ => True
  | S754_finite _ m e => (Zpos (digits2_pos m) + e <= K)%Z
  | _ => False
  end.

Definition has_sign (s : bool) (x : spec_float) : Prop :=
  match x with
  | S754_zero s' | S754_finite s' _ _ | S754_infinity s' => s' = s
  | S754_nan => False
  end.

(** The coefficient list CPython's [random] module yields for
    [sync_key = 12345]:
    [random.seed(12345); sorted(random.randint(1000, 3000) for _ in range(5))]. *)
Definition k1_k2_list_12345 : list Z := [1020; 1853; 2500; 2679; 2690]%Z.

(** Two states that differ at most in the coefficient index. *)
Definition same_static (s s' : SecureFHSSAlgorithm) : Prop :=
  sync_key s' = sync_key s /\ k1_k2_list s' = k1_k2_list s /\ hop_counter s' = hop_counter s.

(** The state in which the receiver starts its iteration [i]: the state the
    loop over the first [i] sender records ends in (the loop over the whole
    list passes through it, see [receiver_loop_app]). *)
Definition receiver_state_at (random : nat -> float) (self : SecureFHSSAlgorithm)
    (drawn : nat) (sender_results : list SenderRecord) (noise_level : float) (i : nat)
    : option SecureFHSSAlgorithm :=
  match simulate_receiver_operation random self drawn (firstn i sender_results) noise_level with
  | Some (_, self, _) => Some self
  | None => None
  end.

(** [sys.maxsize], the largest length a list can have. *)
Definition maxsize : Z := 2 ^ 63 - 1.

(** Two streams of [random.random()] values for the examples: every draw
    0.5; and the draws 0.5, 0.25, then 0. *)
Definition half_stream (n : nat) : float := 0.5%float.

Definition jitter_stream (n : nat) : float :=
  match n with
  | O => 0.5%float
  | S O => 0.25%float
  | _ => 0%float
  end.

(** ** Construction, and repeated hops *)

(** [sorted(l)] on ints: the ascending rearrangement of [l], computed here by
    insertion. *)
Fixpoint insert_sorted (x : Z) (l : list Z) : list Z :=
  match l with
  | [] => [x]
  | y :: t => if (x <=? y)%Z then x :: l else y :: insert_sorted x t
  end.

Definition sorted (l : list Z) : list Z := fold_right insert_sorted [] l.

(** [__init__]: the state a new instance starts in.  [randint n] is the value
    of the [n]-th call of [random.randint(1000, 3000)] after
    [random.seed(sync_key)]; the list comprehension makes five calls. *)
Definition __init__ (sync_key : Z) (randint : nat -> Z) : SecureFHSSAlgorithm :=
  {| sync_key := sync_key;
     k1_k2_list := sorted (map randint (seq 0 5));
     current_k_index := 0;
     hop_counter := 0 |}.

(** [n] calls of [next_hop] in a row. *)
Fixpoint hops (n : nat) (self : SecureFHSSAlgorithm) : option SecureFHSSAlgorithm :=
  match n with
  | O => Some self
  | S n' =>
      match next_hop self with
      | None => None
      | Some self' => hops n' self'
      end
  end.

(** The state [j] hops after [self]: what [j] calls of [next_hop] make of a
    state whose index is in range (see [hops_state_after]). *)
Definition state_after (self : SecureFHSSAlgorithm) (j : nat) : SecureFHSSAlgorithm :=
  {| sync_key := sync_key self; k1_k2_list := k1_k2_list self;
     current_k_index := (current_k_index self + Z.of_nat j) mod Py.len (k1_k2_list self);
     hop_counter := hop_counter self + Z.of_nat j |}.

(** The record of a sender hop with the nominal amplitude 3.0 under the pair
    (10, 100): energy 18 and frequency 2000 + (3 * 10 + 18 * 100) / 2. *)
Definition nominal_record : SenderRecord :=
  {| sr_hop_number := 1;
     sr_amplitude := 3;
     sr_time_ms := 2;
     sr_energy := 18;
     sr_generation_method := sender_generated;
     sr_frequency := 2915;
     sr_k1 := 10;
     sr_k2 := 100;
     sr_k1_k2_product := 1000;
     sr_k_index := 0;
     sr_is_valid := true;
     sr_attempts := 1;
     sr_sync_info := SyncNotNeeded 0 |}.


(** [between q lo hi x]: [x] is a zero or a finite number on a grid at least
    as fine as [2 ^ q], and its value lies between [lo * 2 ^ q] and
    [hi * 2 ^ q]. *)
Definition between (q lo hi : Z) (x : spec_float) : Prop :=
  match x with
  | S754_zero _ => (lo <= 0 <= hi)%Z
  | S754_finite s m e =>
      (e <= q /\
       lo * 2 ^ (q - e) <= cond_Zopp s (Zpos m) <= hi * 2 ^ (q - e))%Z
  | _ => False
  end.

(** The grid of the bounds used for the signal values: [2 ^ -40], fine
    enough for every binary64 number below 8192. *)
Definition grid : Z := -40.

(** [micro n]: [n] millionths as a multiple of the grid step, rounded down. *)
Definition micro (n : Z) : Z := (n * 2 ^ 40 / 1000000)%Z.

(** What the sender's run guarantees of each of its records: the amplitude
    lies within 0.00001 of [2.85, 3.15] and the energy in [16.244, 19.846];
    the time is the hop time; and the frequency is the value of the formula
    itself, between 2826.4 and 3039.6. *)
Definition generated_signal (rec : SenderRecord) : Prop :=
  between grid (micro 2849990) (micro 3150010) (Prim2SF (sr_amplitude rec)) /\
  between grid (micro 16244000) (micro 19846000) (Prim2SF (sr_energy rec)) /\
  sr_time_ms rec = Py.float_of_int t_hop /\
  between grid (micro 2826400000) (micro 3039600000) (Prim2SF (sr_frequency rec)) /\
  sr_frequency rec =
    raw_frequency (sr_amplitude rec) (sr_time_ms rec) (sr_energy rec)
      (sr_k1 rec) k2_constant.

(** * Facts about binary64 arithmetic *)

Local Open Scope Z_scope.

(** ** Comparisons *)

Lemma SFcompare_antisym (x y : spec_float) :
  SFcompare y x = option_map CompOpp (SFcompare x y).
Proof.
  destruct x as [sx|sx| |sx mx ex], y as [sy|sy| |sy my ey]; simpl;
    try reflexivity;
    try (destruct sx; reflexivity); try (destruct sy; reflexivity);
    try (destruct sx, sy; reflexivity).
  destruct sx, sy; simpl; try reflexivity;
    rewrite (Z.compare_antisym ex ey); destruct (ex ?= ey)%Z; simpl; try reflexivity;
    rewrite (Pos.compare_cont_antisym mx my Eq); simpl;
    destruct (Pos.compare_cont Eq mx my); reflexivity.
Qed.

Lemma SFcompare_refl (x : spec_float) :
  x <> S754_nan -> SFcompare x x = Some Eq.
Proof.
  destruct x as [s|s| |s m e]; simpl; intros H; try congruence.
  - destruct s; reflexivity.
  - destruct s; rewrite Z.compare_refl, Pos.compare_cont_refl; reflexivity.
Qed.

Lemma SFcompare_nan (x y : spec_float) :
  SFcompare x y = None <-> x = S754_nan \/ y = S754_nan.
Proof.
  destruct x as [sx|sx| |sx mx ex], y as [sy|sy| |sy my ey]; simpl;
    split; intros H; try discriminate; auto;
    try (destruct H; discriminate).
Qed.

Lemma is_nan_spec (x : float) : is_nan x = true <-> Prim2SF x = S754_nan.
Proof.
  unfold is_nan. rewrite eqb_spec. unfold SFeqb.
  split.
  - intros H. destruct (Prim2SF x) eqn:E; try reflexivity;
      rewrite SFcompare_refl in H by congruence; discriminate.
  - intros ->. reflexivity.
Qed.

(** ** Rounding *)

Lemma digits2_pos_size (p : positive) : digits2_pos p = Pos.size p.
Proof. induction p; simpl; congruence. Qed.

Lemma digits2_pos_upper (p : positive) : Zpos p < 2 ^ Zpos (digits2_pos p).
Proof.
  rewrite digits2_pos_size.
  pose proof (Pos.size_gt p) as H.
  change 2 with (Zpos 2). rewrite <- Pos2Z.inj_pow. lia.
Qed.

Lemma digits2_pos_lower (p : positive) : 2 ^ (Zpos (digits2_pos p) - 1) <= Zpos p.
Proof.
  rewrite digits2_pos_size.
  pose proof (Pos.size_le p) as H.
  assert (H0 : 2 ^ Zpos (Pos.size p) <= 2 * Zpos p).
  { change 2 with (Zpos 2) at 1. rewrite <- Pos2Z.inj_pow. change (2 * Zpos p) with (Zpos p~0). lia. }
  replace (Zpos (Pos.size p)) with (Zpos (Pos.size p) - 1 + 1) in H0 by lia.
  rewrite Z.pow_add_r in H0 by lia. lia.
Qed.

(* digits <= k iff < 2^k *)
Lemma digits2_pos_le (p : positive) (k : Z) :
  Zpos p < 2 ^ k -> Zpos (digits2_pos p) <= k.
Proof.
  intros H. pose proof (digits2_pos_lower p) as L.
  destruct (Z_le_gt_dec (Zpos (digits2_pos p)) k) as [|G]; [assumption|exfalso].
  destruct (Z_lt_le_dec k 0) as [N|N].
  - rewrite Z.pow_neg_r in H by assumption. lia.
  - assert (2 ^ k <= 2 ^ (Zpos (digits2_pos p) - 1)) by (apply Z.pow_le_mono_r; lia). lia.
Qed.

Lemma shr_1_m (mrs : shr_record) :
  0 <= shr_m mrs -> shr_m (shr_1 mrs) = shr_m mrs / 2.
Proof.
  destruct mrs as [m r s]. simpl. intros H.
  destruct m as [|[p|p|]|p]; cbn [shr_1 shr_m]; try lia; try reflexivity.
  - rewrite Pos2Z.inj_xI. apply Z.div_unique with (r := 1); lia.
  - rewrite Pos2Z.inj_xO. apply Z.div_unique with (r := 0); lia.
Qed.

Lemma iter_shr_1_m (p : positive) : forall mrs,
  0 <= shr_m mrs -> shr_m (iter_pos shr_1 p mrs) = shr_m mrs / 2 ^ Zpos p.
Proof.
  induction p as [p IH|p IH|]; intros mrs H; simpl iter_pos.
  - assert (H1 : 0 <= shr_m (shr_1 mrs)) by (rewrite shr_1_m by assumption; apply Z.div_pos; lia).
    assert (H2 : 0 <= shr_m (iter_pos shr_1 p (shr_1 mrs)))
      by (rewrite IH by assumption; apply Z.div_pos; lia).
    rewrite IH, IH, shr_1_m by assumption.
    rewrite !Z.div_div by lia.
    f_equal. replace (Zpos p~1) with (1 + Zpos p + Zpos p) by lia.
    rewrite !Z.pow_add_r by lia. change (2 ^ 1) with 2. ring.
  - assert (H2 : 0 <= shr_m (iter_pos shr_1 p mrs))
      by (rewrite IH by assumption; apply Z.div_pos; lia).
    rewrite IH, IH by assumption.
    rewrite !Z.div_div by lia.
    f_equal. replace (Zpos p~0) with (Zpos p + Zpos p) by lia.
    rewrite !Z.pow_add_r by lia. change (2 ^ 1) with 2. ring.
  - rewrite shr_1_m by assumption. reflexivity.
Qed.

Lemma shr_record_of_loc_m m l : shr_m (shr_record_of_loc m l) = m.
Proof. destruct l as [|[]]; reflexivity. Qed.

Lemma shr_fexp_spec m e l :
  0 <= m ->
  exists mrs,
    shr_fexp prec emax m e l = (mrs, Z.max e (fexp prec emax (Zdigits2 m + e))) /\
    shr_m mrs = m / 2 ^ (Z.max e (fexp prec emax (Zdigits2 m + e)) - e).
Proof.
  intros Hm. unfold shr_fexp, shr.
  set (f := fexp prec emax (Zdigits2 m + e)).
  destruct (f - e) as [|p|p] eqn:E.
  - exists (shr_record_of_loc m l). replace (Z.max e f) with e by lia.
    rewrite Z.sub_diag, shr_record_of_loc_m, Z.div_1_r. auto.
  - exists (iter_pos shr_1 p (shr_record_of_loc m l)).
    replace (Z.max e f) with (e + Zpos p) by lia.
    rewrite iter_shr_1_m by (rewrite shr_record_of_loc_m; assumption).
    rewrite shr_record_of_loc_m. replace (e + Zpos p - e) with (Zpos p) by lia. auto.
  - exists (shr_record_of_loc m l). replace (Z.max e f) with e by lia.
    rewrite Z.sub_diag, shr_record_of_loc_m, Z.div_1_r. auto.
Qed.

Lemma round_nearest_even_bounds m l :
  m <= round_nearest_even m l <= m + 1.
Proof.
  destruct l as [|[]]; simpl; try lia. destruct (Z.even m); lia.
Qed.

(** The shape of every result of [binary_round_aux]. *)
Lemma binary_round_aux_spec s m e l :
  0 <= m ->
  exists m2 e1,
    e1 = Z.max e (fexp prec emax (Zdigits2 m + e)) /\
    m / 2 ^ (e1 - e) <= m2 <= m / 2 ^ (e1 - e) + 1 /\
    binary_round_aux prec emax s m e l =
      let e2 := Z.max e1 (fexp prec emax (Zdigits2 m2 + e1)) in
      match m2 / 2 ^ (e2 - e1) with
      | Z0 => S754_zero s
      | Zpos p => if e2 <=? emax - prec then S754_finite s p e2 else S754_infinity s
      | Zneg _ => S754_nan
      end.
Proof.
  intros Hm. unfold binary_round_aux.
  destruct (shr_fexp_spec m e l Hm) as (mrs1 & E1 & M1). rewrite E1.
  set (e1 := Z.max e (fexp prec emax (Zdigits2 m + e))) in *.
  set (m2 := round_nearest_even (shr_m mrs1) (loc_of_shr_record mrs1)).
  assert (B2 : shr_m mrs1 <= m2 <= shr_m mrs1 + 1) by apply round_nearest_even_bounds.
  assert (H1 : 0 <= shr_m mrs1) by (rewrite M1; apply Z.div_pos; lia).
  assert (H2 : 0 <= m2) by lia.
  destruct (shr_fexp_spec m2 e1 loc_Exact H2) as (mrs2 & E2 & M2). rewrite E2.
  exists m2, e1. split; [reflexivity|]. split; [rewrite <- M1; exact B2|].
  cbv zeta. rewrite M2. reflexivity.
Qed.

Lemma Zdigits2_le (m k : Z) : 0 <= m -> 0 <= k -> m < 2 ^ k -> Zdigits2 m <= k.
Proof.
  intros Hm Hk H. destruct m as [|p|p]; cbn [Zdigits2]; try lia.
  apply digits2_pos_le. assumption.
Qed.

Lemma Zdigits2_pos_bounds (m : Z) :
  0 < m -> 1 <= Zdigits2 m /\ 2 ^ (Zdigits2 m - 1) <= m < 2 ^ Zdigits2 m.
Proof.
  destruct m as [|p|p]; cbn [Zdigits2]; try lia. intros _.
  pose proof (digits2_pos_lower p). pose proof (digits2_pos_upper p). lia.
Qed.

Lemma div_pow2_lt (m a n : Z) :
  0 <= m < 2 ^ a -> 0 <= n -> m / 2 ^ n < 2 ^ Z.max 0 (a - n).
Proof.
  intros [Hm Hlt] Hn.
  assert (Ha : 0 <= a).
  { destruct (Z_lt_le_dec a 0); [|assumption]. rewrite Z.pow_neg_r in Hlt by assumption. lia. }
  assert (P : 0 < 2 ^ n) by (apply Z.pow_pos_nonneg; lia).
  destruct (Z_le_gt_dec n a) as [L|G].
  - replace (Z.max 0 (a - n)) with (a - n) by lia.
    apply Z.div_lt_upper_bound; [assumption|].
    rewrite <- Z.pow_add_r by lia. replace (n + (a - n)) with a by lia. assumption.
  - replace (Z.max 0 (a - n)) with 0 by lia.
    rewrite Z.div_small; [reflexivity|].
    split; [assumption|]. apply Z.lt_le_trans with (2 ^ a); [assumption|].
    apply Z.pow_le_mono_r; lia.
Qed.

Lemma div_pow2_ge (m a n : Z) :
  2 ^ a <= m -> 0 <= n <= a -> 2 ^ (a - n) <= m / 2 ^ n.
Proof.
  intros H [Hn Ha].
  assert (P : 0 < 2 ^ n) by (apply Z.pow_pos_nonneg; lia).
  apply Z.div_le_lower_bound; [assumption|].
  rewrite <- Z.pow_add_r by lia. replace (n + (a - n)) with a by lia. assumption.
Qed.

Lemma binary_round_aux_not_nan s m e l :
  0 <= m -> binary_round_aux prec emax s m e l <> S754_nan.
Proof.
  intros Hm. destruct (binary_round_aux_spec s m e l Hm) as (m2 & e1 & E1 & B & ->).
  cbv zeta.
  set (e2 := Z.max e1 _).
  assert (0 <= m / 2 ^ (e1 - e)) by (apply Z_div_nonneg_nonneg; [|apply Z.pow_nonneg]; lia).
  assert (H2 : 0 <= m2 / 2 ^ (e2 - e1)) by (apply Z_div_nonneg_nonneg; [|apply Z.pow_nonneg]; lia).
  destruct (m2 / 2 ^ (e2 - e1)); try lia; try discriminate.
  destruct (e2 <=? emax - prec); discriminate.
Qed.

Lemma fexp_def k : fexp prec emax k = Z.max (k - 53) (-1074).
Proof. reflexivity. Qed.

Lemma binary_round_aux_finite s m e l K :
  0 < m -> Zdigits2 m + e <= K -> K <= 1023 -> e <= 970 ->
  finite_below (Z.max K (-1074) + 1) (binary_round_aux prec emax s m e l) /\
  has_sign s (binary_round_aux prec emax s m e l).
Proof.
  intros Hm HK HK' He.
  assert (Hm0 : 0 <= m) by lia.
  destruct (binary_round_aux_spec s m e l Hm0) as (m2 & e1 & E1 & B & ->).
  cbv zeta. rewrite !fexp_def in *.
  destruct (Zdigits2_pos_bounds m Hm) as (D1 & DL & DU).
  set (d := Zdigits2 m) in *.
  assert (Hn : 0 <= e1 - e) by lia.
  pose proof (div_pow2_lt m d (e1 - e) (conj Hm0 DU) Hn) as M1.
  assert (M1' : 0 <= m / 2 ^ (e1 - e)) by (apply Z_div_nonneg_nonneg; [|apply Z.pow_nonneg]; lia).
  set (k1 := Z.max 0 (d - (e1 - e))) in *.
  assert (Hk1 : 0 <= k1 <= 53) by lia.
  assert (M2 : m2 < 2 ^ (k1 + 1)).
  { rewrite Z.pow_add_r by lia. change (2 ^ 1) with 2.
    assert (0 < 2 ^ k1) by (apply Z.pow_pos_nonneg; lia). lia. }
  assert (D2 : Zdigits2 m2 <= k1 + 1) by (apply Zdigits2_le; lia).
  assert (D2' : 0 <= Zdigits2 m2) by (destruct m2; simpl; lia).
  set (e2 := Z.max e1 (Z.max (Zdigits2 m2 + e1 - 53) (-1074))).
  assert (He2 : e1 <= e2 <= e1 + 1) by lia.
  assert (Hn2 : 0 <= e2 - e1) by lia.
  assert (Hm2 : 0 <= m2) by lia.
  pose proof (div_pow2_lt m2 (k1 + 1) (e2 - e1) (conj Hm2 M2) Hn2) as M3.
  assert (M3' : 0 <= m2 / 2 ^ (e2 - e1)) by (apply Z_div_nonneg_nonneg; [|apply Z.pow_nonneg]; lia).
  destruct (m2 / 2 ^ (e2 - e1)) as [|p|p] eqn:E3; try lia.
  - cbn [finite_below has_sign]. auto.
  - assert (L : (e2 <=? emax - prec) = true) by (apply Z.leb_le; change (emax - prec) with 971; lia).
    rewrite L. cbn [finite_below has_sign]. split; [|reflexivity].
    assert (Hpos : 0 < Z.max 0 (k1 + 1 - (e2 - e1))).
    { destruct (Z_lt_le_dec 0 (Z.max 0 (k1 + 1 - (e2 - e1)))) as [|Q]; [assumption|].
      replace (Z.max 0 (k1 + 1 - (e2 - e1))) with 0 in M3 by lia.
      change (2 ^ 0) with 1 in M3. lia. }
    assert (Zpos (digits2_pos p) <= k1 + 1 - (e2 - e1)).
    { apply digits2_pos_le. replace (Z.max 0 (k1 + 1 - (e2 - e1))) with (k1 + 1 - (e2 - e1)) in M3 by lia.
      assumption. }
    lia.
Qed.

Lemma binary_round_aux_nonzero s m e l :
  0 < m -> -1074 < Zdigits2 m + e ->
  forall s', binary_round_aux prec emax s m e l <> S754_zero s'.
Proof.
  intros Hm Hd s'.
  assert (Hm0 : 0 <= m) by lia.
  destruct (binary_round_aux_spec s m e l Hm0) as (m2 & e1 & E1 & B & ->).
  cbv zeta. rewrite !fexp_def in *.
  destruct (Zdigits2_pos_bounds m Hm) as (D1 & DL & DU).
  set (d := Zdigits2 m) in *.
  assert (Hn : 0 <= e1 - e <= d - 1) by lia.
  pose proof (div_pow2_ge m (d - 1) (e1 - e) DL Hn) as M1.
  assert (P1 : 0 < 2 ^ (d - 1 - (e1 - e))) by (apply Z.pow_pos_nonneg; lia).
  assert (Hm2 : 0 < m2) by lia.
  destruct (Zdigits2_pos_bounds m2 Hm2) as (D2 & DL2 & DU2).
  set (d2 := Zdigits2 m2) in *.
  set (e2 := Z.max e1 (Z.max (d2 + e1 - 53) (-1074))).
  assert (Hn2 : 0 <= e2 - e1 <= d2 - 1) by lia.
  pose proof (div_pow2_ge m2 (d2 - 1) (e2 - e1) DL2 Hn2) as M3.
  assert (P3 : 0 < 2 ^ (d2 - 1 - (e2 - e1))) by (apply Z.pow_pos_nonneg; lia).
  destruct (m2 / 2 ^ (e2 - e1)) as [|p|p] eqn:E3; try lia; try discriminate.
  destruct (e2 <=? emax - prec); discriminate.
Qed.

Lemma digits2_pos_unique (p : positive) (k : Z) :
  2 ^ (k - 1) <= Zpos p < 2 ^ k -> Zpos (digits2_pos p) = k.
Proof.
  intros [L U].
  pose proof (digits2_pos_lower p) as L'. pose proof (digits2_pos_upper p) as U'.
  assert (Hk : 0 <= k).
  { destruct (Z_lt_le_dec k 0); [|assumption]. rewrite Z.pow_neg_r in U by assumption. lia. }
  pose proof (digits2_pos_le p k U) as A.
  destruct (Z.eq_dec (Zpos (digits2_pos p)) k) as [|N]; [assumption|exfalso].
  assert (2 ^ Zpos (digits2_pos p) <= 2 ^ (k - 1)) by (apply Z.pow_le_mono_r; lia).
  lia.
Qed.

Lemma iter_xO_spec (d mx : positive) : Zpos (Pos.iter xO mx d) = Zpos mx * 2 ^ Zpos d.
Proof.
  revert mx. induction d using Pos.peano_ind; intros mx.
  - simpl. lia.
  - rewrite Pos.iter_succ, Pos2Z.inj_xO, IHd, Pos2Z.inj_succ, Z.pow_succ_r by lia. ring.
Qed.

Lemma shl_align_spec mx ex ex' :
  snd (shl_align mx ex ex') = Z.min ex ex' /\
  Zpos (fst (shl_align mx ex ex')) = Zpos mx * 2 ^ (ex - Z.min ex ex').
Proof.
  unfold shl_align. destruct (ex' - ex) as [|d|d] eqn:E; cbn [fst snd].
  - replace (Z.min ex ex') with ex by lia. rewrite Z.sub_diag. split; [reflexivity|]. simpl; lia.
  - replace (Z.min ex ex') with ex by lia. rewrite Z.sub_diag. split; [reflexivity|]. simpl; lia.
  - replace (Z.min ex ex') with ex' by lia. split; [reflexivity|].
    rewrite iter_xO_spec. f_equal. f_equal. lia.
Qed.

Lemma shl_align_digits mx ex ex' :
  Zdigits2 (Zpos (fst (shl_align mx ex ex'))) + snd (shl_align mx ex ex') =
  Zpos (digits2_pos mx) + ex.
Proof.
  destruct (shl_align_spec mx ex ex') as [-> E].
  cbn [Zdigits2].
  pose proof (digits2_pos_lower mx) as L. pose proof (digits2_pos_upper mx) as U.
  set (n := ex - Z.min ex ex') in *. assert (Hn : 0 <= n) by lia.
  assert (P : 0 < 2 ^ n) by (apply Z.pow_pos_nonneg; lia).
  rewrite (digits2_pos_unique (fst (shl_align mx ex ex')) (Zpos (digits2_pos mx) + n)); [lia|].
  rewrite E. split.
  - replace (Zpos (digits2_pos mx) + n - 1) with (Zpos (digits2_pos mx) - 1 + n) by lia.
    rewrite Z.pow_add_r by lia. apply Z.mul_le_mono_nonneg_r; lia.
  - rewrite Z.pow_add_r by lia. apply Z.mul_lt_mono_pos_r; lia.
Qed.

Lemma binary_round_finite s mx ex K :
  Zpos (digits2_pos mx) + ex <= K -> K <= 1023 -> ex <= 970 ->
  finite_below (Z.max K (-1074) + 1) (binary_round prec emax s mx ex) /\
  has_sign s (binary_round prec emax s mx ex).
Proof.
  intros HK HK' He. unfold binary_round.
  pose proof (shl_align_digits mx ex (fexp prec emax (Zpos (digits2_pos mx) + ex))) as D.
  destruct (shl_align_spec mx ex (fexp prec emax (Zpos (digits2_pos mx) + ex))) as [E _].
  destruct (shl_align mx ex (fexp prec emax (Zpos (digits2_pos mx) + ex))) as [mz ez].
  cbn [fst snd] in *.
  apply binary_round_aux_finite; lia.
Qed.

Lemma binary_round_nonzero s mx ex :
  -1074 < Zpos (digits2_pos mx) + ex ->
  forall s', binary_round prec emax s mx ex <> S754_zero s'.
Proof.
  intros Hd. unfold binary_round.
  pose proof (shl_align_digits mx ex (fexp prec emax (Zpos (digits2_pos mx) + ex))) as D.
  destruct (shl_align mx ex (fexp prec emax (Zpos (digits2_pos mx) + ex))) as [mz ez].
  cbn [fst snd] in *.
  apply binary_round_aux_nonzero; lia.
Qed.

Lemma binary_round_not_nan s mx ex : binary_round prec emax s mx ex <> S754_nan.
Proof.
  unfold binary_round.
  destruct (shl_align mx ex (fexp prec emax (Zpos (digits2_pos mx) + ex))) as [mz ez].
  apply binary_round_aux_not_nan. lia.
Qed.

Lemma finite_below_mono K K' x : K <= K' -> finite_below K x -> finite_below K' x.
Proof. destruct x; simpl; auto. lia. Qed.

Lemma SFmul_finite Kx Ky x y :
  finite_below Kx x -> finite_below Ky y -> Kx + Ky <= 970 ->
  finite_below (Z.max (Kx + Ky) (-1074) + 1) (SFmul prec emax x y).
Proof.
  destruct x as [sx|sx| |sx mx ex], y as [sy|sy| |sy my ey];
    cbn [finite_below SFmul]; try tauto.
  intros Hx Hy HK.
  pose proof (digits2_pos_upper mx) as Ux. pose proof (digits2_pos_upper my) as Uy.
  apply binary_round_aux_finite; try lia.
  cbn [Zdigits2].
  assert (Zpos (digits2_pos (mx * my)) <= Zpos (digits2_pos mx) + Zpos (digits2_pos my)); [|lia].
  apply digits2_pos_le. rewrite Pos2Z.inj_mul, Z.pow_add_r by lia.
  apply Z.mul_lt_mono_nonneg; lia.
Qed.

Lemma cond_Zopp_abs b m : Z.abs (cond_Zopp b m) = Z.abs m.
Proof. destruct b; simpl; lia. Qed.

Lemma SFadd_finite K x y :
  finite_below K x -> finite_below K y -> K <= 968 ->
  finite_below (Z.max (K + 1) (-1074) + 1) (SFadd prec emax x y).
Proof.
  destruct x as [sx|sx| |sx mx ex], y as [sy|sy| |sy my ey];
    cbn [finite_below SFadd]; try tauto.
  - intros _ _ _. destruct sx, sy; exact I.
  - intros _ H _. lia.
  - intros H _ _. lia.
  - intros Hx Hy HK.
    set (ez := Z.min ex ey).
    destruct (shl_align_spec mx ex ez) as [_ Ex].
    destruct (shl_align_spec my ey ez) as [_ Ey].
    replace (Z.min ex ez) with ez in Ex by lia.
    replace (Z.min ey ez) with ez in Ey by lia.
    set (A := Zpos (fst (shl_align mx ex ez))) in *.
    set (B := Zpos (fst (shl_align my ey ez))) in *.
    pose proof (digits2_pos_upper mx) as Ux. pose proof (digits2_pos_upper my) as Uy.
    assert (P : 0 <= K - ez) by lia.
    assert (HA : 0 < A < 2 ^ (K - ez)).
    { subst A. rewrite Ex. split; [apply Z.mul_pos_pos; [lia|apply Z.pow_pos_nonneg; lia]|].
      apply Z.lt_le_trans with (2 ^ Zpos (digits2_pos mx) * 2 ^ (ex - ez)).
      - apply Z.mul_lt_mono_pos_r; [apply Z.pow_pos_nonneg; lia|assumption].
      - rewrite <- Z.pow_add_r by lia. apply Z.pow_le_mono_r; lia. }
    assert (HB : 0 < B < 2 ^ (K - ez)).
    { subst B. rewrite Ey. split; [apply Z.mul_pos_pos; [lia|apply Z.pow_pos_nonneg; lia]|].
      apply Z.lt_le_trans with (2 ^ Zpos (digits2_pos my) * 2 ^ (ey - ez)).
      - apply Z.mul_lt_mono_pos_r; [apply Z.pow_pos_nonneg; lia|assumption].
      - rewrite <- Z.pow_add_r by lia. apply Z.pow_le_mono_r; lia. }
    set (S := cond_Zopp sx A + cond_Zopp sy B).
    assert (HS : Z.abs S < 2 ^ (K - ez + 1)).
    { rewrite Z.pow_add_r by lia. change (2 ^ 1) with 2.
      subst S. destruct sx, sy; cbn [cond_Zopp]; lia. }
    unfold binary_normalize.
    destruct S as [|p|p] eqn:ES; [exact I| |];
      apply binary_round_finite; try lia;
      assert (Zpos (digits2_pos p) <= K - ez + 1) by (apply digits2_pos_le; lia); lia.
Qed.

Lemma SFadd_nan K x y :
  finite_below K x -> (SFadd prec emax x y = S754_nan <-> y = S754_nan).
Proof.
  destruct x as [sx|sx| |sx mx ex], y as [sy|sy| |sy my ey];
    cbn [finite_below SFadd]; try tauto; intros _;
    try (split; intros H; solve [discriminate H | reflexivity]).
  - destruct sx, sy; split; discriminate.
  - split; [|discriminate]. intros H; exfalso; revert H.
    unfold binary_normalize.
    destruct (cond_Zopp sx _ + cond_Zopp sy _); try discriminate;
      apply binary_round_not_nan.
Qed.

Lemma SFdiv_nan x sy my ey :
  SFdiv prec emax x (S754_finite sy my ey) = S754_nan <-> x = S754_nan.
Proof.
  destruct x as [sx|sx| |sx mx ex]; cbn [SFdiv];
    try (split; intros H; solve [discriminate H | reflexivity]).
  split; [|discriminate]. intros H; exfalso; revert H.
  unfold SFdiv_core_binary.
  set (m' := match _ with Z0 => Zpos mx | Zpos _ => _ | Zneg _ => 0 end).
  assert (Hm' : 0 <= m').
  { subst m'. destruct (_ - _); try lia. apply Z.shiftl_nonneg. lia. }
  pose proof (Z.div_pos m' (Zpos my) Hm' ltac:(lia)) as Q.
  unfold Z.div in Q. destruct (Z.div_eucl m' (Zpos my)) as [q r].
  apply binary_round_aux_not_nan. assumption.
Qed.

(** ** Primitive floats through their specification *)

Lemma ltb_compare x y :
  (x <? y)%float = match SFcompare (Prim2SF x) (Prim2SF y) with Some Lt => true | _ => false end.
Proof. rewrite ltb_spec. reflexivity. Qed.

Lemma leb_compare x y :
  (x <=? y)%float =
  match SFcompare (Prim2SF x) (Prim2SF y) with Some (Lt | Eq) => true | _ => false end.
Proof. rewrite leb_spec. reflexivity. Qed.

Lemma eqb_compare x y :
  (x =? y)%float = match SFcompare (Prim2SF x) (Prim2SF y) with Some Eq => true | _ => false end.
Proof. rewrite eqb_spec. reflexivity. Qed.

Lemma is_nan_false x : is_nan x = false <-> Prim2SF x <> S754_nan.
Proof.
  rewrite <- is_nan_spec. destruct (is_nan x); split; congruence.
Qed.

Lemma clamp_in_band f : in_band (clamp f) = negb (is_nan f).
Proof.
  unfold in_band, clamp.
  change (Py.float_of_int band_min) with 2000%float.
  change (Py.float_of_int band_max) with 4000%float.
  destruct (is_nan f) eqn:N.
  - apply is_nan_spec in N.
    assert (L : (f <? 2000)%float = false).
    { rewrite ltb_compare. replace (SFcompare _ _) with (@None comparison); [reflexivity|].
      symmetry. apply SFcompare_nan. auto. }
    assert (G : (4000 <? f)%float = false).
    { rewrite ltb_compare. replace (SFcompare _ _) with (@None comparison); [reflexivity|].
      symmetry. apply SFcompare_nan. auto. }
    rewrite L, G, leb_compare.
    replace (SFcompare _ _) with (@None comparison); [reflexivity|].
    symmetry. apply SFcompare_nan. auto.
  - apply is_nan_false in N.
    assert (C1 : SFcompare (Prim2SF f) (Prim2SF 2000) <> None).
    { rewrite SFcompare_nan. intros [?|H]; [contradiction|discriminate H]. }
    assert (C2 : SFcompare (Prim2SF f) (Prim2SF 4000) <> None).
    { rewrite SFcompare_nan. intros [?|H]; [contradiction|discriminate H]. }
    destruct (f <? 2000)%float eqn:L; [reflexivity|].
    destruct (4000 <? f)%float eqn:G; [reflexivity|].
    rewrite ltb_compare in L, G. rewrite !leb_compare.
    rewrite (SFcompare_antisym (Prim2SF f) (Prim2SF 4000)) in G.
    rewrite (SFcompare_antisym (Prim2SF f) (Prim2SF 2000)).
    destruct (SFcompare (Prim2SF f) (Prim2SF 2000)) as [[]|];
      destruct (SFcompare (Prim2SF f) (Prim2SF 4000)) as [[]|];
      cbn in *; congruence.
Qed.

Lemma Prim2SF_zero : Prim2SF 0 = S754_zero false.
Proof. reflexivity. Qed.

Lemma finite_eqb_zero x s m e :
  Prim2SF x = S754_finite s m e -> (x =? 0)%float = false.
Proof.
  intros H. rewrite eqb_compare, H, Prim2SF_zero. destruct s; reflexivity.
Qed.

Lemma guard_time_nonzero t : (guard_time t =? 0)%float = false.
Proof.
  unfold guard_time. change (Py.float_of_int t_hop) with 2%float.
  destruct (t <=? 0)%float eqn:L; [reflexivity|].
  rewrite leb_compare in L. rewrite eqb_compare.
  destruct (SFcompare (Prim2SF t) (Prim2SF 0)) as [[]|]; congruence.
Qed.

Lemma add_nan K x y :
  finite_below K (Prim2SF x) -> is_nan (x + y) = is_nan y.
Proof.
  intros H. apply eq_true_iff_eq. rewrite !is_nan_spec, add_spec.
  apply SFadd_nan with (K := K). assumption.
Qed.

Lemma div_nan x y s m e :
  Prim2SF y = S754_finite s m e -> is_nan (x / y) = is_nan x.
Proof.
  intros H. apply eq_true_iff_eq. rewrite !is_nan_spec, div_spec, H.
  apply SFdiv_nan.
Qed.

Lemma mul_finite Kx Ky x y :
  finite_below Kx (Prim2SF x) -> finite_below Ky (Prim2SF y) -> Kx + Ky <= 970 ->
  finite_below (Z.max (Kx + Ky) (-1074) + 1) (Prim2SF (x * y)).
Proof. intros. rewrite mul_spec. apply SFmul_finite; assumption. Qed.

Lemma add_finite K x y :
  finite_below K (Prim2SF x) -> finite_below K (Prim2SF y) -> K <= 968 ->
  finite_below (Z.max (K + 1) (-1074) + 1) (Prim2SF (x + y)).
Proof. intros. rewrite add_spec. apply SFadd_finite; assumption. Qed.

(** The coefficient [k1] of a list entry between 1000 and 3000 converts to a
    float below [2 ^ 5]. *)
Lemma float_of_k1_finite k :
  10 <= k <= 30 -> finite_below 5 (Prim2SF (Py.float_of_int k)).
Proof.
  intros H.
  replace k with (10 + Z.of_nat (Z.to_nat (k - 10))) by lia.
  assert (Hn : (Z.to_nat (k - 10) <= 20)%nat) by lia.
  revert Hn. generalize (Z.to_nat (k - 10)). intros n Hn.
  do 21 (destruct n as [|n]; [vm_compute; discriminate|]).
  lia.
Qed.

Lemma raw_frequency_nan a t e k Ka st mt et :
  finite_below Ka (Prim2SF a) -> Ka <= 900 ->
  Prim2SF t = S754_finite st mt et ->
  10 <= k <= 30 ->
  is_nan (raw_frequency a t e k k2_constant) = is_nan (e * Py.float_of_int k2_constant).
Proof.
  intros Ha HK Ht Hk.
  unfold raw_frequency, formula, Py.truediv.
  rewrite (finite_eqb_zero t st mt et Ht).
  rewrite (add_nan 11) by (vm_compute; discriminate).
  rewrite (div_nan _ t st mt et Ht).
  apply add_nan with (K := Z.max (Ka + 5) (-1074) + 1).
  apply mul_finite; [assumption|apply float_of_k1_finite; assumption|lia].
Qed.

Lemma valid_digits (x : float) s m e :
  Prim2SF x = S754_finite s m e -> Zpos (digits2_pos m) <= 53.
Proof.
  intros H. pose proof (Prim2SF_valid x) as V. rewrite H in V.
  cbn [SpecFloat.valid_binary] in V. unfold bounded, canonical_mantissa in V.
  apply andb_prop in V. destruct V as [V _]. apply Z.eqb_eq in V.
  rewrite fexp_def in V. lia.
Qed.

(** A float between a non-negative bound and a finite positive one is a zero
    or a finite number, of magnitude below that of the upper bound. *)
Lemma leb_range x lo hi mh eh :
  (lo <=? x)%float = true -> (x <=? hi)%float = true ->
  has_sign false (Prim2SF lo) -> Prim2SF hi = S754_finite false mh eh ->
  finite_below (53 + eh) (Prim2SF x).
Proof.
  intros L U Slo Hhi. rewrite leb_compare in L, U. rewrite Hhi in U.
  pose proof (valid_digits x) as V.
  destruct (Prim2SF x) as [s|s| |s m e]; cbn [finite_below].
  - exact I.
  - destruct (Prim2SF lo) as [sl|sl| |sl ml el]; cbn [has_sign] in Slo; try contradiction;
      subst sl; destruct s; cbn in L, U; discriminate.
  - destruct (Prim2SF lo); cbn in L; discriminate.
  - specialize (V s m e eq_refl).
    assert (s = false).
    { destruct s; [|reflexivity].
      destruct (Prim2SF lo) as [sl|sl| |sl ml el]; cbn [has_sign] in Slo; try contradiction;
        subst sl; cbn in L; discriminate. }
    subst s. cbn in U.
    destruct (Z.compare_spec e eh); try discriminate; lia.
Qed.

Lemma leb_range_pos x lo hi ml el mh eh :
  (lo <=? x)%float = true -> (x <=? hi)%float = true ->
  Prim2SF lo = S754_finite false ml el -> Prim2SF hi = S754_finite false mh eh ->
  exists m e, Prim2SF x = S754_finite false m e.
Proof.
  intros L U Hlo Hhi. rewrite leb_compare in L, U. rewrite Hlo in L. rewrite Hhi in U.
  destruct (Prim2SF x) as [s|s| |s m e]; cbn in L, U; try discriminate.
  - destruct s; discriminate.
  - destruct s; [discriminate|]. eauto.
Qed.

Lemma ltb_leb x y : (x <? y)%float = true -> (x <=? y)%float = true.
Proof.
  rewrite ltb_compare, leb_compare.
  destruct (SFcompare (Prim2SF x) (Prim2SF y)) as [[]|]; congruence.
Qed.

(** The sender's amplitude [3.0 + uniform(-0.15, 0.15)] is finite, whatever
    [random.random()] returned in [0, 1). *)
Lemma sender_amplitude_finite r :
  (0 <=? r)%float = true -> (r <? 1)%float = true ->
  finite_below 5 (Prim2SF (sp_amplitude (generate_signal_parameters r))).
Proof.
  intros L U. apply ltb_leb in U.
  assert (R : finite_below 1 (Prim2SF r)).
  { apply (leb_range r 0 1 4503599627370496 (-52)); try assumption; reflexivity. }
  cbn [generate_signal_parameters sp_amplitude]. unfold Py.uniform, nominal_amplitude.
  change (0.15 - -0.15)%float with 0.3%float.
  assert (P : finite_below 1 (Prim2SF (0.3 * r))).
  { apply (finite_below_mono (Z.max (-1 + 1) (-1074) + 1)); [lia|].
    apply mul_finite; [vm_compute; discriminate|assumption|lia]. }
  assert (S : finite_below 3 (Prim2SF (-0.15 + 0.3 * r))).
  { apply (finite_below_mono (Z.max (1 + 1) (-1074) + 1)); [lia|].
    apply add_finite; [vm_compute; discriminate|assumption|lia]. }
  apply (finite_below_mono (Z.max (3 + 1) (-1074) + 1)); [lia|].
  apply add_finite; [vm_compute; discriminate|assumption|lia].
Qed.

(** * The frequency calculator *)

Lemma len_pos {A} (l : list A) : l <> [] -> 0 < Py.len l.
Proof. destruct l; [congruence|]. unfold Py.len. simpl length. lia. Qed.

Lemma mod_some a b : 0 < b -> Py.mod_ a b = Some (a mod b).
Proof. intros H. unfold Py.mod_. destruct (Z.eqb_spec b 0); [lia|reflexivity]. Qed.

Lemma getitem_mod {A} (l : list A) (i : Z) :
  l <> [] -> exists x, In x l /\ Py.getitem l (i mod Py.len l) = Some x.
Proof.
  intros H. pose proof (len_pos l H) as P.
  pose proof (Z.mod_pos_bound i (Py.len l) P) as B.
  unfold Py.getitem.
  destruct (Z.ltb_spec (i mod Py.len l) 0); [lia|].
  destruct (Z.ltb_spec (i mod Py.len l) 0); [lia|].
  destruct (nth_error l (Z.to_nat (i mod Py.len l))) as [x|] eqn:E.
  - exists x. split; [eapply nth_error_In; eassumption|reflexivity].
  - apply nth_error_None in E. unfold Py.len in *. lia.
Qed.

Lemma get_k1_k2_values_some self :
  k1_k2_list self <> [] ->
  exists p, In p (k1_k2_list self) /\
            get_k1_k2_values self = Some (p / k2_constant, k2_constant).
Proof.
  intros H. unfold get_k1_k2_values.
  rewrite mod_some by (apply len_pos; assumption).
  destruct (getitem_mod (k1_k2_list self) (current_k_index self) H) as (p & I & ->).
  eauto.
Qed.

Lemma advance_k_index_some self :
  k1_k2_list self <> [] ->
  advance_k_index self =
  Some (set_current_k_index self ((current_k_index self + 1) mod Py.len (k1_k2_list self))).
Proof.
  intros H. unfold advance_k_index.
  rewrite mod_some by (apply len_pos; assumption). reflexivity.
Qed.

(** An attempt whose raw frequency is a number is accepted at once. *)
Lemma attempt_loop_first n att a t e self k1 k2 :
  get_k1_k2_values self = Some (k1, k2) ->
  is_nan (raw_frequency a t e k1 k2) = false ->
  attempt_loop (S n) att a t e self =
  Some (Some {| frequency := clamp (raw_frequency a t e k1 k2);
                amplitude := a; time_ms := t; energy := e;
                k1 := k1; k2 := k2; k1_k2_product := k1 * k2;
                k_index := current_k_index self;
                is_valid := true; attempts := att + 1 |}, self).
Proof.
  intros G N. cbn [attempt_loop]. rewrite G, clamp_in_band, N. reflexivity.
Qed.

(** What the loop returns in general. *)
Lemma attempt_loop_spec a t e : forall n att self,
  k1_k2_list self <> [] ->
  exists res self',
    attempt_loop n att a t e self = Some (res, self') /\
    same_static self self' /\
    match res with
    | Some r =>
        is_valid r = true /\ in_band (frequency r) = true /\
        att + 1 <= attempts r <= att + Z.of_nat n /\
        k_index r = current_k_index self' /\
        amplitude r = a /\ time_ms r = t /\ energy r = e
    | None => True
    end.
Proof.
  induction n as [|n IH]; intros att self H.
  - exists None, self. cbn. unfold same_static. auto.
  - cbn [attempt_loop].
    destruct (get_k1_k2_values_some self H) as (p & _ & ->).
    destruct (in_band (clamp (raw_frequency a t e (p / k2_constant) k2_constant))) eqn:B.
    + eexists (Some _), self. split; [reflexivity|]. split; [unfold same_static; auto|].
      cbn. repeat split; auto; lia.
    + rewrite advance_k_index_some by assumption.
      set (self1 := set_current_k_index self _).
      destruct (IH (att + 1) self1 H) as (res & self' & E & (S1 & S2 & S3) & R).
      exists res, self'. split; [exact E|]. split; [unfold same_static; auto|].
      destruct res as [r|]; [|exact I].
      destruct R as (V & Bd & A & R). repeat split; try tauto; lia.
Qed.

(** When the raw frequency is NaN under every pair, no attempt is accepted. *)
Lemma attempt_loop_all_nan a t e : forall n att self,
  k1_k2_list self <> [] ->
  (forall p, In p (k1_k2_list self) ->
             is_nan (raw_frequency a t e (p / k2_constant) k2_constant) = true) ->
  exists self', attempt_loop n att a t e self = Some (None, self') /\ same_static self self'.
Proof.
  induction n as [|n IH]; intros att self H N.
  - exists self. cbn. unfold same_static. auto.
  - cbn [attempt_loop].
    destruct (get_k1_k2_values_some self H) as (p & I & ->).
    rewrite clamp_in_band, (N p I). cbn [negb].
    rewrite advance_k_index_some by assumption.
    set (self1 := set_current_k_index self _).
    destruct (IH (att + 1) self1 H N) as (self' & E & (S1 & S2 & S3)).
    exists self'. split; [exact E|]. unfold same_static; auto.
Qed.

Lemma set_current_k_index_same self self' :
  same_static self self' ->
  set_current_k_index self' (current_k_index self) = self.
Proof.
  intros (S1 & S2 & S3). destruct self, self'. cbn in *. subst. reflexivity.
Qed.

Lemma to_nat_len {A} (l : list A) : Z.to_nat (Py.len l - 0) = length l.
Proof. unfold Py.len. lia. Qed.

(** [calculate_frequency] always returns; what it returns in general. *)
Lemma calculate_frequency_spec self a t e :
  exists r self',
    calculate_frequency self a t e = Some (r, self') /\
    same_static self self' /\
    attempts r <= Py.len (k1_k2_list self) /\
    time_ms r = guard_time t /\ amplitude r = a /\ energy r = e /\
    k_index r = current_k_index self' /\
    (is_valid r = true -> in_band (frequency r) = true /\ 1 <= attempts r) /\
    (is_valid r = false ->
       r = fallback a (guard_time t) e (current_k_index self) (Py.len (k1_k2_list self)) /\
       self' = self).
Proof.
  unfold calculate_frequency. rewrite to_nat_len.
  destruct (k1_k2_list self) as [|p0 l0] eqn:L.
  - cbn [length attempt_loop]. eexists _, _. split; [reflexivity|].
    split; [destruct self; cbn; unfold same_static; cbn; auto|].
    cbn. repeat split; auto; try lia; try discriminate.
    destruct self; reflexivity.
  - assert (H : k1_k2_list self <> []) by (rewrite L; discriminate).
    destruct (attempt_loop_spec a (guard_time t) e (length (p0 :: l0)) 0 self H)
      as (res & self' & E & S & R).
    rewrite E. destruct res as [r|].
    + exists r, self'. split; [reflexivity|]. split; [exact S|].
      destruct R as (V & B & A & K & Ra & Rt & Re). unfold Py.len.
      repeat split; auto; try lia. all: congruence.
    + eexists _, _. split; [reflexivity|].
      rewrite (set_current_k_index_same self self' S).
      split; [unfold same_static; auto|].
      cbn. repeat split; auto; try lia; discriminate.
Qed.

Lemma calculate_frequency_first self a t e k1 k2 :
  get_k1_k2_values self = Some (k1, k2) ->
  is_nan (raw_frequency a (guard_time t) e k1 k2) = false ->
  calculate_frequency self a t e =
  Some ({| frequency := clamp (raw_frequency a (guard_time t) e k1 k2);
           amplitude := a; time_ms := guard_time t; energy := e;
           k1 := k1; k2 := k2; k1_k2_product := k1 * k2;
           k_index := current_k_index self;
           is_valid := true; attempts := 1 |}, self).
Proof.
  intros G N. unfold calculate_frequency. rewrite to_nat_len.
  destruct (k1_k2_list self) as [|p0 l0] eqn:L.
  - unfold get_k1_k2_values in G. rewrite L in G. discriminate.
  - cbn [length]. rewrite (attempt_loop_first _ _ _ _ _ _ _ _ G N). reflexivity.
Qed.

Lemma calculate_frequency_all_nan self a t e :
  k1_k2_list self <> [] ->
  (forall p, In p (k1_k2_list self) ->
     is_nan (raw_frequency a (guard_time t) e (p / k2_constant) k2_constant) = true) ->
  calculate_frequency self a t e =
  Some (fallback a (guard_time t) e (current_k_index self) (Py.len (k1_k2_list self)), self).
Proof.
  intros H N. unfold calculate_frequency.
  destruct (attempt_loop_all_nan a (guard_time t) e
              (Z.to_nat (Py.len (k1_k2_list self) - 0)) 0 self H N) as (self' & E & S).
  rewrite E, (set_current_k_index_same self self' S). reflexivity.
Qed.

Lemma coefficient_list_ok_nonempty l : coefficient_list_ok l -> l <> [].
Proof. intros [H _] ->. discriminate H. Qed.

Lemma coefficient_list_ok_k1 l p :
  coefficient_list_ok l -> In p l -> 10 <= p / k2_constant <= 30.
Proof.
  intros [_ F] I. rewrite Forall_forall in F. specialize (F p I).
  unfold k2_constant. split.
  - apply Z.div_le_lower_bound; lia.
  - apply Z.div_le_upper_bound; lia.
Qed.

(** For a finite amplitude and a finite non-zero hop time the call leaves the
    whole state as it was: either the first attempt is accepted or every
    attempt is NaN and the index is restored. *)
Lemma calculate_frequency_keeps_state self a t e st mt et :
  coefficient_list_ok (k1_k2_list self) ->
  finite_below 900 (Prim2SF a) ->
  Prim2SF (guard_time t) = S754_finite st mt et ->
  exists r, calculate_frequency self a t e = Some (r, self) /\
            k_index r = current_k_index self.
Proof.
  intros Hl Ha Ht.
  pose proof (coefficient_list_ok_nonempty _ Hl) as Hne.
  assert (N : forall p, In p (k1_k2_list self) ->
            is_nan (raw_frequency a (guard_time t) e (p / k2_constant) k2_constant) =
            is_nan (e * Py.float_of_int k2_constant)).
  { intros p I. apply raw_frequency_nan with (Ka := 900) (st := st) (mt := mt) (et := et);
      try assumption; try lia.
    apply coefficient_list_ok_k1 with (l := k1_k2_list self); assumption. }
  destruct (is_nan (e * Py.float_of_int k2_constant)) eqn:E.
  - rewrite calculate_frequency_all_nan by assumption. eexists. split; reflexivity.
  - destruct (get_k1_k2_values_some self Hne) as (p & I & G).
    rewrite (calculate_frequency_first self a t e _ _ G) by (rewrite N by assumption; reflexivity).
    eexists. split; reflexivity.
Qed.

Lemma next_hop_some self :
  k1_k2_list self <> [] ->
  next_hop self =
  Some {| sync_key := sync_key self; k1_k2_list := k1_k2_list self;
          current_k_index := (current_k_index self + 1) mod Py.len (k1_k2_list self);
          hop_counter := hop_counter self + 1 |}.
Proof.
  intros H. unfold next_hop. rewrite advance_k_index_some by assumption. reflexivity.
Qed.

(** * The hop state machine and the two drivers *)

Lemma guard_time_finite_pos t m e :
  Prim2SF t = S754_finite false m e -> guard_time t = t.
Proof.
  intros H. unfold guard_time. rewrite leb_compare, H, Prim2SF_zero. reflexivity.
Qed.

(** A signal the validator accepts has a finite amplitude and a finite
    positive hop time. *)
Lemma validate_signal_finite self a t :
  v_is_valid (fst (validate_signal self a t)) = true ->
  finite_below 2 (Prim2SF a) /\
  exists m e, Prim2SF t = S754_finite false m e.
Proof.
  cbn [validate_signal fst v_is_valid]. intros H.
  apply andb_prop in H. destruct H as [Ha Ht].
  apply andb_prop in Ha. destruct Ha as [La Ua].
  apply andb_prop in Ht. destruct Ht as [Lt Ut].
  split.
  - apply (leb_range a _ _ 7430939385161318 (-51) La Ua); [vm_compute|]; reflexivity.
  - apply (leb_range_pos t _ _ 8556839292003942 (-52) 4728779608739021 (-51) Lt Ut);
      reflexivity.
Qed.

Section Drivers.

Variable random : nat -> float.
Variable l : list Z.
Hypothesis l_ok : coefficient_list_ok l.

Lemma len_l : Py.len l = 5.
Proof. destruct l_ok as [H _]. unfold Py.len. rewrite H. reflexivity. Qed.

Lemma l_nonempty : l <> [].
Proof. apply coefficient_list_ok_nonempty. exact l_ok. Qed.

Lemma next_hop_l self c :
  k1_k2_list self = l -> current_k_index self = c mod 5 ->
  exists self', next_hop self = Some self' /\
    k1_k2_list self' = l /\ sync_key self' = sync_key self /\
    current_k_index self' = (c + 1) mod 5 /\
    hop_counter self' = hop_counter self + 1.
Proof.
  intros Hl Hc. rewrite next_hop_some by (rewrite Hl; apply l_nonempty).
  eexists. split; [reflexivity|]. cbn. rewrite Hl, len_l, Hc.
  repeat split; auto. apply Z.add_mod_idemp_l. lia.
Qed.

(** One receiver iteration leaves the state as it found it, whether the
    signal is accepted or rejected. *)
Lemma receive_hop_state i sender_data noise_level self drawn :
  k1_k2_list self = l ->
  exists rec,
    receive_hop random i sender_data noise_level self drawn = Some (rec, self, (2 + drawn)%nat) /\
    original_data rec = sender_data /\
    sync_hop_count (rr_sync_info rec) = hop_counter self /\
    match freq_result rec with
    | Computed fr => k_index fr = current_k_index self /\
                     v_is_valid (validation rec) = true
    | Rejected => v_is_valid (validation rec) = false
    end.
Proof.
  intros Hl. unfold receive_hop.
  set (a := (sr_amplitude sender_data * _)%float).
  set (e := (sr_energy sender_data * _)%float).
  set (t := (sr_time_ms sender_data + _)%float).
  cbn [measure_signal_parameters sp_amplitude sp_time_ms sp_energy sp_generation_method].
  destruct (validate_signal self a t) as [v self0] eqn:V.
  assert (self0 = self) by (unfold validate_signal in V; congruence). subst self0.
  assert (Hv : v = fst (validate_signal self a t)) by (rewrite V; reflexivity).
  destruct (v_is_valid v) eqn:Valid.
  - rewrite Hv in Valid.
    destruct (validate_signal_finite self a t Valid) as (Fa & m & ex & Ft).
    destruct (calculate_frequency_keeps_state self a t e false m ex) as (r & -> & K).
    + rewrite Hl. exact l_ok.
    + apply (finite_below_mono 2); [lia|assumption].
    + rewrite (guard_time_finite_pos t m ex Ft). exact Ft.
    + eexists. split; [reflexivity|]. cbn.
      repeat split; auto.
      * unfold sync_check. destruct (_ && _); reflexivity.
      * rewrite Hv. exact Valid.
  - eexists. split; [reflexivity|]. cbn.
    repeat split; auto.
    unfold sync_check. destruct (_ && _); reflexivity.
Qed.

(** The receiver's loop over any list of sender records: it returns, the
    index advances by one per hop from where it started, and so does the
    hop counter. *)
Lemma receiver_loop_spec noise_level : forall sender_results i self drawn c,
  k1_k2_list self = l -> current_k_index self = c mod 5 ->
  exists results self',
    receiver_loop random sender_results i noise_level self drawn =
      Some (results, self', (2 * length sender_results + drawn)%nat) /\
    length results = length sender_results /\
    k1_k2_list self' = l /\ sync_key self' = sync_key self /\
    current_k_index self' = (c + Z.of_nat (length sender_results)) mod 5 /\
    hop_counter self' = hop_counter self + Z.of_nat (length sender_results) /\
    forall j rec, nth_error results j = Some rec ->
      nth_error sender_results j = Some (original_data rec) /\
      sync_hop_count (rr_sync_info rec) = hop_counter self + Z.of_nat j /\
      match freq_result rec with
      | Computed fr => k_index fr = (c + Z.of_nat j) mod 5
      | Rejected => True
      end.
Proof.
  induction sender_results as [|sd rest IH]; intros i self drawn c Hl Hc.
  - exists [], self. cbn [receiver_loop length]. rewrite Z.add_0_r.
    repeat split; auto; try lia.
    all: destruct j; discriminate.
  - cbn [receiver_loop].
    destruct (receive_hop_state i sd noise_level self drawn Hl) as (rec & -> & O & Sy & F).
    destruct (next_hop_l self c Hl Hc) as (self1 & -> & Hl1 & Hk1 & Hc1 & Hh1).
    destruct (IH (i + 1) self1 (2 + drawn)%nat (c + 1) Hl1 Hc1)
      as (results & self' & -> & Len & Hl' & Hk' & Hc' & Hh' & R).
    exists (rec :: results), self'. cbn [length].
    split; [do 2 f_equal; lia|].
    split; [rewrite Len; reflexivity|].
    split; [assumption|]. split; [congruence|].
    split; [rewrite Hc'; f_equal; lia|].
    split; [rewrite Hh', Hh1; lia|].
    intros [|j] rec' Hn; cbn [nth_error] in *.
    + injection Hn as <-. cbn [Z.of_nat]. rewrite O, Sy, !Z.add_0_r. repeat split; auto; try lia.
      destruct (freq_result rec); [|exact I]. rewrite (proj1 F). exact Hc.
    + destruct (R j rec' Hn) as (R1 & R2 & R3).
      split; [assumption|]. split; [rewrite R2, Hh1; lia|].
      destruct (freq_result rec'); [|exact I]. rewrite R3. f_equal. lia.
Qed.

(** The loop over a list passes through the state in which the loop over a
    prefix ends. *)
Lemma receiver_loop_app noise_level : forall l1 l2 i self drawn,
  receiver_loop random (l1 ++ l2) i noise_level self drawn =
  match receiver_loop random l1 i noise_level self drawn with
  | None => None
  | Some (results1, self1, drawn1) =>
      match receiver_loop random l2 (i + Z.of_nat (length l1)) noise_level self1 drawn1 with
      | None => None
      | Some (results2, self2, drawn2) => Some (results1 ++ results2, self2, drawn2)
      end
  end.
Proof.
  induction l1 as [|sd l1 IH]; intros l2 i self drawn.
  - cbn [app receiver_loop length]. rewrite Z.add_0_r.
    destruct (receiver_loop random l2 i noise_level self drawn) as [[[r s] d]|]; reflexivity.
  - cbn [app receiver_loop length].
    destruct (receive_hop random i sd noise_level self drawn) as [[[rec s] d]|]; [|reflexivity].
    destruct (next_hop s) as [s1|]; [|reflexivity].
    rewrite IH.
    destruct (receiver_loop random l1 (i + 1) noise_level s1 d) as [[[r1 s2] d2]|]; [|reflexivity].
    replace (i + 1 + Z.of_nat (length l1)) with (i + Z.of_nat (S (length l1))) by lia.
    destruct (receiver_loop random l2 _ noise_level s2 d2) as [[[r2 s3] d3]|]; reflexivity.
Qed.

(** So the state [receiver_state_at] names is the one the full replay is in
    when it starts its iteration [i]. *)
Lemma receiver_state_at_in_run noise_level self drawn sender_results i :
  simulate_receiver_operation random self drawn sender_results noise_level =
  match simulate_receiver_operation random self drawn (firstn i sender_results) noise_level with
  | None => None
  | Some (results1, self1, drawn1) =>
      match receiver_loop random (skipn i sender_results)
              (0 + Z.of_nat (length (firstn i sender_results))) noise_level self1 drawn1 with
      | None => None
      | Some (results2, self2, drawn2) => Some (results1 ++ results2, self2, drawn2)
      end
  end.
Proof.
  unfold simulate_receiver_operation.
  rewrite <- receiver_loop_app, firstn_skipn. reflexivity.
Qed.

Hypothesis random_unit : forall n, (0 <=? random n)%float = true /\ (random n <? 1)%float = true.

(** The sender's loop from a state whose index is [c mod 5]. *)
Lemma sender_loop_spec : forall n i self drawn c,
  k1_k2_list self = l -> current_k_index self = c mod 5 ->
  exists results self',
    sender_loop random n i self drawn = Some (results, self', (n + drawn)%nat) /\
    length results = n /\
    k1_k2_list self' = l /\ sync_key self' = sync_key self /\
    current_k_index self' = (c + Z.of_nat n) mod 5 /\
    hop_counter self' = hop_counter self + Z.of_nat n /\
    forall j rec, nth_error results j = Some rec ->
      sr_k_index rec = (c + Z.of_nat j) mod 5 /\
      sync_hop_count (sr_sync_info rec) = hop_counter self + Z.of_nat j.
Proof.
  induction n as [|n IH]; intros i self drawn c Hl Hc.
  - exists [], self. cbn [sender_loop length]. rewrite Z.add_0_r.
    repeat split; auto; try lia.
    all: destruct j; discriminate.
  - cbn [sender_loop].
    destruct (random_unit drawn) as [R0 R1].
    pose proof (sender_amplitude_finite (random drawn) R0 R1) as Fa.
    set (params := generate_signal_parameters (random drawn)) in *.
    destruct (calculate_frequency_keeps_state self (sp_amplitude params)
                (sp_time_ms params) (sp_energy params) false 4503599627370496 (-51))
      as (r & -> & K).
    + rewrite Hl. exact l_ok.
    + apply (finite_below_mono 5); [lia|assumption].
    + reflexivity.
    + destruct (next_hop_l self c Hl Hc) as (self1 & -> & Hl1 & Hk1 & Hc1 & Hh1).
      destruct (IH (i + 1) self1 (S drawn) (c + 1) Hl1 Hc1)
        as (results & self' & -> & Len & Hl' & Hk' & Hc' & Hh' & R).
      eexists (_ :: results), self'. cbn [length].
      split; [do 2 f_equal; lia|].
      split; [rewrite Len; reflexivity|].
      split; [assumption|]. split; [congruence|].
      split; [rewrite Hc'; f_equal; lia|].
      split; [rewrite Hh', Hh1; lia|].
      intros [|j] rec' Hn; cbn [nth_error] in *.
      * injection Hn as <-. cbn. rewrite K, Hc, !Z.add_0_r. split; [reflexivity|].
        unfold sync_check. destruct (_ && _); cbn; lia.
      * destruct (R j rec' Hn) as (R2 & R3).
        split; [rewrite R2; f_equal; lia|rewrite R3, Hh1; lia].
Qed.

End Drivers.

(** ** Exact operations *)

(** A frequency in the band is finite, and its difference with itself is
    [0]. *)
Lemma in_band_sub_self x : in_band x = true -> (x - x)%float = 0%float.
Proof.
  intros H. unfold in_band in H. apply andb_prop in H. destruct H as [L U].
  destruct (leb_range_pos x _ _ 8796093022208000 (-42) 8796093022208000 (-41) L U)
    as (m & e & E); try reflexivity.
  apply Prim2SF_inj. rewrite sub_spec, E. unfold SF64sub. cbn [SFsub].
  rewrite Z.sub_diag. reflexivity.
Qed.

Lemma Prim2SF_one : Prim2SF 1 = S754_finite false 4503599627370496 (-52).
Proof. reflexivity. Qed.

(** With a noise level of zero the noise factor is [1], whatever was drawn. *)
Lemma zero_noise_factor r :
  (0 <=? r)%float = true -> (r <? 1)%float = true ->
  (Py.float_of_int 1 + Py.uniform (- 0) 0 r)%float = 1%float.
Proof.
  intros L U. unfold Py.uniform.
  change (0 - - 0)%float with 0%float. change (Py.float_of_int 1) with 1%float.
  assert (Hz : exists s, Prim2SF (0 * r) = S754_zero s).
  { rewrite mul_spec, Prim2SF_zero.
    rewrite leb_compare, Prim2SF_zero in L. rewrite ltb_compare, Prim2SF_one in U.
    destruct (Prim2SF r) as [s|s| |s m e]; cbn [SFcompare] in L, U; try discriminate.
    - exists s. reflexivity.
    - destruct s; discriminate.
    - destruct s; [discriminate|]. exists false. reflexivity. }
  destruct Hz as [s Hz].
  apply Prim2SF_inj. rewrite !add_spec, Hz. destruct s; vm_compute; reflexivity.
Qed.

(** The float of a positive machine-size integer is not zero. *)
Lemma float_of_int_nonzero n :
  0 < n < 2 ^ 63 -> (Py.float_of_int n =? 0)%float = false.
Proof.
  intros H. unfold Py.float_of_int.
  replace (Z.abs n <? 2 ^ 63) with true by (symmetry; apply Z.ltb_lt; lia).
  destruct (Z.ltb_spec n 0); [lia|].
  assert (E : Uint63.to_Z (Uint63.of_Z n) = n).
  { rewrite Uint63.of_Z_spec. apply Z.mod_small. change Uint63.wB with (2 ^ 63). lia. }
  pose proof (of_uint63_spec (Uint63.of_Z n)) as S. rewrite E in S.
  destruct n as [|p|p]; try lia. cbn [binary_normalize] in S.
  assert (D : Zpos (digits2_pos p) <= 63) by (apply digits2_pos_le; lia).
  destruct (binary_round_finite false p 0 63) as [F _]; try lia.
  pose proof (binary_round_nonzero false p 0 ltac:(lia)) as NZ.
  rewrite <- S in F, NZ.
  destruct (Prim2SF (of_uint63 (Uint63.of_Z (Z.pos p)))) as [s|s| |s m e] eqn:P;
    cbn [finite_below] in F; try contradiction.
  - exfalso. apply (NZ s). reflexivity.
  - apply (finite_eqb_zero _ s m e). exact P.
Qed.

(** * The claims *)

(** C1 (the code departs from it).  The claim: the next coefficient pair is
    tried when the unclamped frequency is outside [2000, 4000], and the pair
    accepted is the first whose unclamped frequency is in the band.  The code
    clamps before it tests, so the current pair is accepted whatever its
    unclamped frequency: with the coefficients of key 12345, amplitude -100,
    time 1 and energy 35 the pair at index 0 gives 4500, the pair at index 1
    gives 3700, and [calculate_frequency] returns 4000 under the pair at
    index 0 on its first attempt. *)
Theorem out_of_band_pair_is_accepted :
  let self := fresh 12345 k1_k2_list_12345 in
  get_k1_k2_values self = Some (10, 100) /\
  raw_frequency (-100) 1 35 10 100 = 4500%float /\
  in_band (raw_frequency (-100) 1 35 10 100) = false /\
  get_k1_k2_values (set_current_k_index self 1) = Some (18, 100) /\
  raw_frequency (-100) 1 35 18 100 = 3700%float /\
  in_band (raw_frequency (-100) 1 35 18 100) = true /\
  calculate_frequency self (-100) 1 35 =
    Some ({| frequency := 4000; amplitude := -100; time_ms := 1; energy := 35;
             k1 := 10; k2 := 100; k1_k2_product := 1000; k_index := 0;
             is_valid := true; attempts := 1 |}, self).
Proof. vm_compute. repeat split. Qed.

(** C2 fails as stated: a NaN amplitude makes every attempt fail the band
    test, so the loop runs five times and the fallback is returned; and with
    an infinite energy the first attempt can be NaN and the second one not,
    which moves the coefficient index (here from 4 to 0). *)
Lemma fallback_reached_by_nan :
  let self := fresh 12345 k1_k2_list_12345 in
  calculate_frequency self nan 2 18 = Some (fallback nan 2 18 0 5, self) /\
  is_valid (fallback nan 2 18 0 5) = false /\
  attempts (fallback nan 2 18 0 5) = 5 /\
  calculate_frequency (set_current_k_index self 4) 1e307 1 neg_infinity =
    Some ({| frequency := 2000; amplitude := 1e307; time_ms := 1;
             energy := neg_infinity;
             k1 := 10; k2 := 100; k1_k2_product := 1000; k_index := 0;
             is_valid := true; attempts := 2 |}, set_current_k_index self 0).
Proof. vm_compute. repeat split. Qed.

(** C2, amended.  The coefficients of the state convert to floats (no
    [OverflowError]).  Whenever the unclamped frequency under the current
    coefficient pair is not NaN, [calculate_frequency] returns on the first
    iteration: one attempt, a valid result holding the clamped frequency, and
    the state, its coefficient index included, exactly as before.  A result
    that is not valid, the fallback, is returned only when that frequency is
    NaN. *)
Theorem first_attempt_is_accepted self a t e k1 k2 :
  coefficients_convertible (k1_k2_list self) ->
  get_k1_k2_values self = Some (k1, k2) ->
  (is_nan (raw_frequency a (guard_time t) e k1 k2) = false ->
   calculate_frequency self a t e =
     Some ({| frequency := clamp (raw_frequency a (guard_time t) e k1 k2);
              amplitude := a; time_ms := guard_time t; energy := e;
              k1 := k1; k2 := k2; k1_k2_product := k1 * k2;
              k_index := current_k_index self;
              is_valid := true; attempts := 1 |}, self)) /\
  (forall r self', calculate_frequency self a t e = Some (r, self') ->
     is_valid r = false ->
     is_nan (raw_frequency a (guard_time t) e k1 k2) = true).
Proof.
  intros _ G. split.
  - apply calculate_frequency_first. exact G.
  - intros r self' E V.
    destruct (is_nan (raw_frequency a (guard_time t) e k1 k2)) eqn:N; [reflexivity|].
    rewrite (calculate_frequency_first self a t e k1 k2 G N) in E.
    injection E as <- _. discriminate V.
Qed.

Lemma first_attempt_is_accepted_witness :
  calculate_frequency (fresh 12345 k1_k2_list_12345) 3 2 18 =
    Some ({| frequency := 2915; amplitude := 3; time_ms := 2; energy := 18;
             k1 := 10; k2 := 100; k1_k2_product := 1000; k_index := 0;
             is_valid := true; attempts := 1 |}, fresh 12345 k1_k2_list_12345).
Proof.
  exact (proj1 (first_attempt_is_accepted (fresh 12345 k1_k2_list_12345) 3 2 18 10 100
                  ltac:(repeat constructor) eq_refl) eq_refl).
Defined.

(** C3.  [calculate_frequency] always returns, and a result whose validity
    flag is true has its frequency in the band: 2000 <= frequency <= 4000. *)
Theorem band_invariant self a t e :
  exists r self',
    calculate_frequency self a t e = Some (r, self') /\
    (is_valid r = true ->
     (2000 <=? frequency r)%float = true /\ (frequency r <=? 4000)%float = true).
Proof.
  destruct (calculate_frequency_spec self a t e)
    as (r & self' & E & _ & _ & _ & _ & _ & _ & V & _).
  exists r, self'. split; [exact E|].
  intros Hv. destruct (V Hv) as [B _]. unfold in_band in B.
  apply andb_prop in B. exact B.
Qed.

(** C4 (the code departs from it).  The claim: when every coefficient pair
    gives an out-of-band unclamped frequency, the fallback (frequency 2000,
    k1 = 10, k2 = 100, not valid) is returned.  With amplitude 1000, time 1
    and energy 0 every pair of key 12345 gives more than 4000, and the code
    returns the clamped 4000 as a valid result of its first attempt.  What
    does hold is in [calculate_frequency_spec]: at most [len] attempts, and
    the state restored whenever the fallback is returned. *)
Theorem no_fallback_when_all_pairs_out_of_band :
  let self := fresh 12345 k1_k2_list_12345 in
  forallb (fun p => (4000 <? raw_frequency 1000 1 0 (p / k2_constant) k2_constant)%float)
          (k1_k2_list self) = true /\
  calculate_frequency self 1000 1 0 =
    Some ({| frequency := 4000; amplitude := 1000; time_ms := 1; energy := 0;
             k1 := 10; k2 := 100; k1_k2_product := 1000; k_index := 0;
             is_valid := true; attempts := 1 |}, self).
Proof. vm_compute. split; reflexivity. Qed.

(** C5.  For a hop time that is zero or negative the hop duration 2 ms is
    used in its place: the formula divides by 2 and raises no
    [ZeroDivisionError], the call returns, and its result is the one for
    [time_ms = 2]. *)
Theorem zero_time_guard self a t e :
  (t <=? 0)%float = true ->
  guard_time t = 2%float /\
  (forall k1 k2,
     formula a (guard_time t) e k1 k2 =
     Some (2000 + (a * Py.float_of_int k1 + e * Py.float_of_int k2) / 2)%float) /\
  calculate_frequency self a t e = calculate_frequency self a 2 e /\
  exists r self', calculate_frequency self a t e = Some (r, self') /\ time_ms r = 2%float.
Proof.
  intros H.
  assert (G : guard_time t = 2%float) by (unfold guard_time; rewrite H; reflexivity).
  split; [exact G|]. split; [|split].
  - intros k1 k2. rewrite G. reflexivity.
  - unfold calculate_frequency. rewrite G. reflexivity.
  - destruct (calculate_frequency_spec self a t e)
      as (r & self' & E & _ & _ & T & _).
    exists r, self'. split; [exact E|]. rewrite T. exact G.
Qed.

Lemma zero_time_guard_witness :
  guard_time 0 = 2%float /\
  (forall k1 k2,
     formula 3 (guard_time 0) 18 k1 k2 =
     Some (2000 + (3 * Py.float_of_int k1 + 18 * Py.float_of_int k2) / 2)%float) /\
  calculate_frequency (fresh 12345 k1_k2_list_12345) 3 0 18 =
    calculate_frequency (fresh 12345 k1_k2_list_12345) 3 2 18 /\
  exists r self', calculate_frequency (fresh 12345 k1_k2_list_12345) 3 0 18 = Some (r, self') /\
                  time_ms r = 2%float.
Proof. exact (zero_time_guard (fresh 12345 k1_k2_list_12345) 3 0 18 eq_refl). Defined.

(** The division of the formula raises for no hop time at all: after the
    guard the divisor is never zero. *)
Lemma formula_never_raises a t e k1 k2 :
  formula a (guard_time t) e k1 k2 =
  Some (2000 + (a * Py.float_of_int k1 + e * Py.float_of_int k2) / guard_time t)%float.
Proof.
  unfold formula, Py.truediv. rewrite guard_time_nonzero. reflexivity.
Qed.

Lemma ltb_not_leb x y : (x <? y)%float = true -> (y <=? x)%float = false.
Proof.
  rewrite ltb_compare, leb_compare, (SFcompare_antisym (Prim2SF x) (Prim2SF y)).
  destruct (SFcompare (Prim2SF x) (Prim2SF y)) as [[]|]; cbn [option_map CompOpp]; congruence.
Qed.

(** C6.  [validate_signal] marks the amplitude valid exactly when
    3.0 - 0.3 <= amplitude <= 3.0 + 0.3 and the time valid exactly when
    2 - 0.1 <= time_ms <= 2 + 0.1; the combined flag is their conjunction; the
    four bounds themselves are valid and any value beyond one of them is not;
    and the state is returned as it was given. *)
Theorem validate_signal_windows self a t :
  let (v, self') := validate_signal self a t in
  self' = self /\
  (is_valid_amplitude v = true <->
   (3.0 - 0.3 <=? a)%float = true /\ (a <=? 3.0 + 0.3)%float = true) /\
  (is_valid_time v = true <->
   (2 - 0.1 <=? t)%float = true /\ (t <=? 2 + 0.1)%float = true) /\
  v_is_valid v = is_valid_amplitude v && is_valid_time v /\
  is_valid_amplitude (fst (validate_signal self (3.0 - 0.3) t)) = true /\
  is_valid_amplitude (fst (validate_signal self (3.0 + 0.3) t)) = true /\
  is_valid_time (fst (validate_signal self a (2 - 0.1))) = true /\
  is_valid_time (fst (validate_signal self a (2 + 0.1))) = true /\
  ((3.0 + 0.3 <? a)%float = true -> is_valid_amplitude v = false) /\
  ((a <? 3.0 - 0.3)%float = true -> is_valid_amplitude v = false) /\
  ((2 + 0.1 <? t)%float = true -> is_valid_time v = false) /\
  ((t <? 2 - 0.1)%float = true -> is_valid_time v = false).
Proof.
  cbn [validate_signal fst v_is_valid is_valid_amplitude is_valid_time].
  unfold nominal_amplitude, amplitude_tolerance, time_tolerance.
  change (Py.float_of_int t_hop) with 2%float.
  split; [reflexivity|].
  split; [apply andb_true_iff|].
  split; [apply andb_true_iff|].
  split; [reflexivity|].
  do 4 (split; [reflexivity|]).
  repeat split; intros H.
  - rewrite (ltb_not_leb _ _ H). apply andb_false_r.
  - rewrite (ltb_not_leb _ _ H). reflexivity.
  - rewrite (ltb_not_leb _ _ H). apply andb_false_r.
  - rewrite (ltb_not_leb _ _ H). reflexivity.
Qed.

(** C7.  Hop-state alignment.  The sender runs [hop_count] hops from a
    freshly constructed state, with the values [random.random()] draws in
    [0, 1); a receiver holding the same coefficient list replays the records
    after its reset to (0, 0), at any noise level.  Both runs return, and at
    every hop [i] the state in which the receiver starts the hop has the
    coefficient index the sender recorded for its hop [i] and the hop counter
    [i], whether the receiver accepts the hop or rejects it; when it accepts,
    the index its frequency result records is the sender's too. *)
Theorem hop_state_alignment (random : nat -> float) (key : Z) (l : list Z)
    (hop_count : Z) (noise_level : float) (rself : SecureFHSSAlgorithm) (drawn : nat) :
  coefficient_list_ok l ->
  (forall n, (0 <=? random n)%float = true /\ (random n <? 1)%float = true) ->
  k1_k2_list rself = l ->
  exists sender_results sself sdrawn receiver_results rself' rdrawn,
    simulate_sender_operation random (fresh key l) drawn hop_count =
      Some (sender_results, sself, sdrawn) /\
    simulate_receiver_operation random rself sdrawn sender_results noise_level =
      Some (receiver_results, rself', rdrawn) /\
    length sender_results = Z.to_nat hop_count /\
    length receiver_results = length sender_results /\
    forall i srec rrec,
      nth_error sender_results i = Some srec ->
      nth_error receiver_results i = Some rrec ->
      original_data rrec = srec /\
      (exists s,
         receiver_state_at random rself sdrawn sender_results noise_level i = Some s /\
         current_k_index s = sr_k_index srec /\
         hop_counter s = Z.of_nat i) /\
      match freq_result rrec with
      | Computed fr => k_index fr = sr_k_index srec
      | Rejected => True
      end.
Proof.
  intros Hl Hr Hrl.
  destruct (sender_loop_spec random l Hl Hr (Z.to_nat hop_count) 0 (fresh key l) drawn 0
              eq_refl eq_refl)
    as (sres & sself & Es & Ls & _ & _ & _ & _ & Rs).
  set (reset := set_hop_counter (set_current_k_index rself 0) 0).
  assert (Hreset : k1_k2_list reset = l) by exact Hrl.
  destruct (receiver_loop_spec random l Hl noise_level sres 0 reset
              (Z.to_nat hop_count + drawn)%nat 0 Hreset eq_refl)
    as (rres & rself' & Er & Lr & _ & _ & _ & _ & Rr).
  exists sres, sself, (Z.to_nat hop_count + drawn)%nat, rres, rself',
         (2 * length sres + (Z.to_nat hop_count + drawn))%nat.
  split; [exact Es|]. split; [exact Er|]. split; [exact Ls|]. split; [exact Lr|].
  intros i srec rrec Hs Hrr.
  destruct (Rs i srec Hs) as [Ks _].
  destruct (Rr i rrec Hrr) as (O & _ & Kr).
  assert (srec = original_data rrec) by congruence. subst srec.
  split; [reflexivity|]. split.
  - unfold receiver_state_at, simulate_receiver_operation. fold reset.
    destruct (receiver_loop_spec random l Hl noise_level (firstn i sres) 0 reset
                (Z.to_nat hop_count + drawn)%nat 0 Hreset eq_refl)
      as (pres & pself & -> & _ & _ & _ & Kp & Hp & _).
    exists pself. split; [reflexivity|].
    assert (Li : length (firstn i sres) = i).
    { apply firstn_length_le. apply Nat.lt_le_incl. apply nth_error_Some. congruence. }
    rewrite Li in Kp, Hp. split; [congruence|exact Hp].
  - destruct (freq_result rrec); [congruence|exact I].
Qed.

Lemma hop_state_alignment_witness :
  exists sender_results sself sdrawn receiver_results rself' rdrawn,
    simulate_sender_operation half_stream (fresh 12345 k1_k2_list_12345) 0 3 =
      Some (sender_results, sself, sdrawn) /\
    simulate_receiver_operation half_stream (fresh 12345 k1_k2_list_12345) sdrawn
        sender_results 0.0099 =
      Some (receiver_results, rself', rdrawn) /\
    length sender_results = Z.to_nat 3 /\
    length receiver_results = length sender_results /\
    forall i srec rrec,
      nth_error sender_results i = Some srec ->
      nth_error receiver_results i = Some rrec ->
      original_data rrec = srec /\
      (exists s,
         receiver_state_at half_stream (fresh 12345 k1_k2_list_12345) sdrawn
           sender_results 0.0099 i = Some s /\
         current_k_index s = sr_k_index srec /\
         hop_counter s = Z.of_nat i) /\
      match freq_result rrec with
      | Computed fr => k_index fr = sr_k_index srec
      | Rejected => True
      end.
Proof.
  apply (hop_state_alignment half_stream 12345 k1_k2_list_12345 3 0.0099
           (fresh 12345 k1_k2_list_12345) 0).
  - split; [reflexivity|repeat constructor; lia].
  - intros n. split; reflexivity.
  - reflexivity.
Defined.

(** C8 fails as stated: the receiver adds [uniform(-0.05, 0.05)] to the time
    whatever the noise level is.  With key 12345, the sender's draw 0.5
    (amplitude 3.0, energy 18.0, frequency 2915) and the receiver's draws
    0.25 and 0 at noise_level = 0, the receiver measures 1.95 ms, its
    frequency differs from the sender's and frequency_difference is above 23
    (the hop still matches, the difference being under 40). *)
Lemma lock_step_time_jitter :
  exists srec sself rrec rself,
    simulate_sender_operation jitter_stream (fresh 12345 k1_k2_list_12345) 0 1 =
      Some ([srec], sself, 1%nat) /\
    sr_amplitude srec = 3.0%float /\ sr_time_ms srec = 2%float /\
    sr_energy srec = 18.0%float /\ sr_k_index srec = 0 /\
    sr_frequency srec = 2915%float /\
    simulate_receiver_operation jitter_stream sself 1 [srec] 0 =
      Some ([rrec], rself, 3%nat) /\
    rr_amplitude rrec = 3.0%float /\ rr_energy rrec = 18.0%float /\
    rr_time_ms rrec = 1.95%float /\
    (rf_frequency (freq_result rrec) =? sr_frequency srec)%float = false /\
    (frequency_difference rrec =? 0)%float = false /\
    (23 <? frequency_difference rrec)%float = true /\
    is_match rrec = true.
Proof.
  do 4 eexists. split; [lazy; reflexivity|].
  do 5 (split; [reflexivity|]).
  split; [lazy; reflexivity|].
  repeat split.
Qed.

(** What does hold in lock step, the match for every time jitter, rests on
    bounds through the receiver's division; it is stated and proved in the
    last part, with the other bounds on the simulated values. *)

(** ** Statistics *)

Section StatisticsFacts.

Variable log10 : float -> float.

Lemma truediv_len (x : float) (n : Z) :
  0 < n <= maxsize -> Py.truediv x (Py.float_of_int n) = Some (x / Py.float_of_int n)%float.
Proof.
  intros H. unfold Py.truediv. rewrite float_of_int_nonzero; [reflexivity|].
  unfold maxsize in H. lia.
Qed.

Lemma filter_len_le {A} (f : A -> bool) (l : list A) : Py.len (filter f l) <= Py.len l.
Proof. unfold Py.len. pose proof (filter_length_le f l). lia. Qed.

(** [calculate_statistics] returns: no division raises. *)
Lemma calculate_statistics_total sender_results receiver_results :
  Py.len (filter sr_is_valid sender_results) <= maxsize ->
  exists st, calculate_statistics log10 sender_results receiver_results = Some st.
Proof.
  intros H. unfold calculate_statistics.
  set (sf := map sr_frequency (filter sr_is_valid sender_results)).
  assert (Hsf : Py.len sf <= maxsize).
  { subst sf. unfold Py.len in *. rewrite length_map. exact H. }
  set (vr := filter (fun r => v_is_valid (validation r)) receiver_results).
  assert (S1 : exists a b c d,
    if_nonempty sf (Py.truediv (Py.sum sf) (Py.float_of_int (Py.len sf))) = Some a /\
    if_nonempty sf (Py.min sf) = Some b /\ if_nonempty sf (Py.max sf) = Some c /\
    if_nonempty sf (sub_opt (Py.max sf) (Py.min sf)) = Some d).
  { destruct sf as [|x t] eqn:E.
    - cbn [if_nonempty]. eauto 10.
    - cbn [if_nonempty Py.min Py.max sub_opt].
      rewrite truediv_len by (unfold Py.len in *; cbn [length] in *; lia).
      eauto 10. }
  assert (S2 : forall m, exists a,
    if_nonempty receiver_results
      (mul100_opt (Py.int_truediv m (Py.len receiver_results))) = Some a).
  { intros m. destruct receiver_results as [|x t].
    - cbn [if_nonempty]. eauto.
    - cbn [if_nonempty]. unfold Py.int_truediv.
      destruct (Z.eqb_spec (Py.len (x :: t)) 0) as [Q|Q];
        [unfold Py.len in Q; cbn [length] in Q; lia|].
      cbn [mul100_opt]. eauto. }
  destruct S1 as (a & b & c & d & -> & -> & -> & ->).
  destruct (S2 (Py.len (filter is_match vr))) as [s1 ->].
  destruct (S2 (Py.len vr)) as [s2 ->].
  eauto.
Qed.

(** What a returned aggregate holds. *)
Lemma calculate_statistics_fields sender_results receiver_results st :
  calculate_statistics log10 sender_results receiver_results = Some st ->
  (filter sr_is_valid sender_results = [] ->
   avg_frequency (sender st) = 0%float /\ min_frequency (sender st) = 0%float /\
   max_frequency (sender st) = 0%float /\ frequency_range (sender st) = 0%float) /\
  total_receptions (receiver st) = Py.len receiver_results /\
  successful_matches (receiver st) =
    Py.len (filter is_match
              (filter (fun r => v_is_valid (validation r)) receiver_results)) /\
  success_rate (receiver st) =
    (if total_receptions (receiver st) =? 0 then 0%float
     else (Py.float_of_int (successful_matches (receiver st)) /
           Py.float_of_int (total_receptions (receiver st)) * 100)%float) /\
  noise_percentage (receiver st) = 0.99%float /\
  estimated_snr_db (receiver st) = (10 * log10 (1 / (0.99 / 100)))%float.
Proof.
  unfold calculate_statistics.
  set (sf := map sr_frequency (filter sr_is_valid sender_results)).
  set (vr := filter (fun r => v_is_valid (validation r)) receiver_results).
  destruct (if_nonempty sf (Py.truediv _ _)) as [a|] eqn:E1; [|discriminate].
  destruct (if_nonempty sf (Py.min sf)) as [b|] eqn:E2; [|discriminate].
  destruct (if_nonempty sf (Py.max sf)) as [c|] eqn:E3; [|discriminate].
  destruct (if_nonempty sf (sub_opt _ _)) as [d|] eqn:E4; [|discriminate].
  destruct (if_nonempty receiver_results (mul100_opt (Py.int_truediv (Py.len (filter is_match vr)) _)))
    as [s1|] eqn:E5; [|discriminate].
  destruct (if_nonempty receiver_results (mul100_opt (Py.int_truediv (Py.len vr) _)))
    as [s2|] eqn:E6; [|discriminate].
  intros H. injection H as <-.
  cbn [sender receiver avg_frequency min_frequency max_frequency frequency_range
       total_receptions successful_matches success_rate noise_percentage estimated_snr_db].
  split; [|split; [reflexivity|split; [reflexivity|split; [|split; reflexivity]]]].
  - intros Hv. subst sf. rewrite Hv in *. cbn [map if_nonempty] in *.
    change (Py.float_of_int 0) with 0%float in *.
    repeat split; congruence.
  - destruct receiver_results as [|x t].
    + cbn [if_nonempty] in E5. injection E5 as <-. reflexivity.
    + cbn [if_nonempty] in E5. unfold Py.int_truediv in E5.
      destruct (Z.eqb_spec (Py.len (x :: t)) 0) as [Q|Q];
        [unfold Py.len in Q; cbn [length] in Q; lia|].
      cbn [mul100_opt] in E5. injection E5 as <-. reflexivity.
Qed.

End StatisticsFacts.

(** C9.  [calculate_statistics] on degenerate inputs.  With no valid sender
    hop it returns, whatever the receiver records are, and the average,
    minimum, maximum and range of the frequency are all 0.  It returns for
    every pair of lists a Python process can hold.  And in what it returns,
    with R the total of receiver hops and M the count of successful matches
    (valid receptions that match), success_rate is 0 when R = 0 and
    M / R * 100 otherwise. *)
Theorem statistics_degenerate_inputs (log10 : float -> float)
    (sender_results : list SenderRecord) (receiver_results : list ReceiverRecord) :
  (filter sr_is_valid sender_results = [] ->
   exists st,
     calculate_statistics log10 sender_results receiver_results = Some st /\
     avg_frequency (sender st) = 0%float /\ min_frequency (sender st) = 0%float /\
     max_frequency (sender st) = 0%float /\ frequency_range (sender st) = 0%float) /\
  (Py.len sender_results <= maxsize ->
   exists st, calculate_statistics log10 sender_results receiver_results = Some st) /\
  (forall st,
     calculate_statistics log10 sender_results receiver_results = Some st ->
     total_receptions (receiver st) = Py.len receiver_results /\
     successful_matches (receiver st) =
       Py.len (filter is_match
                 (filter (fun r => v_is_valid (validation r)) receiver_results)) /\
     success_rate (receiver st) =
       (if total_receptions (receiver st) =? 0 then 0%float
        else (Py.float_of_int (successful_matches (receiver st)) /
              Py.float_of_int (total_receptions (receiver st)) * 100)%float)).
Proof.
  split; [|split].
  - intros Hv.
    destruct (calculate_statistics_total log10 sender_results receiver_results) as [st E].
    { rewrite Hv. vm_compute. discriminate. }
    exists st. split; [exact E|].
    destruct (calculate_statistics_fields log10 _ _ st E) as (Z0 & _).
    exact (Z0 Hv).
  - intros H. apply calculate_statistics_total.
    pose proof (filter_len_le sr_is_valid sender_results). lia.
  - intros st E.
    destruct (calculate_statistics_fields log10 _ _ st E) as (_ & T & M & S & _).
    auto.
Qed.

(** C10.  Whatever noise level the receiver simulation is run with, the
    statistics computed from its records report noise_percentage = 0.99 and
    the SNR estimate 10 * log10(1 / (0.99 / 100)) derived from that figure. *)
Theorem noise_statistics_are_fixed (log10 : float -> float) (random : nat -> float)
    (self : SecureFHSSAlgorithm) (drawn : nat)
    (sender_results : list SenderRecord) (noise_level : float) :
  coefficient_list_ok (k1_k2_list self) ->
  Py.len sender_results <= maxsize ->
  exists receiver_results self' drawn' st,
    simulate_receiver_operation random self drawn sender_results noise_level =
      Some (receiver_results, self', drawn') /\
    calculate_statistics log10 sender_results receiver_results = Some st /\
    noise_percentage (receiver st) = 0.99%float /\
    estimated_snr_db (receiver st) = (10 * log10 (1 / (0.99 / 100)))%float.
Proof.
  intros Hl Hs.
  destruct (receiver_loop_spec random (k1_k2_list self) Hl noise_level sender_results 0
              (set_hop_counter (set_current_k_index self 0) 0) drawn 0 eq_refl eq_refl)
    as (rres & self' & Er & _).
  destruct (calculate_statistics_total log10 sender_results rres) as [st E].
  { pose proof (filter_len_le sr_is_valid sender_results). lia. }
  exists rres, self', (2 * length sender_results + drawn)%nat, st.
  split; [exact Er|]. split; [exact E|].
  destruct (calculate_statistics_fields log10 _ _ st E) as (_ & _ & _ & _ & N & S).
  auto.
Qed.

Lemma noise_statistics_are_fixed_witness :
  exists receiver_results self' drawn' st,
    simulate_receiver_operation jitter_stream (fresh 12345 k1_k2_list_12345) 1
        [nominal_record; nominal_record] 0.5 =
      Some (receiver_results, self', drawn') /\
    calculate_statistics (fun x => x) [nominal_record; nominal_record] receiver_results =
      Some st /\
    noise_percentage (receiver st) = 0.99%float /\
    estimated_snr_db (receiver st) = (10 * (1 / (0.99 / 100)))%float.
Proof.
  apply (noise_statistics_are_fixed (fun x => x) jitter_stream
           (fresh 12345 k1_k2_list_12345) 1 [nominal_record; nominal_record] 0.5).
  - split; [reflexivity|repeat constructor; lia].
  - vm_compute. discriminate.
Defined.

(** * Further properties of the code *)

(** * Further properties of the frequency calculator *)

(** ** NaN through the operations *)

Lemma mul_nan_l x y : is_nan x = true -> is_nan (x * y) = true.
Proof.
  rewrite !is_nan_spec, mul_spec. intros ->. reflexivity.
Qed.

Lemma add_nan_l x y : is_nan x = true -> is_nan (x + y) = true.
Proof.
  rewrite !is_nan_spec, add_spec. intros ->. reflexivity.
Qed.

Lemma add_nan_r x y : is_nan y = true -> is_nan (x + y) = true.
Proof.
  rewrite !is_nan_spec, add_spec. intros ->. destruct (Prim2SF x); reflexivity.
Qed.

Lemma div_nan_l x y : is_nan x = true -> is_nan (x / y) = true.
Proof.
  rewrite !is_nan_spec, div_spec. intros ->. reflexivity.
Qed.

Lemma div_nan_r x y : is_nan y = true -> is_nan (x / y) = true.
Proof.
  rewrite !is_nan_spec, div_spec. intros ->. destruct (Prim2SF x); reflexivity.
Qed.

Lemma nan_eqb_zero x : is_nan x = true -> (x =? 0)%float = false.
Proof.
  rewrite is_nan_spec, eqb_compare. intros ->. reflexivity.
Qed.

Lemma guard_time_nan t : is_nan t = true -> guard_time t = t.
Proof.
  rewrite is_nan_spec. intros H. unfold guard_time. rewrite leb_compare, H. reflexivity.
Qed.

(** A NaN among the three inputs makes the formula NaN under every pair. *)
Lemma raw_frequency_nan_input a t e k1 k2 :
  is_nan a || is_nan t || is_nan e = true ->
  is_nan (raw_frequency a (guard_time t) e k1 k2) = true.
Proof.
  intros H. unfold raw_frequency, formula, Py.truediv.
  rewrite guard_time_nonzero.
  apply add_nan_r.
  apply orb_true_iff in H. destruct H as [H|He].
  - apply orb_true_iff in H. destruct H as [Ha|Ht].
    + apply div_nan_l, add_nan_l, mul_nan_l. exact Ha.
    + apply div_nan_r. rewrite (guard_time_nan t Ht). exact Ht.
  - apply div_nan_l, add_nan_r, mul_nan_l. exact He.
Qed.

(** ** Finite inputs *)

Lemma SFmul_nan_finite x sy my ey :
  SFmul prec emax x (S754_finite sy my ey) = S754_nan <-> x = S754_nan.
Proof.
  destruct x as [sx|sx| |sx mx ex]; cbn [SFmul];
    try (split; intros H; solve [discriminate H | reflexivity]).
  split; [|discriminate]. intros H. exfalso. revert H.
  apply binary_round_aux_not_nan. lia.
Qed.

Lemma mul_nan_finite x y sy my ey :
  Prim2SF y = S754_finite sy my ey -> is_nan (x * y) = is_nan x.
Proof.
  intros H. apply eq_true_iff_eq. rewrite !is_nan_spec, mul_spec, H.
  apply SFmul_nan_finite.
Qed.

Lemma Prim2SF_infinity : Prim2SF infinity = S754_infinity false.
Proof. reflexivity. Qed.

(** [is_finite]: a zero or a finite number. *)
Lemma is_finite_spec x :
  is_finite x = true ->
  (exists s, Prim2SF x = S754_zero s) \/ (exists s m e, Prim2SF x = S754_finite s m e).
Proof.
  unfold is_finite, is_infinity. intros H. apply negb_true_iff in H.
  apply orb_false_iff in H. destruct H as [N I].
  apply is_nan_false in N.
  rewrite eqb_compare, abs_spec, Prim2SF_infinity in I.
  destruct (Prim2SF x) as [s|s| |s m e]; eauto.
  - cbn in I. discriminate.
  - contradiction.
Qed.

(** After the guard, a finite hop time is a finite number other than zero. *)
Lemma guard_time_finite t :
  is_finite t = true -> exists s m e, Prim2SF (guard_time t) = S754_finite s m e.
Proof.
  intros H. unfold guard_time. change (Py.float_of_int t_hop) with 2%float.
  destruct (t <=? 0)%float eqn:L.
  - exists false, 4503599627370496%positive, (-51). reflexivity.
  - destruct (is_finite_spec t H) as [[s E]|(s & m & e & E)].
    + rewrite leb_compare, E, Prim2SF_zero in L. discriminate.
    + eauto.
Qed.

(** A bound on the magnitude gives a finite number. *)
Lemma abs_leb_finite_below x hi mh eh :
  (abs x <=? hi)%float = true -> Prim2SF hi = S754_finite false mh eh ->
  finite_below (53 + eh) (Prim2SF x).
Proof.
  intros L Hhi. rewrite leb_compare, abs_spec, Hhi in L.
  pose proof (valid_digits x) as V.
  destruct (Prim2SF x) as [s|s| |s m e]; cbn [finite_below SFabs] in *.
  - exact I.
  - cbn in L. discriminate.
  - discriminate.
  - specialize (V s m e eq_refl). cbn [SFcompare] in L.
    destruct (Z.compare_spec e eh); try discriminate; lia.
Qed.

Lemma Prim2SF_1e270 : Prim2SF 1e270 = S754_finite false 8524789415648860 844.
Proof. reflexivity. Qed.

(** ** What [clamp] returns *)

Lemma leb_not_ltb x y : (x <=? y)%float = true -> (y <? x)%float = false.
Proof.
  rewrite ltb_compare, leb_compare, (SFcompare_antisym (Prim2SF x) (Prim2SF y)).
  destruct (SFcompare (Prim2SF x) (Prim2SF y)) as [[]|]; cbn [option_map CompOpp]; congruence.
Qed.

Lemma clamp_id f : in_band f = true -> clamp f = f.
Proof.
  unfold in_band, clamp. intros H. apply andb_prop in H. destruct H as [L U].
  rewrite (leb_not_ltb _ _ L), (leb_not_ltb _ _ U). reflexivity.
Qed.

Lemma Prim2SF_2000 : Prim2SF 2000 = S754_finite false 8796093022208000 (-42).
Proof. reflexivity. Qed.

Lemma Prim2SF_4000 : Prim2SF 4000 = S754_finite false 8796093022208000 (-41).
Proof. reflexivity. Qed.

Lemma above_band_not_below f : (4000 <? f)%float = true -> (f <? 2000)%float = false.
Proof.
  rewrite !ltb_compare, Prim2SF_2000, Prim2SF_4000.
  destruct (Prim2SF f) as [s|s| |s m e]; cbn [SFcompare]; try discriminate.
  - destruct s; [discriminate|reflexivity].
  - destruct s; [discriminate|].
    destruct (Z.compare_spec (-41) e); try discriminate; intros _;
      destruct (Z.compare_spec e (-42)); try reflexivity; lia.
Qed.

Lemma clamp_above f : (4000 <? f)%float = true -> clamp f = 4000%float.
Proof.
  intros H. unfold clamp.
  change (Py.float_of_int band_min) with 2000%float.
  change (Py.float_of_int band_max) with 4000%float.
  rewrite (above_band_not_below f H), H. reflexivity.
Qed.

Lemma clamp_below f : (f <? 2000)%float = true -> clamp f = 2000%float.
Proof.
  intros H. unfold clamp. change (Py.float_of_int band_min) with 2000%float.
  rewrite H. reflexivity.
Qed.

(** ** The properties *)

(** X1.  [calculate_frequency] returns for every input and every state
    whose coefficients convert to floats, also for an empty coefficient
    list; it never touches the key, the list or the hop counter; it makes at most [len(k1_k2_list)] attempts; its result carries
    the amplitude and energy it was given and the guarded time; and a result
    that is not valid is the fallback (2000 MHz, k1 = 10, k2 = 100, all
    attempts used) returned with the state exactly as before the call. *)
Theorem retry_bound_and_restore self a t e :
  coefficients_convertible (k1_k2_list self) ->
  exists r self',
    calculate_frequency self a t e = Some (r, self') /\
    sync_key self' = sync_key self /\
    k1_k2_list self' = k1_k2_list self /\
    hop_counter self' = hop_counter self /\
    0 <= attempts r <= Py.len (k1_k2_list self) /\
    amplitude r = a /\ energy r = e /\ time_ms r = guard_time t /\
    k_index r = current_k_index self' /\
    (is_valid r = false ->
     self' = self /\ attempts r = Py.len (k1_k2_list self) /\
     frequency r = 2000%float /\ k1 r = 10 /\ k2 r = 100).
Proof.
  intros _.
  destruct (calculate_frequency_spec self a t e)
    as (r & self' & E & (S1 & S2 & S3) & A & T & Ra & Re & K & V & F).
  exists r, self'. repeat (split; [assumption|]).
  split; [|split; [assumption|split; [assumption|split; [assumption|split; [assumption|]]]]].
  - split; [|assumption].
    destruct (is_valid r) eqn:Hv.
    + destruct (V eq_refl). lia.
    + destruct (F eq_refl) as [-> _]. cbn [attempts fallback]. unfold Py.len. lia.
  - intros Hv. destruct (F Hv) as [-> ->]. cbn [attempts fallback frequency k1 k2].
    repeat split.
Qed.

Lemma retry_bound_and_restore_witness :
  exists r self',
    calculate_frequency (fresh 12345 k1_k2_list_12345) nan 2 18 = Some (r, self') /\
    sync_key self' = sync_key (fresh 12345 k1_k2_list_12345) /\
    k1_k2_list self' = k1_k2_list (fresh 12345 k1_k2_list_12345) /\
    hop_counter self' = hop_counter (fresh 12345 k1_k2_list_12345) /\
    0 <= attempts r <= Py.len (k1_k2_list (fresh 12345 k1_k2_list_12345)) /\
    amplitude r = nan /\ energy r = 18%float /\ time_ms r = guard_time 2 /\
    k_index r = current_k_index self' /\
    (is_valid r = false ->
     self' = fresh 12345 k1_k2_list_12345 /\
     attempts r = Py.len (k1_k2_list (fresh 12345 k1_k2_list_12345)) /\
     frequency r = 2000%float /\ k1 r = 10 /\ k2 r = 100).
Proof.
  apply (retry_bound_and_restore (fresh 12345 k1_k2_list_12345) nan 2 18).
  repeat constructor.
Defined.

(** X2.  A NaN amplitude, time or energy gives the fallback, in every state
    with a non-empty list of coefficients that convert to floats: every
    attempt is made, none is accepted, and the state is returned unchanged. *)
Theorem nan_input_gives_fallback self a t e :
  coefficients_convertible (k1_k2_list self) ->
  k1_k2_list self <> [] ->
  is_nan a || is_nan t || is_nan e = true ->
  calculate_frequency self a t e =
    Some (fallback a (guard_time t) e (current_k_index self) (Py.len (k1_k2_list self)),
          self).
Proof.
  intros _ Hne H. apply calculate_frequency_all_nan; [assumption|].
  intros p _. apply raw_frequency_nan_input. exact H.
Qed.

Lemma nan_input_gives_fallback_witness :
  calculate_frequency (fresh 12345 k1_k2_list_12345) 3 nan 18 =
    Some (fallback 3 nan 18 0 5, fresh 12345 k1_k2_list_12345).
Proof.
  exact (nan_input_gives_fallback (fresh 12345 k1_k2_list_12345) 3 nan 18
           ltac:(repeat constructor) ltac:(discriminate) eq_refl).
Defined.

(** X3.  With the coefficient list of [__init__], an amplitude of magnitude
    at most 1e270, a finite time and an energy that is not NaN, the result is
    valid: the first attempt is accepted under the current pair, with the
    clamped formula value, and the state is unchanged. *)
Theorem finite_input_is_valid self a t e :
  coefficient_list_ok (k1_k2_list self) ->
  (abs a <=? 1e270)%float = true ->
  is_finite t = true ->
  is_nan e = false ->
  exists k1 k2,
    get_k1_k2_values self = Some (k1, k2) /\
    calculate_frequency self a t e =
      Some ({| frequency := clamp (raw_frequency a (guard_time t) e k1 k2);
               amplitude := a; time_ms := guard_time t; energy := e;
               k1 := k1; k2 := k2; k1_k2_product := k1 * k2;
               k_index := current_k_index self;
               is_valid := true; attempts := 1 |}, self) /\
    in_band (clamp (raw_frequency a (guard_time t) e k1 k2)) = true.
Proof.
  intros Hl Ha Ht He.
  pose proof (coefficient_list_ok_nonempty _ Hl) as Hne.
  destruct (get_k1_k2_values_some self Hne) as (p & I & G).
  destruct (guard_time_finite t Ht) as (st & mt & et & Ft).
  pose proof (abs_leb_finite_below a 1e270 _ _ Ha Prim2SF_1e270) as Fa.
  assert (N : is_nan (raw_frequency a (guard_time t) e (p / k2_constant) k2_constant) = false).
  { rewrite (raw_frequency_nan a (guard_time t) e (p / k2_constant) (53 + 844) st mt et);
      try assumption; try lia.
    - rewrite (mul_nan_finite e _ false 7036874417766400 (-46)); [exact He|reflexivity].
    - apply coefficient_list_ok_k1 with (l := k1_k2_list self); assumption. }
  exists (p / k2_constant), k2_constant. split; [exact G|]. split.
  - apply calculate_frequency_first; assumption.
  - rewrite clamp_in_band, N. reflexivity.
Qed.

Lemma finite_input_is_valid_witness :
  exists k1 k2,
    get_k1_k2_values (fresh 12345 k1_k2_list_12345) = Some (k1, k2) /\
    calculate_frequency (fresh 12345 k1_k2_list_12345) (-100) 1 infinity =
      Some ({| frequency := clamp (raw_frequency (-100) (guard_time 1) infinity k1 k2);
               amplitude := -100; time_ms := guard_time 1; energy := infinity;
               k1 := k1; k2 := k2; k1_k2_product := k1 * k2;
               k_index := current_k_index (fresh 12345 k1_k2_list_12345);
               is_valid := true; attempts := 1 |}, fresh 12345 k1_k2_list_12345) /\
    in_band (clamp (raw_frequency (-100) (guard_time 1) infinity k1 k2)) = true.
Proof.
  apply (finite_input_is_valid (fresh 12345 k1_k2_list_12345) (-100) 1 infinity).
  - split; [reflexivity|repeat constructor; lia].
  - reflexivity.
  - reflexivity.
  - reflexivity.
Defined.

(** X4.  The frequency returned saturates at the band limits.  In a state
    whose coefficients convert to floats: when the formula's value under the
    current pair is a number, the result is valid
    and its frequency is that value itself if it lies in [2000, 4000], 2000
    if it is below (also for minus infinity) and 4000 if it is above (also
    for plus infinity). *)
Theorem frequency_saturates self a t e k1 k2 :
  coefficients_convertible (k1_k2_list self) ->
  get_k1_k2_values self = Some (k1, k2) ->
  is_nan (raw_frequency a (guard_time t) e k1 k2) = false ->
  exists r,
    calculate_frequency self a t e = Some (r, self) /\
    is_valid r = true /\
    (in_band (raw_frequency a (guard_time t) e k1 k2) = true ->
     frequency r = raw_frequency a (guard_time t) e k1 k2) /\
    ((raw_frequency a (guard_time t) e k1 k2 <? 2000)%float = true ->
     frequency r = 2000%float) /\
    ((4000 <? raw_frequency a (guard_time t) e k1 k2)%float = true ->
     frequency r = 4000%float).
Proof.
  intros _ G N. eexists. split; [apply calculate_frequency_first; eassumption|].
  cbn [is_valid frequency]. split; [reflexivity|].
  split; [apply clamp_id|]. split; [apply clamp_below|apply clamp_above].
Qed.

Lemma frequency_saturates_witness :
  exists r,
    calculate_frequency (fresh 12345 k1_k2_list_12345) 3 2 neg_infinity =
      Some (r, fresh 12345 k1_k2_list_12345) /\
    is_valid r = true /\
    (in_band (raw_frequency 3 (guard_time 2) neg_infinity 10 100) = true ->
     frequency r = raw_frequency 3 (guard_time 2) neg_infinity 10 100) /\
    ((raw_frequency 3 (guard_time 2) neg_infinity 10 100 <? 2000)%float = true ->
     frequency r = 2000%float) /\
    ((4000 <? raw_frequency 3 (guard_time 2) neg_infinity 10 100)%float = true ->
     frequency r = 4000%float).
Proof.
  exact (frequency_saturates (fresh 12345 k1_k2_list_12345) 3 2 neg_infinity 10 100
           ltac:(repeat constructor) eq_refl eq_refl).
Defined.

(** * Further properties of the hop state *)

(** X5.  [get_k1_k2_values] on a non-empty list never raises: the index is
    taken modulo the length, so any integer index, negative or past the end,
    selects an entry [p]; the pair is [(p // 100, 100)], whose product is [p]
    rounded down to a multiple of 100; an index shifted by the length selects
    the same pair; and for a list as [__init__] builds it k1 is between 10
    and 30. *)
Theorem coefficient_pair_of_index self :
  k1_k2_list self <> [] ->
  exists p,
    nth_error (k1_k2_list self)
      (Z.to_nat (current_k_index self mod Py.len (k1_k2_list self))) = Some p /\
    get_k1_k2_values self = Some (p / 100, 100) /\
    p - 99 <= (p / 100) * 100 <= p /\
    get_k1_k2_values
      (set_current_k_index self (current_k_index self + Py.len (k1_k2_list self))) =
      get_k1_k2_values self /\
    (coefficient_list_ok (k1_k2_list self) -> 10 <= p / 100 <= 30).
Proof.
  intros Hne. pose proof (len_pos _ Hne) as P.
  pose proof (Z.mod_pos_bound (current_k_index self) _ P) as B.
  unfold get_k1_k2_values at 1 3. rewrite mod_some by assumption.
  unfold Py.getitem.
  destruct (Z.ltb_spec (current_k_index self mod Py.len (k1_k2_list self)) 0); [lia|].
  destruct (Z.ltb_spec (current_k_index self mod Py.len (k1_k2_list self)) 0); [lia|].
  destruct (nth_error (k1_k2_list self) _) as [p|] eqn:E.
  - exists p. split; [reflexivity|]. split; [reflexivity|]. split; [|split].
    + pose proof (Z.div_mod p 100 ltac:(lia)).
      pose proof (Z.mod_pos_bound p 100 ltac:(lia)). lia.
    + unfold get_k1_k2_values.
      cbn [set_current_k_index current_k_index k1_k2_list].
      rewrite mod_some by assumption.
      replace ((current_k_index self + Py.len (k1_k2_list self)) mod Py.len (k1_k2_list self))
        with (current_k_index self mod Py.len (k1_k2_list self)).
      * unfold Py.getitem.
        destruct (Z.ltb_spec (current_k_index self mod Py.len (k1_k2_list self)) 0); [lia|].
        destruct (Z.ltb_spec (current_k_index self mod Py.len (k1_k2_list self)) 0); [lia|].
        rewrite E. reflexivity.
      * rewrite <- (Z_mod_plus_full (current_k_index self) 1 (Py.len (k1_k2_list self))).
        f_equal. lia.
    + intros Hl. apply (coefficient_list_ok_k1 _ p Hl). eapply nth_error_In. exact E.
  - apply nth_error_None in E. unfold Py.len in *. lia.
Qed.

Lemma coefficient_pair_of_index_witness :
  exists p,
    nth_error k1_k2_list_12345 (Z.to_nat ((-1) mod 5)) = Some p /\
    get_k1_k2_values (set_current_k_index (fresh 12345 k1_k2_list_12345) (-1)) =
      Some (p / 100, 100) /\
    p - 99 <= (p / 100) * 100 <= p /\
    get_k1_k2_values (set_current_k_index (fresh 12345 k1_k2_list_12345) (-1 + 5)) =
      get_k1_k2_values (set_current_k_index (fresh 12345 k1_k2_list_12345) (-1)) /\
    (coefficient_list_ok k1_k2_list_12345 -> 10 <= p / 100 <= 30).
Proof.
  exact (coefficient_pair_of_index (set_current_k_index (fresh 12345 k1_k2_list_12345) (-1))
           ltac:(discriminate)).
Defined.

(** ** An empty coefficient list *)

Lemma receive_hop_total random i sd nl self drawn :
  exists rec self', receive_hop random i sd nl self drawn = Some (rec, self', S (S drawn)) /\
                    k1_k2_list self' = k1_k2_list self.
Proof.
  unfold receive_hop.
  cbn [measure_signal_parameters sp_amplitude sp_time_ms sp_energy sp_generation_method].
  set (a := (sr_amplitude sd * _)%float).
  set (e := (sr_energy sd * _)%float).
  set (t := (sr_time_ms sd + _)%float).
  destruct (validate_signal self a t) as [v self0] eqn:V.
  assert (self0 = self) by (unfold validate_signal in V; congruence). subst self0.
  destruct (v_is_valid v).
  - destruct (calculate_frequency_spec self a t e) as (r & self' & -> & (_ & S2 & _) & _).
    eexists _, _. split; [reflexivity|exact S2].
  - eexists _, _. split; reflexivity.
Qed.

(** X6.  With an empty coefficient list [calculate_frequency] still returns:
    no attempt is made and the fallback comes back with [attempts = 0] and
    the state unchanged.  [get_k1_k2_values] and [next_hop] raise
    ([ZeroDivisionError], from the modulo by the length), and so do the two
    simulations as soon as they have one hop to run. *)
Theorem empty_coefficient_list self a t e :
  k1_k2_list self = [] ->
  calculate_frequency self a t e =
    Some (fallback a (guard_time t) e (current_k_index self) 0, self) /\
  get_k1_k2_values self = None /\
  next_hop self = None /\
  (forall random drawn hop_count,
     0 < hop_count -> simulate_sender_operation random self drawn hop_count = None) /\
  (forall random drawn sd rest noise_level,
     simulate_receiver_operation random self drawn (sd :: rest) noise_level = None) /\
  (forall random drawn noise_level,
     simulate_receiver_operation random self drawn [] noise_level =
     Some ([], set_hop_counter (set_current_k_index self 0) 0, drawn)).
Proof.
  intros He.
  assert (C : forall s, k1_k2_list s = [] -> forall a' t' e',
            calculate_frequency s a' t' e' =
            Some (fallback a' (guard_time t') e' (current_k_index s) 0, s)).
  { intros s Hs a' t' e'. unfold calculate_frequency. rewrite Hs.
    cbn [Py.len length attempt_loop Z.of_nat Z.sub Z.to_nat].
    destruct s; reflexivity. }
  assert (N : forall s, k1_k2_list s = [] -> next_hop s = None).
  { intros s Hs. unfold next_hop, advance_k_index.
    cbn [set_hop_counter k1_k2_list]. rewrite Hs. reflexivity. }
  split; [apply C; assumption|].
  split; [unfold get_k1_k2_values; rewrite He; reflexivity|].
  split; [apply N; assumption|].
  split; [|split].
  - intros random drawn hop_count Hh. unfold simulate_sender_operation.
    destruct (Z.to_nat hop_count) as [|n] eqn:En; [lia|].
    cbn [sender_loop]. rewrite (C self He), (N self He). reflexivity.
  - intros random drawn sd rest nl. unfold simulate_receiver_operation.
    cbn [receiver_loop].
    set (reset := set_hop_counter (set_current_k_index self 0) 0).
    destruct (receive_hop_total random 0 sd nl reset drawn) as (rec & s' & -> & Hs).
    rewrite (N s'); [reflexivity|]. rewrite Hs. exact He.
  - reflexivity.
Qed.

Lemma empty_coefficient_list_witness :
  calculate_frequency (fresh 1 []) 3 2 18 =
    Some (fallback 3 (guard_time 2) 18 (current_k_index (fresh 1 [])) 0, fresh 1 []) /\
  get_k1_k2_values (fresh 1 []) = None /\
  next_hop (fresh 1 []) = None /\
  (forall random drawn hop_count,
     0 < hop_count -> simulate_sender_operation random (fresh 1 []) drawn hop_count = None) /\
  (forall random drawn sd rest noise_level,
     simulate_receiver_operation random (fresh 1 []) drawn (sd :: rest) noise_level = None) /\
  (forall random drawn noise_level,
     simulate_receiver_operation random (fresh 1 []) drawn [] noise_level =
     Some ([], set_hop_counter (set_current_k_index (fresh 1 []) 0) 0, drawn)).
Proof. exact (empty_coefficient_list (fresh 1 []) 3 2 18 eq_refl). Defined.

(** X7.  Hops compose: from a state whose index is in range, [n] calls of
    [next_hop] add [n] to the hop counter and leave the index at
    [(index + n) mod len], again in range; the key and the list are kept; and
    [len] hops bring the index back to where it was. *)
Theorem hops_compose n self :
  k1_k2_list self <> [] ->
  0 <= current_k_index self < Py.len (k1_k2_list self) ->
  exists self',
    hops n self = Some self' /\
    sync_key self' = sync_key self /\
    k1_k2_list self' = k1_k2_list self /\
    hop_counter self' = hop_counter self + Z.of_nat n /\
    current_k_index self' = (current_k_index self + Z.of_nat n) mod Py.len (k1_k2_list self) /\
    0 <= current_k_index self' < Py.len (k1_k2_list self) /\
    (Z.of_nat n mod Py.len (k1_k2_list self) = 0 ->
     current_k_index self' = current_k_index self).
Proof.
  revert self. induction n as [|n IH]; intros self Hne Hi.
  - exists self. cbn [hops Z.of_nat]. rewrite !Z.add_0_r.
    rewrite Z.mod_small by assumption. repeat split; auto; lia.
  - cbn [hops]. rewrite next_hop_some by assumption.
    set (L := Py.len (k1_k2_list self)) in *.
    set (s1 := {| sync_key := sync_key self; k1_k2_list := k1_k2_list self;
                  current_k_index := (current_k_index self + 1) mod L;
                  hop_counter := hop_counter self + 1 |}).
    assert (P : 0 < L) by lia.
    destruct (IH s1 Hne (Z.mod_pos_bound _ _ P)) as (s' & E & K & Li & H & I & B & _).
    cbn [s1 sync_key k1_k2_list hop_counter current_k_index] in *. fold L in I, B.
    exists s'. split; [exact E|]. split; [exact K|]. split; [exact Li|].
    split; [lia|].
    assert (I' : current_k_index s' = (current_k_index self + Z.of_nat (S n)) mod L).
    { rewrite I, Z.add_mod_idemp_l by lia. f_equal. lia. }
    split; [exact I'|]. split; [exact B|].
    intros M. rewrite I'.
    rewrite <- Z.add_mod_idemp_r, M, Z.add_0_r by lia. apply Z.mod_small. assumption.
Qed.

Lemma hops_compose_witness :
  exists self',
    hops 7 (fresh 12345 k1_k2_list_12345) = Some self' /\
    sync_key self' = sync_key (fresh 12345 k1_k2_list_12345) /\
    k1_k2_list self' = k1_k2_list (fresh 12345 k1_k2_list_12345) /\
    hop_counter self' = hop_counter (fresh 12345 k1_k2_list_12345) + Z.of_nat 7 /\
    current_k_index self' =
      (current_k_index (fresh 12345 k1_k2_list_12345) + Z.of_nat 7)
      mod Py.len (k1_k2_list (fresh 12345 k1_k2_list_12345)) /\
    0 <= current_k_index self' < Py.len (k1_k2_list (fresh 12345 k1_k2_list_12345)) /\
    (Z.of_nat 7 mod Py.len (k1_k2_list (fresh 12345 k1_k2_list_12345)) = 0 ->
     current_k_index self' = current_k_index (fresh 12345 k1_k2_list_12345)).
Proof.
  apply (hops_compose 7 (fresh 12345 k1_k2_list_12345)).
  - discriminate.
  - split; [vm_compute; discriminate|reflexivity].
Defined.

(** * Construction *)

Lemma insert_sorted_perm x l : Permutation (insert_sorted x l) (x :: l).
Proof.
  induction l as [|y t IH]; cbn [insert_sorted]; [reflexivity|].
  destruct (x <=? y); [reflexivity|].
  rewrite IH. apply perm_swap.
Qed.

Lemma sorted_perm l : Permutation (sorted l) l.
Proof.
  induction l as [|x t IH]; cbn [sorted fold_right]; [reflexivity|].
  fold (sorted t). rewrite insert_sorted_perm. apply perm_skip. exact IH.
Qed.

Lemma insert_sorted_sorted x l :
  StronglySorted Z.le l -> StronglySorted Z.le (insert_sorted x l).
Proof.
  induction 1 as [|y t St IH F]; cbn [insert_sorted].
  - constructor; constructor.
  - destruct (Z.leb_spec x y).
    + constructor; [constructor; assumption|].
      constructor; [assumption|].
      rewrite Forall_forall in *. intros z Hz. specialize (F z Hz). lia.
    + constructor; [exact IH|].
      apply (@Permutation_Forall Z _ (x :: t) (insert_sorted x t)).
      * symmetry. apply insert_sorted_perm.
      * constructor; [lia|assumption].
Qed.

Lemma sorted_sorted l : StronglySorted Z.le (sorted l).
Proof.
  induction l as [|x t IH]; cbn [sorted fold_right]; [constructor|].
  apply insert_sorted_sorted. exact IH.
Qed.

Lemma strongly_sorted_nth l : StronglySorted Z.le l ->
  forall i j pi pj, (i <= j)%nat ->
    nth_error l i = Some pi -> nth_error l j = Some pj -> pi <= pj.
Proof.
  induction 1 as [|y t St IH F]; intros i j pi pj Hij Hi Hj.
  - destruct i; discriminate.
  - destruct i as [|i], j as [|j]; cbn [nth_error] in *.
    + injection Hi as <-. injection Hj as <-. lia.
    + injection Hi as <-. rewrite Forall_forall in F. apply F.
      eapply nth_error_In. exact Hj.
    + lia.
    + apply (IH i j); try assumption. lia.
Qed.

(** The list [__init__] builds has five entries between 1000 and 3000. *)
Lemma init_list_ok key randint :
  (forall n, (n < 5)%nat -> 1000 <= randint n <= 3000) ->
  coefficient_list_ok (k1_k2_list (__init__ key randint)).
Proof.
  intros H. cbn [__init__ k1_k2_list].
  pose proof (sorted_perm (map randint (seq 0 5))) as P.
  split.
  - rewrite (Permutation_length P). reflexivity.
  - apply (@Permutation_Forall Z _ (map randint (seq 0 5))); [symmetry; exact P|].
    apply Forall_forall. intros p Hp. apply in_map_iff in Hp.
    destruct Hp as (n & <- & Hn). apply H. apply in_seq in Hn. lia.
Qed.

(** X8.  Construction.  When the five [random.randint(1000, 3000)] values
    are in their range, [__init__] leaves a state that starts at index 0 and
    hop 0 and whose coefficient list has five entries between 1000 and 3000,
    is in ascending order and is a rearrangement of the five values drawn; so
    k1 never decreases from one index to the next. *)
Theorem constructed_state key randint :
  (forall n, (n < 5)%nat -> 1000 <= randint n <= 3000) ->
  coefficient_list_ok (k1_k2_list (__init__ key randint)) /\
  StronglySorted Z.le (k1_k2_list (__init__ key randint)) /\
  Permutation (k1_k2_list (__init__ key randint)) (map randint (seq 0 5)) /\
  __init__ key randint = fresh key (k1_k2_list (__init__ key randint)) /\
  (forall i j pi pj, (i <= j)%nat ->
     nth_error (k1_k2_list (__init__ key randint)) i = Some pi ->
     nth_error (k1_k2_list (__init__ key randint)) j = Some pj ->
     pi / k2_constant <= pj / k2_constant).
Proof.
  intros H. split; [apply init_list_ok; exact H|].
  cbn [__init__ k1_k2_list].
  pose proof (sorted_perm (map randint (seq 0 5))) as P.
  pose proof (sorted_sorted (map randint (seq 0 5))) as S.
  split; [exact S|split; [exact P|split; [reflexivity|]]].
  intros i j pi pj Hij Hi Hj.
    apply Z.div_le_mono; [unfold k2_constant; lia|].
    apply (strongly_sorted_nth _ S i j); assumption.
Qed.

Lemma constructed_state_witness :
  coefficient_list_ok (k1_k2_list (__init__ 12345 (fun n => 3000 - 400 * Z.of_nat n))) /\
  StronglySorted Z.le (k1_k2_list (__init__ 12345 (fun n => 3000 - 400 * Z.of_nat n))) /\
  Permutation (k1_k2_list (__init__ 12345 (fun n => 3000 - 400 * Z.of_nat n)))
              (map (fun n => 3000 - 400 * Z.of_nat n) (seq 0 5)) /\
  __init__ 12345 (fun n => 3000 - 400 * Z.of_nat n) =
    fresh 12345 (k1_k2_list (__init__ 12345 (fun n => 3000 - 400 * Z.of_nat n))) /\
  (forall i j pi pj, (i <= j)%nat ->
     nth_error (k1_k2_list (__init__ 12345 (fun n => 3000 - 400 * Z.of_nat n))) i = Some pi ->
     nth_error (k1_k2_list (__init__ 12345 (fun n => 3000 - 400 * Z.of_nat n))) j = Some pj ->
     pi / k2_constant <= pj / k2_constant).
Proof.
  apply (constructed_state 12345 (fun n => 3000 - 400 * Z.of_nat n)).
  intros n Hn. lia.
Defined.

(** * Further properties of the two drivers *)

Lemma finite_below_not_nan K x : finite_below K (Prim2SF x) -> is_nan x = false.
Proof.
  intros H. apply is_nan_false. intros E. rewrite E in H. exact H.
Qed.

Lemma Prim2SF_100 :
  Prim2SF (Py.float_of_int k2_constant) = S754_finite false 7036874417766400 (-46).
Proof. reflexivity. Qed.

(** The entry the current index selects. *)
Lemma get_k1_k2_values_nth self :
  k1_k2_list self <> [] ->
  exists p,
    nth_error (k1_k2_list self)
      (Z.to_nat (current_k_index self mod Py.len (k1_k2_list self))) = Some p /\
    get_k1_k2_values self = Some (p / k2_constant, k2_constant).
Proof.
  intros Hne. pose proof (len_pos _ Hne) as P.
  pose proof (Z.mod_pos_bound (current_k_index self) _ P) as B.
  unfold get_k1_k2_values. rewrite mod_some by assumption.
  unfold Py.getitem.
  destruct (Z.ltb_spec (current_k_index self mod Py.len (k1_k2_list self)) 0); [lia|].
  destruct (Z.ltb_spec (current_k_index self mod Py.len (k1_k2_list self)) 0); [lia|].
  destruct (nth_error (k1_k2_list self) _) as [p|] eqn:E.
  - exists p. split; reflexivity.
  - apply nth_error_None in E. unfold Py.len in *. lia.
Qed.

(** For a finite amplitude and a finite non-zero time the result is valid
    exactly when the energy is a number. *)
Lemma calculate_frequency_by_energy self a t e st mt et :
  coefficient_list_ok (k1_k2_list self) ->
  finite_below 900 (Prim2SF a) ->
  Prim2SF (guard_time t) = S754_finite st mt et ->
  exists p r,
    nth_error (k1_k2_list self) (Z.to_nat (current_k_index self mod 5)) = Some p /\
    calculate_frequency self a t e = Some (r, self) /\
    amplitude r = a /\ time_ms r = guard_time t /\ energy r = e /\
    k_index r = current_k_index self /\
    is_valid r = negb (is_nan e) /\
    attempts r = (if is_valid r then 1 else 5) /\
    (is_valid r = true ->
     k1 r = p / k2_constant /\ k2 r = k2_constant /\
     k1_k2_product r = p / k2_constant * k2_constant /\
     frequency r = clamp (raw_frequency a (guard_time t) e (p / k2_constant) k2_constant) /\
     in_band (frequency r) = true) /\
    (is_valid r = false ->
     k1 r = 10 /\ k2 r = 100 /\ k1_k2_product r = 1000 /\
     frequency r = Py.float_of_int f0).
Proof.
  intros Hl Ha Ht.
  pose proof (coefficient_list_ok_nonempty _ Hl) as Hne.
  assert (L5 : Py.len (k1_k2_list self) = 5).
  { destruct Hl as [H _]. unfold Py.len. rewrite H. reflexivity. }
  destruct (get_k1_k2_values_nth self Hne) as (p & Hp & G). rewrite L5 in Hp.
  assert (N : forall q, In q (k1_k2_list self) ->
            is_nan (raw_frequency a (guard_time t) e (q / k2_constant) k2_constant) =
            is_nan e).
  { intros q I.
    rewrite (raw_frequency_nan a (guard_time t) e (q / k2_constant) 900 st mt et);
      try assumption; try lia.
    - apply (mul_nan_finite e _ _ _ _ Prim2SF_100).
    - apply coefficient_list_ok_k1 with (l := k1_k2_list self); assumption. }
  exists p. destruct (is_nan e) eqn:E.
  - exists (fallback a (guard_time t) e (current_k_index self) (Py.len (k1_k2_list self))).
    split; [exact Hp|]. split.
    { apply calculate_frequency_all_nan; [assumption|].
      intros q I. rewrite N by assumption. reflexivity. }
    rewrite L5.
    cbn [fallback amplitude time_ms energy k_index is_valid attempts negb
         k1 k2 k1_k2_product frequency].
    do 6 (split; [reflexivity|]). split; [discriminate|].
    intros _. repeat split.
  - eexists. split; [exact Hp|]. split.
    { apply (calculate_frequency_first self a t e _ _ G).
      rewrite N; [reflexivity|eapply nth_error_In; exact Hp]. }
    cbn [amplitude time_ms energy k_index is_valid attempts negb k1 k2
         k1_k2_product frequency].
    do 6 (split; [reflexivity|]). split; [|discriminate].
    intros _. do 4 (split; [reflexivity|]).
    rewrite clamp_in_band, N; [reflexivity|eapply nth_error_In; exact Hp].
Qed.

(** The sender's energy [amplitude ** 2 * 2] is a number. *)
Lemma sender_energy_not_nan r :
  (0 <=? r)%float = true -> (r <? 1)%float = true ->
  is_nan (sp_energy (generate_signal_parameters r)) = false.
Proof.
  intros L U. pose proof (sender_amplitude_finite r L U) as Fa.
  cbn [generate_signal_parameters sp_energy sp_amplitude] in *.
  set (a := (nominal_amplitude + Py.uniform (-0.15) 0.15 r)%float) in *.
  apply (finite_below_not_nan (Z.max (11 + 2) (-1074) + 1)).
  apply mul_finite; [|vm_compute; discriminate|lia].
  apply (finite_below_mono (Z.max (5 + 5) (-1074) + 1)); [lia|].
  apply mul_finite; try assumption. lia.
Qed.

(** One iteration of the receiver's loop, in full. *)
Lemma receive_hop_record random i sd nl self drawn :
  coefficient_list_ok (k1_k2_list self) ->
  exists rec,
    receive_hop random i sd nl self drawn = Some (rec, self, S (S drawn)) /\
    original_data rec = sd /\
    rr_hop_number rec = i + 1 /\
    rr_sync_info rec = sync_check self /\
    rr_generation_method rec = receiver_measured /\
    rr_amplitude rec =
      (sr_amplitude sd * (Py.float_of_int 1 + Py.uniform (- nl) nl (random drawn)))%float /\
    rr_energy rec =
      (sr_energy sd * (Py.float_of_int 1 + Py.uniform (- nl) nl (random drawn)))%float /\
    rr_time_ms rec =
      (sr_time_ms sd + Py.uniform (-0.05) 0.05 (random (S drawn)))%float /\
    validation rec = fst (validate_signal self (rr_amplitude rec) (rr_time_ms rec)) /\
    (v_is_valid (validation rec) = true ->
     exists p fr,
       nth_error (k1_k2_list self) (Z.to_nat (current_k_index self mod 5)) = Some p /\
       freq_result rec = Computed fr /\
       amplitude fr = rr_amplitude rec /\ time_ms fr = rr_time_ms rec /\
       energy fr = rr_energy rec /\
       k_index fr = current_k_index self /\
       is_valid fr = negb (is_nan (rr_energy rec)) /\
       attempts fr = (if is_valid fr then 1 else 5) /\
       (is_valid fr = true ->
        k1 fr = p / k2_constant /\ k2 fr = k2_constant /\
        k1_k2_product fr = p / k2_constant * k2_constant /\
        frequency fr =
          clamp (raw_frequency (rr_amplitude rec) (rr_time_ms rec) (rr_energy rec)
                   (p / k2_constant) k2_constant) /\
        in_band (frequency fr) = true) /\
       (is_valid fr = false ->
        k1 fr = 10 /\ k2 fr = 100 /\ k1_k2_product fr = 1000 /\
        frequency fr = Py.float_of_int f0) /\
       frequency_difference rec = abs (frequency fr - sr_frequency sd) /\
       is_match rec = (frequency_difference rec <? 40)%float) /\
    (v_is_valid (validation rec) = false ->
     freq_result rec = Rejected /\
     frequency_difference rec = infinity /\
     is_match rec = false).
Proof.
  intros Hl. unfold receive_hop.
  cbn [measure_signal_parameters sp_amplitude sp_time_ms sp_energy sp_generation_method].
  set (a := (sr_amplitude sd * _)%float).
  set (e := (sr_energy sd * _)%float).
  set (t := (sr_time_ms sd + _)%float).
  destruct (validate_signal self a t) as [v self0] eqn:V.
  assert (self0 = self) by (unfold validate_signal in V; congruence). subst self0.
  assert (Hv : v = fst (validate_signal self a t)) by (rewrite V; reflexivity).
  destruct (v_is_valid v) eqn:Valid.
  - rewrite Hv in Valid.
    destruct (validate_signal_finite self a t Valid) as (Fa & m & ex & Ft).
    pose proof (guard_time_finite_pos t m ex Ft) as Gt.
    destruct (calculate_frequency_by_energy self a t e false m ex Hl) as
      (p & r & Hp & -> & Ra & Rt & Re & Rk & Rv & Rn & Rf & Rg).
    { apply (finite_below_mono 2); [lia|assumption]. }
    { rewrite Gt. exact Ft. }
    rewrite Gt in Rt, Rf.
    eexists. split; [reflexivity|].
    cbn [original_data rr_hop_number rr_sync_info rr_generation_method rr_amplitude
         rr_energy rr_time_ms validation freq_result frequency_difference is_match].
    do 7 (split; [reflexivity|]). split; [exact Hv|].
    split.
    + intros _. exists p, r.
      split; [exact Hp|]. split; [reflexivity|].
      split; [exact Ra|]. split; [exact Rt|]. split; [exact Re|]. split; [exact Rk|].
      split; [exact Rv|]. split; [exact Rn|]. split; [exact Rf|]. split; [exact Rg|].
      split; reflexivity.
    + rewrite Hv, Valid. discriminate.
  - eexists. split; [reflexivity|].
    cbn [original_data rr_hop_number rr_sync_info rr_generation_method rr_amplitude
         rr_energy rr_time_ms validation freq_result frequency_difference is_match].
    do 7 (split; [reflexivity|]). split; [exact Hv|].
    split; [rewrite Valid; discriminate|]. intros _. repeat split.
Qed.

(** ** The two runs, record by record *)

Lemma state_after_0 self :
  0 <= current_k_index self < Py.len (k1_k2_list self) -> state_after self 0 = self.
Proof.
  intros H. unfold state_after. cbn [Z.of_nat]. rewrite !Z.add_0_r.
  rewrite Z.mod_small by assumption. destruct self; reflexivity.
Qed.

Lemma state_after_S self j :
  k1_k2_list self <> [] ->
  state_after (state_after self 1) j = state_after self (S j).
Proof.
  intros Hne. pose proof (len_pos _ Hne) as P. unfold state_after.
  cbn [sync_key k1_k2_list current_k_index hop_counter].
  f_equal; [|lia].
  rewrite Z.add_mod_idemp_l by lia. f_equal. lia.
Qed.

Lemma next_hop_state_after self :
  k1_k2_list self <> [] -> next_hop self = Some (state_after self 1).
Proof. intros H. rewrite next_hop_some by assumption. reflexivity. Qed.

Lemma state_after_index self j :
  coefficient_list_ok (k1_k2_list self) ->
  0 <= current_k_index (state_after self j) < 5.
Proof.
  intros Hl. cbn [state_after current_k_index].
  replace (Py.len (k1_k2_list self)) with 5.
  - apply Z.mod_pos_bound. lia.
  - destruct Hl as [H _]. unfold Py.len. rewrite H. reflexivity.
Qed.

(** [j] calls of [next_hop] from a state whose index is in range. *)
Lemma hops_state_after j : forall self,
  k1_k2_list self <> [] ->
  0 <= current_k_index self < Py.len (k1_k2_list self) ->
  hops j self = Some (state_after self j).
Proof.
  induction j as [|j IH]; intros self Hne Hi.
  - cbn [hops]. rewrite state_after_0 by assumption. reflexivity.
  - cbn [hops]. rewrite next_hop_state_after by assumption.
    rewrite IH.
    + rewrite state_after_S by assumption. reflexivity.
    + exact Hne.
    + cbn [state_after current_k_index k1_k2_list].
      apply Z.mod_pos_bound. apply len_pos. exact Hne.
Qed.

(** The receiver's loop is [receive_hop] at the successive states. *)
Lemma receiver_loop_records random nl : forall srs i self drawn,
  coefficient_list_ok (k1_k2_list self) ->
  0 <= current_k_index self < 5 ->
  exists results,
    receiver_loop random srs i nl self drawn =
      Some (results, state_after self (length srs), (2 * length srs + drawn)%nat) /\
    length results = length srs /\
    forall j rec, nth_error results j = Some rec ->
      exists sd, nth_error srs j = Some sd /\
        receive_hop random (i + Z.of_nat j) sd nl (state_after self j) (2 * j + drawn)%nat =
          Some (rec, state_after self j, S (S (2 * j + drawn))).
Proof.
  induction srs as [|sd rest IH]; intros i self drawn Hl Hi.
  - exists []. cbn [receiver_loop length].
    assert (L5 : Py.len (k1_k2_list self) = 5).
    { destruct Hl as [H _]. unfold Py.len. rewrite H. reflexivity. }
    rewrite state_after_0 by (rewrite L5; assumption).
    split; [reflexivity|]. split; [reflexivity|]. intros [|j] rec H; discriminate.
  - pose proof (coefficient_list_ok_nonempty _ Hl) as Hne.
    assert (L5 : Py.len (k1_k2_list self) = 5).
    { destruct Hl as [H _]. unfold Py.len. rewrite H. reflexivity. }
    cbn [receiver_loop].
    destruct (receive_hop_record random i sd nl self drawn Hl) as (rec & E & _).
    rewrite E. rewrite next_hop_state_after by assumption.
    destruct (IH (i + 1) (state_after self 1) (S (S drawn)) Hl (state_after_index self 1 Hl))
      as (results & -> & Len & R).
    exists (rec :: results).
    rewrite state_after_S by assumption. cbn [length].
    split; [do 2 f_equal; lia|]. split; [rewrite Len; reflexivity|].
    intros [|j] rec' Hn; cbn [nth_error] in *.
    + injection Hn as <-. exists sd. split; [reflexivity|].
      rewrite state_after_0 by (rewrite L5; assumption).
      cbn [Z.of_nat]. rewrite Z.add_0_r. exact E.
    + destruct (R j rec' Hn) as (sd' & Hs & Er). exists sd'. split; [exact Hs|].
      rewrite state_after_S in Er by assumption.
      replace (i + Z.of_nat (S j)) with (i + 1 + Z.of_nat j) by lia.
      replace (2 * S j + drawn)%nat with (2 * j + S (S drawn))%nat by lia.
      exact Er.
Qed.

(** The sender's loop, record by record.  The draws are values of
    [random.random()], which lie in [0, 1). *)
Lemma sender_loop_records random :
  (forall n, (0 <=? random n)%float = true /\ (random n <? 1)%float = true) ->
  forall n i self drawn,
  coefficient_list_ok (k1_k2_list self) ->
  0 <= current_k_index self < 5 ->
  exists results,
    sender_loop random n i self drawn =
      Some (results, state_after self n, (n + drawn)%nat) /\
    length results = n /\
    forall j rec, nth_error results j = Some rec ->
      let params := generate_signal_parameters (random (j + drawn)%nat) in
      sr_hop_number rec = i + Z.of_nat j + 1 /\
      sr_generation_method rec = sender_generated /\
      sr_amplitude rec = sp_amplitude params /\
      sr_time_ms rec = Py.float_of_int t_hop /\
      sr_energy rec = sp_energy params /\
      sr_is_valid rec = true /\
      sr_attempts rec = 1 /\
      sr_k_index rec = current_k_index (state_after self j) /\
      sr_sync_info rec = sync_check (state_after self j) /\
      in_band (sr_frequency rec) = true /\
      exists p,
        nth_error (k1_k2_list self) (Z.to_nat (current_k_index (state_after self j))) = Some p /\
        sr_k1 rec = p / k2_constant /\ sr_k2 rec = k2_constant /\
        sr_k1_k2_product rec = p / k2_constant * k2_constant /\
        sr_frequency rec =
          clamp (raw_frequency (sp_amplitude params) (Py.float_of_int t_hop)
                   (sp_energy params) (p / k2_constant) k2_constant).
Proof.
  intros U. induction n as [|n IH]; intros i self drawn Hl Hi.
  - exists []. cbn [sender_loop length].
    assert (L5 : Py.len (k1_k2_list self) = 5).
    { destruct Hl as [H _]. unfold Py.len. rewrite H. reflexivity. }
    rewrite state_after_0 by (rewrite L5; assumption).
    split; [reflexivity|]. split; [reflexivity|]. intros [|j] rec H; discriminate.
  - pose proof (coefficient_list_ok_nonempty _ Hl) as Hne.
    assert (L5 : Py.len (k1_k2_list self) = 5).
    { destruct Hl as [H _]. unfold Py.len. rewrite H. reflexivity. }
    cbn [sender_loop].
    destruct (U drawn) as [R0 R1].
    pose proof (sender_amplitude_finite (random drawn) R0 R1) as Fa.
    pose proof (sender_energy_not_nan (random drawn) R0 R1) as Ne.
    set (params := generate_signal_parameters (random drawn)) in *.
    assert (Tm : sp_time_ms params = Py.float_of_int t_hop) by reflexivity.
    rewrite Tm.
    destruct (calculate_frequency_by_energy self (sp_amplitude params)
                (Py.float_of_int t_hop) (sp_energy params) false 4503599627370496 (-51) Hl)
      as (p & r & Hp & -> & Ra & Rt & Re & Rk & Rv & Rn & Rf & _).
    { apply (finite_below_mono 5); [lia|assumption]. }
    { reflexivity. }
    rewrite Ne in Rv. cbn [negb] in Rv. rewrite Rv in Rn.
    destruct (Rf Rv) as (K1 & K2 & K3 & Fr & Ib).
    change (guard_time (Py.float_of_int t_hop)) with (Py.float_of_int t_hop) in Rt, Fr.
    rewrite next_hop_state_after by assumption.
    destruct (IH (i + 1) (state_after self 1) (S drawn) Hl (state_after_index self 1 Hl))
      as (results & -> & Len & R).
    eexists (_ :: results).
    rewrite state_after_S by assumption. cbn [length].
    split; [do 2 f_equal; lia|]. split; [rewrite Len; reflexivity|].
    intros [|j] rec' Hn; cbn [nth_error] in Hn.
    + injection Hn as <-.
      rewrite state_after_0 by (rewrite L5; assumption).
      cbn [sr_hop_number sr_generation_method sr_amplitude sr_time_ms sr_energy sr_is_valid
           sr_attempts sr_k_index sr_sync_info sr_frequency sr_k1 sr_k2 sr_k1_k2_product
           Z.of_nat Nat.add].
      rewrite Z.add_0_r.
      repeat (split; [first [reflexivity|assumption]|]).
      exists p. rewrite Z.mod_small in Hp by assumption.
      repeat (split; [first [reflexivity|assumption]|]). exact Fr.
    + specialize (R j rec' Hn). cbv zeta in R |- *.
      rewrite state_after_S in R by assumption.
      cbn [k1_k2_list state_after] in R.
      replace (S j + drawn)%nat with (j + S drawn)%nat by lia.
      replace (i + Z.of_nat (S j) + 1) with (i + 1 + Z.of_nat j + 1) by lia.
      exact R.
Qed.

Lemma len_5 l : coefficient_list_ok l -> Py.len l = 5.
Proof. intros [H _]. unfold Py.len. rewrite H. reflexivity. Qed.

Lemma sync_check_state_after self j :
  sync_check (state_after self j) =
  sync_check (set_hop_counter self (hop_counter self + Z.of_nat j)).
Proof. reflexivity. Qed.

(** The difference of a finite number with itself is [0]. *)
Lemma finite_sub_self K x : finite_below K (Prim2SF x) -> (x - x)%float = 0%float.
Proof.
  intros F. apply Prim2SF_inj. rewrite sub_spec. unfold SF64sub.
  destruct (Prim2SF x) as [s|s| |s m e]; cbn [finite_below] in F; try contradiction.
  - destruct s; reflexivity.
  - cbn [SFsub]. rewrite Z.sub_diag. reflexivity.
Qed.

(** The generated energy against the product [amplitude * amplitude * 2]. *)
Lemma sender_energy_close r :
  (0 <=? r)%float = true -> (r <? 1)%float = true ->
  (abs (sp_energy (generate_signal_parameters r) -
        sp_amplitude (generate_signal_parameters r) *
        sp_amplitude (generate_signal_parameters r) * 2) <=? 1e-14)%float = true.
Proof.
  intros L U. pose proof (sender_amplitude_finite r L U) as Fa.
  change (sp_energy (generate_signal_parameters r))
    with (sp_amplitude (generate_signal_parameters r) *
          sp_amplitude (generate_signal_parameters r) * 2)%float.
  set (a := sp_amplitude (generate_signal_parameters r)) in *.
  rewrite (finite_sub_self (Z.max (11 + 2) (-1074) + 1)); [reflexivity|].
  apply mul_finite; [|vm_compute; discriminate|lia].
  apply (finite_below_mono (Z.max (5 + 5) (-1074) + 1)); [lia|].
  apply mul_finite; try assumption. lia.
Qed.

(** X9.  The sender's run.  From a state with a coefficient list as
    [__init__] builds it and an index in range, with draws in [0, 1):
    [simulate_sender_operation] returns one record per hop (none for a hop
    count of zero or less) and consumes one draw per hop; the state it leaves
    has the hop counter and the index advanced by the number of hops.  Record
    [j] has hop number [j + 1], the amplitude [3.0 + uniform(-0.15, 0.15)]
    of draw [j], the time 2 and an energy within 1e-14 of
    [amplitude * amplitude * 2] (the last bit of [amplitude ** 2] is the C
    library's); it is valid
    on the first attempt, under the pair at index [(index + j) mod 5], with a
    k1 between 10 and 30, and its frequency is the clamped formula value,
    inside the band. *)
Theorem sender_run random self drawn hop_count :
  (forall n, (0 <=? random n)%float = true /\ (random n <? 1)%float = true) ->
  coefficient_list_ok (k1_k2_list self) ->
  0 <= current_k_index self < 5 ->
  exists results self',
    simulate_sender_operation random self drawn hop_count =
      Some (results, self', (Z.to_nat hop_count + drawn)%nat) /\
    Py.len results = Z.max 0 hop_count /\
    sync_key self' = sync_key self /\
    k1_k2_list self' = k1_k2_list self /\
    hop_counter self' = hop_counter self + Z.max 0 hop_count /\
    current_k_index self' = (current_k_index self + Z.max 0 hop_count) mod 5 /\
    forall j rec, nth_error results j = Some rec ->
      sr_hop_number rec = Z.of_nat j + 1 /\
      sr_generation_method rec = sender_generated /\
      sr_amplitude rec =
        (nominal_amplitude + Py.uniform (-0.15) 0.15 (random (j + drawn)%nat))%float /\
      sr_time_ms rec = 2%float /\
      (abs (sr_energy rec - sr_amplitude rec * sr_amplitude rec * 2) <=? 1e-14)%float =
        true /\
      sr_is_valid rec = true /\
      sr_attempts rec = 1 /\
      sr_k_index rec = (current_k_index self + Z.of_nat j) mod 5 /\
      (exists p,
         nth_error (k1_k2_list self) (Z.to_nat (sr_k_index rec)) = Some p /\
         sr_k1 rec = p / 100) /\
      10 <= sr_k1 rec <= 30 /\
      sr_k2 rec = 100 /\
      sr_k1_k2_product rec = sr_k1 rec * 100 /\
      sr_frequency rec =
        clamp (raw_frequency (sr_amplitude rec) 2 (sr_energy rec) (sr_k1 rec) 100) /\
      in_band (sr_frequency rec) = true.
Proof.
  intros U Hl Hi. unfold simulate_sender_operation.
  destruct (sender_loop_records random U (Z.to_nat hop_count) 0 self drawn Hl Hi)
    as (results & E & Len & R).
  pose proof (len_5 _ Hl) as L5.
  exists results, (state_after self (Z.to_nat hop_count)).
  split; [exact E|].
  split; [unfold Py.len; rewrite Len; lia|].
  cbn [state_after sync_key k1_k2_list hop_counter current_k_index].
  split; [reflexivity|]. split; [reflexivity|].
  split; [lia|]. split; [rewrite L5; f_equal; lia|].
  intros j rec Hn. specialize (R j rec Hn). cbv zeta in R.
  destruct R as (Hh & Hg & Ha & Ht & He & Hv & Hat & Hk & _ & Hb & p & Hp & K1 & K2 & K3 & Hf).
  pose proof (sender_energy_close _ (proj1 (U (j + drawn)%nat)) (proj2 (U (j + drawn)%nat)))
    as Hc.
  rewrite <- He, <- Ha in Hc.
  cbn [state_after current_k_index] in Hk, Hp. rewrite L5 in Hk, Hp.
  cbn [generate_signal_parameters sp_amplitude sp_energy] in Ha, He, Hf.
  unfold k2_constant in K1, K2, K3, Hf.
  change (Py.float_of_int t_hop) with 2%float in Ht, He, Hf.
  split; [lia|]. split; [exact Hg|]. split; [exact Ha|]. split; [exact Ht|].
  split; [exact Hc|]. split; [exact Hv|]. split; [exact Hat|].
  split; [exact Hk|].
  split; [exists p; split; [rewrite Hk; exact Hp|exact K1]|].
  split.
  { rewrite K1. apply (coefficient_list_ok_k1 _ p Hl). eapply nth_error_In. exact Hp. }
  split; [exact K2|]. split; [rewrite K3, K1; reflexivity|].
  split; [|exact Hb].
  rewrite Hf, He, Ha, K1. reflexivity.
Qed.

Lemma sender_run_witness :
  exists results self',
    simulate_sender_operation half_stream (fresh 12345 k1_k2_list_12345) 0 15 =
      Some (results, self', (Z.to_nat 15 + 0)%nat) /\
    Py.len results = Z.max 0 15 /\
    sync_key self' = sync_key (fresh 12345 k1_k2_list_12345) /\
    k1_k2_list self' = k1_k2_list (fresh 12345 k1_k2_list_12345) /\
    hop_counter self' = hop_counter (fresh 12345 k1_k2_list_12345) + Z.max 0 15 /\
    current_k_index self' =
      (current_k_index (fresh 12345 k1_k2_list_12345) + Z.max 0 15) mod 5 /\
    forall j rec, nth_error results j = Some rec ->
      sr_hop_number rec = Z.of_nat j + 1 /\
      sr_generation_method rec = sender_generated /\
      sr_amplitude rec =
        (nominal_amplitude + Py.uniform (-0.15) 0.15 (half_stream (j + 0)%nat))%float /\
      sr_time_ms rec = 2%float /\
      (abs (sr_energy rec - sr_amplitude rec * sr_amplitude rec * 2) <=? 1e-14)%float =
        true /\
      sr_is_valid rec = true /\
      sr_attempts rec = 1 /\
      sr_k_index rec = (current_k_index (fresh 12345 k1_k2_list_12345) + Z.of_nat j) mod 5 /\
      (exists p,
         nth_error (k1_k2_list (fresh 12345 k1_k2_list_12345)) (Z.to_nat (sr_k_index rec)) =
           Some p /\
         sr_k1 rec = p / 100) /\
      10 <= sr_k1 rec <= 30 /\
      sr_k2 rec = 100 /\
      sr_k1_k2_product rec = sr_k1 rec * 100 /\
      sr_frequency rec =
        clamp (raw_frequency (sr_amplitude rec) 2 (sr_energy rec) (sr_k1 rec) 100) /\
      in_band (sr_frequency rec) = true.
Proof.
  apply (sender_run half_stream (fresh 12345 k1_k2_list_12345) 0 15).
  - intros n. split; reflexivity.
  - split; [reflexivity|repeat constructor; lia].
  - split; [vm_compute; discriminate|reflexivity].
Defined.

(** X10.  When the synchronisation check fires.  In a sender run from a
    state whose hop counter is 0, as [__init__] leaves it, and in every
    receiver run (which resets the counter), the record with hop number [h]
    carries the hop count [h - 1], and its check is flagged exactly when
    [h - 1] is a positive multiple of 100: never within the first 100 hops,
    first at hop number 101. *)
Theorem sync_schedule random self drawn hop_count noise_level :
  (forall n, (0 <=? random n)%float = true /\ (random n <? 1)%float = true) ->
  coefficient_list_ok (k1_k2_list self) ->
  0 <= current_k_index self < 5 ->
  hop_counter self = 0 ->
  exists sender_results sself sdrawn receiver_results rself rdrawn,
    simulate_sender_operation random self drawn hop_count =
      Some (sender_results, sself, sdrawn) /\
    simulate_receiver_operation random sself sdrawn sender_results noise_level =
      Some (receiver_results, rself, rdrawn) /\
    (forall j rec, nth_error sender_results j = Some rec ->
       sync_hop_count (sr_sync_info rec) = sr_hop_number rec - 1 /\
       sync_needed (sr_sync_info rec) =
         ((sr_hop_number rec - 1) mod 100 =? 0) && (1 <? sr_hop_number rec) /\
       (sr_hop_number rec <= 100 -> sync_needed (sr_sync_info rec) = false)) /\
    (forall j rec, nth_error receiver_results j = Some rec ->
       sync_hop_count (rr_sync_info rec) = rr_hop_number rec - 1 /\
       sync_needed (rr_sync_info rec) =
         ((rr_hop_number rec - 1) mod 100 =? 0) && (1 <? rr_hop_number rec) /\
       (rr_hop_number rec <= 100 -> sync_needed (rr_sync_info rec) = false)).
Proof.
  intros U Hl Hi Hh.
  assert (Sy : forall s h, 0 <= h -> hop_counter s = h - 1 ->
            sync_hop_count (sync_check s) = h - 1 /\
            sync_needed (sync_check s) = ((h - 1) mod 100 =? 0) && (1 <? h) /\
            (h <= 100 -> sync_needed (sync_check s) = false)).
  { intros s h H0 Hs. unfold sync_check. rewrite Hs.
    replace (0 <? h - 1) with (1 <? h)
      by (destruct (Z.ltb_spec 1 h), (Z.ltb_spec 0 (h - 1)); try reflexivity; lia).
    destruct (Z.eqb_spec ((h - 1) mod 100) 0) as [M|M]; cbn [andb];
      [destruct (Z.ltb_spec 1 h) as [P|P]|]; cbn [sync_hop_count sync_needed].
    - repeat split. intros B. exfalso.
      apply Z.mod_divide in M; [|lia]. destruct M as [q M]. lia.
    - repeat split.
    - repeat split. }
  unfold simulate_sender_operation, simulate_receiver_operation.
  destruct (sender_loop_records random U (Z.to_nat hop_count) 0 self drawn Hl Hi)
    as (sres & Es & Ls & Rs).
  set (reset := set_hop_counter (set_current_k_index (state_after self (Z.to_nat hop_count)) 0) 0).
  destruct (receiver_loop_records random noise_level sres 0 reset
              (Z.to_nat hop_count + drawn)%nat Hl ltac:(cbn; lia))
    as (rres & Er & Lr & Rr).
  eexists sres, _, _, rres, _, _.
  split; [exact Es|]. split; [exact Er|]. split.
  - intros j rec Hn. specialize (Rs j rec Hn). cbv zeta in Rs.
    destruct Rs as (Hn1 & _ & _ & _ & _ & _ & _ & _ & Hs & _).
    rewrite Hs, Hn1. apply Sy; [lia|].
    cbn [state_after hop_counter]. lia.
  - intros j rec Hn. destruct (Rr j rec Hn) as (sd & _ & E).
    destruct (receive_hop_record random (0 + Z.of_nat j) sd noise_level
                (state_after reset j) (2 * j + (Z.to_nat hop_count + drawn))%nat Hl)
      as (rec' & E' & _ & Hn1 & Hs & _).
    rewrite E in E'. injection E' as <-.
    rewrite Hs, Hn1. apply Sy; [lia|].
    cbn [state_after hop_counter reset set_hop_counter]. lia.
Qed.

Lemma sync_schedule_witness :
  exists sender_results sself sdrawn receiver_results rself rdrawn,
    simulate_sender_operation half_stream (fresh 12345 k1_k2_list_12345) 0 101 =
      Some (sender_results, sself, sdrawn) /\
    simulate_receiver_operation half_stream sself sdrawn sender_results 0.0099 =
      Some (receiver_results, rself, rdrawn) /\
    (forall j rec, nth_error sender_results j = Some rec ->
       sync_hop_count (sr_sync_info rec) = sr_hop_number rec - 1 /\
       sync_needed (sr_sync_info rec) =
         ((sr_hop_number rec - 1) mod 100 =? 0) && (1 <? sr_hop_number rec) /\
       (sr_hop_number rec <= 100 -> sync_needed (sr_sync_info rec) = false)) /\
    (forall j rec, nth_error receiver_results j = Some rec ->
       sync_hop_count (rr_sync_info rec) = rr_hop_number rec - 1 /\
       sync_needed (rr_sync_info rec) =
         ((rr_hop_number rec - 1) mod 100 =? 0) && (1 <? rr_hop_number rec) /\
       (rr_hop_number rec <= 100 -> sync_needed (rr_sync_info rec) = false)).
Proof.
  apply (sync_schedule half_stream (fresh 12345 k1_k2_list_12345) 0 101 0.0099).
  - intros n. split; reflexivity.
  - split; [reflexivity|repeat constructor; lia].
  - split; [vm_compute; discriminate|reflexivity].
  - reflexivity.
Defined.

(** X11.  The receiver's run over any list of sender records, from any state
    with a coefficient list as [__init__] builds it.  It returns one record
    per sender record, in order, and consumes two draws per record, whether
    the signal is accepted or not.  Record [j] holds the sender's amplitude
    and energy scaled by the same noise factor and the sender's time plus its
    jitter.  A signal the validator rejects gets no frequency: the difference
    is infinite and the record is no match.  A signal it accepts gets a
    frequency result under the pair at index [j mod 5]; that result is valid,
    on the first attempt and in the band, unless the received energy is NaN,
    in which case it is the fallback at 2000 MHz after 5 attempts; the record
    matches exactly when the distance to the sender's frequency is below 40,
    whether or not the result is valid.  So a match is always a validated
    reception. *)
Theorem receiver_run random self drawn sender_results noise_level :
  coefficient_list_ok (k1_k2_list self) ->
  exists results self',
    simulate_receiver_operation random self drawn sender_results noise_level =
      Some (results, self', (2 * length sender_results + drawn)%nat) /\
    length results = length sender_results /\
    sync_key self' = sync_key self /\
    k1_k2_list self' = k1_k2_list self /\
    hop_counter self' = Py.len sender_results /\
    current_k_index self' = Py.len sender_results mod 5 /\
    forall j rec, nth_error results j = Some rec ->
      nth_error sender_results j = Some (original_data rec) /\
      rr_hop_number rec = Z.of_nat j + 1 /\
      rr_generation_method rec = receiver_measured /\
      rr_amplitude rec =
        (sr_amplitude (original_data rec) *
         (1 + Py.uniform (- noise_level) noise_level (random (2 * j + drawn)%nat)))%float /\
      rr_energy rec =
        (sr_energy (original_data rec) *
         (1 + Py.uniform (- noise_level) noise_level (random (2 * j + drawn)%nat)))%float /\
      rr_time_ms rec =
        (sr_time_ms (original_data rec) +
         Py.uniform (-0.05) 0.05 (random (S (2 * j + drawn))))%float /\
      validation rec = fst (validate_signal self (rr_amplitude rec) (rr_time_ms rec)) /\
      (v_is_valid (validation rec) = false ->
       freq_result rec = Rejected /\
       frequency_difference rec = infinity /\
       is_match rec = false) /\
      (v_is_valid (validation rec) = true ->
       exists fr,
         freq_result rec = Computed fr /\
         amplitude fr = rr_amplitude rec /\
         time_ms fr = rr_time_ms rec /\
         energy fr = rr_energy rec /\
         k_index fr = Z.of_nat j mod 5 /\
         is_valid fr = negb (is_nan (rr_energy rec)) /\
         (is_valid fr = true -> attempts fr = 1 /\ in_band (frequency fr) = true) /\
         (is_valid fr = false -> attempts fr = 5 /\ frequency fr = 2000%float) /\
         frequency_difference rec = abs (frequency fr - sr_frequency (original_data rec)) /\
         is_match rec = (frequency_difference rec <? 40)%float) /\
      (is_match rec = true -> v_is_valid (validation rec) = true).
Proof.
  intros Hl. unfold simulate_receiver_operation.
  set (reset := set_hop_counter (set_current_k_index self 0) 0).
  pose proof (len_5 _ Hl) as L5.
  destruct (receiver_loop_records random noise_level sender_results 0 reset drawn Hl
              ltac:(cbn; lia)) as (results & E & Len & R).
  exists results, (state_after reset (length sender_results)).
  split; [exact E|]. split; [exact Len|].
  cbn [state_after reset set_hop_counter set_current_k_index sync_key k1_k2_list
       hop_counter current_k_index].
  split; [reflexivity|]. split; [reflexivity|].
  split; [unfold Py.len; lia|]. split; [rewrite L5; reflexivity|].
  intros j rec Hn. destruct (R j rec Hn) as (sd & Hsd & Ej).
  destruct (receive_hop_record random (0 + Z.of_nat j) sd noise_level
              (state_after reset j) (2 * j + drawn)%nat Hl)
    as (rec' & E' & Ho & Hh & _ & Hg & Ha & He & Ht & Hv & Hacc & Hrej).
  rewrite Ej in E'. injection E' as <-.
  change (Py.float_of_int 1) with 1%float in Ha, He.
  rewrite Ho. split; [exact Hsd|]. split; [lia|]. split; [exact Hg|].
  split; [exact Ha|]. split; [exact He|]. split; [exact Ht|]. split; [exact Hv|].
  split; [exact Hrej|]. split.
  - intros V. destruct (Hacc V)
      as (p & fr & _ & F & Fa & Ft & Fe & Fk & Fv & Fn & Fb & Fg & Fd & Fm).
    exists fr. split; [exact F|]. split; [exact Fa|]. split; [exact Ft|].
    split; [exact Fe|]. split.
    { rewrite Fk. cbn [state_after reset set_hop_counter set_current_k_index
                       current_k_index k1_k2_list].
      rewrite L5. reflexivity. }
    split; [exact Fv|]. split.
    { intros T. rewrite T in Fn. split; [exact Fn|]. apply (Fb T). }
    split; [|split; [exact Fd|exact Fm]].
    intros T. rewrite T in Fn. split; [exact Fn|]. apply (Fg T).
  - intros M. destruct (v_is_valid (validation rec)) eqn:V; [reflexivity|].
    destruct (Hrej eq_refl) as (_ & _ & M'). congruence.
Qed.

Lemma receiver_run_witness :
  exists results self',
    simulate_receiver_operation half_stream (fresh 12345 k1_k2_list_12345) 0
        [nominal_record; nominal_record] 0.0099 =
      Some (results, self', (2 * length [nominal_record; nominal_record] + 0)%nat) /\
    length results = length [nominal_record; nominal_record] /\
    sync_key self' = sync_key (fresh 12345 k1_k2_list_12345) /\
    k1_k2_list self' = k1_k2_list (fresh 12345 k1_k2_list_12345) /\
    hop_counter self' = Py.len [nominal_record; nominal_record] /\
    current_k_index self' = Py.len [nominal_record; nominal_record] mod 5 /\
    forall j rec, nth_error results j = Some rec ->
      nth_error [nominal_record; nominal_record] j = Some (original_data rec) /\
      rr_hop_number rec = Z.of_nat j + 1 /\
      rr_generation_method rec = receiver_measured /\
      rr_amplitude rec =
        (sr_amplitude (original_data rec) *
         (1 + Py.uniform (- 0.0099) 0.0099 (half_stream (2 * j + 0)%nat)))%float /\
      rr_energy rec =
        (sr_energy (original_data rec) *
         (1 + Py.uniform (- 0.0099) 0.0099 (half_stream (2 * j + 0)%nat)))%float /\
      rr_time_ms rec =
        (sr_time_ms (original_data rec) +
         Py.uniform (-0.05) 0.05 (half_stream (S (2 * j + 0))))%float /\
      validation rec =
        fst (validate_signal (fresh 12345 k1_k2_list_12345) (rr_amplitude rec)
               (rr_time_ms rec)) /\
      (v_is_valid (validation rec) = false ->
       freq_result rec = Rejected /\
       frequency_difference rec = infinity /\
       is_match rec = false) /\
      (v_is_valid (validation rec) = true ->
       exists fr,
         freq_result rec = Computed fr /\
         amplitude fr = rr_amplitude rec /\
         time_ms fr = rr_time_ms rec /\
         energy fr = rr_energy rec /\
         k_index fr = Z.of_nat j mod 5 /\
         is_valid fr = negb (is_nan (rr_energy rec)) /\
         (is_valid fr = true -> attempts fr = 1 /\ in_band (frequency fr) = true) /\
         (is_valid fr = false -> attempts fr = 5 /\ frequency fr = 2000%float) /\
         frequency_difference rec = abs (frequency fr - sr_frequency (original_data rec)) /\
         is_match rec = (frequency_difference rec <? 40)%float) /\
      (is_match rec = true -> v_is_valid (validation rec) = true).
Proof.
  apply (receiver_run half_stream (fresh 12345 k1_k2_list_12345) 0
           [nominal_record; nominal_record] 0.0099).
  split; [reflexivity|repeat constructor; lia].
Defined.

Lemma fold_min_in : forall t x,
  In (fold_left (fun acc y => if (y <? acc)%float then y else acc) t x) (x :: t).
Proof.
  induction t as [|y t IH]; intros x; cbn [fold_left].
  - left. reflexivity.
  - destruct (IH (if (y <? x)%float then y else x)) as [H|H].
    + destruct (y <? x)%float; [right; left|left]; exact H.
    + right. right. exact H.
Qed.

Lemma fold_max_in : forall t x,
  In (fold_left (fun acc y => if (acc <? y)%float then y else acc) t x) (x :: t).
Proof.
  induction t as [|y t IH]; intros x; cbn [fold_left].
  - left. reflexivity.
  - destruct (IH (if (x <? y)%float then y else x)) as [H|H].
    + destruct (x <? y)%float; [right; left|left]; exact H.
    + right. right. exact H.
Qed.

(** The counts and the sender's figures in a returned aggregate. *)
Lemma calculate_statistics_counts log10 sender_results receiver_results st :
  calculate_statistics log10 sender_results receiver_results = Some st ->
  total_hops (sender st) = Py.len sender_results /\
  valid_hops (sender st) = Py.len (filter sr_is_valid sender_results) /\
  total_receptions (receiver st) = Py.len receiver_results /\
  valid_receptions (receiver st) =
    Py.len (filter (fun r => v_is_valid (validation r)) receiver_results) /\
  successful_matches (receiver st) =
    Py.len (filter is_match
              (filter (fun r => v_is_valid (validation r)) receiver_results)) /\
  validation_rate (receiver st) =
    (if total_receptions (receiver st) =? 0 then 0%float
     else (Py.float_of_int (valid_receptions (receiver st)) /
           Py.float_of_int (total_receptions (receiver st)) * 100)%float) /\
  (filter sr_is_valid sender_results <> [] ->
   In (min_frequency (sender st)) (map sr_frequency (filter sr_is_valid sender_results)) /\
   In (max_frequency (sender st)) (map sr_frequency (filter sr_is_valid sender_results)) /\
   frequency_range (sender st) = (max_frequency (sender st) - min_frequency (sender st))%float /\
   avg_frequency (sender st) =
     (Py.sum (map sr_frequency (filter sr_is_valid sender_results)) /
      Py.float_of_int (valid_hops (sender st)))%float).
Proof.
  unfold calculate_statistics.
  set (sf := map sr_frequency (filter sr_is_valid sender_results)).
  set (vr := filter (fun r => v_is_valid (validation r)) receiver_results).
  destruct (if_nonempty sf (Py.truediv _ _)) as [a|] eqn:E1; [|discriminate].
  destruct (if_nonempty sf (Py.min sf)) as [b|] eqn:E2; [|discriminate].
  destruct (if_nonempty sf (Py.max sf)) as [c|] eqn:E3; [|discriminate].
  destruct (if_nonempty sf (sub_opt _ _)) as [d|] eqn:E4; [|discriminate].
  destruct (if_nonempty receiver_results (mul100_opt (Py.int_truediv (Py.len (filter is_match vr)) _)))
    as [s1|] eqn:E5; [|discriminate].
  destruct (if_nonempty receiver_results (mul100_opt (Py.int_truediv (Py.len vr) _)))
    as [s2|] eqn:E6; [|discriminate].
  intros H. injection H as <-.
  cbn [sender receiver avg_frequency min_frequency max_frequency frequency_range
       total_hops valid_hops total_receptions valid_receptions successful_matches
       validation_rate].
  split; [reflexivity|].
  split; [subst sf; unfold Py.len; rewrite length_map; reflexivity|].
  do 3 (split; [reflexivity|]). split.
  - destruct receiver_results as [|x t].
    + cbn [if_nonempty] in E6. injection E6 as <-. reflexivity.
    + cbn [if_nonempty] in E6. unfold Py.int_truediv in E6.
      destruct (Z.eqb_spec (Py.len (x :: t)) 0) as [Q|Q];
        [unfold Py.len in Q; cbn [length] in Q; lia|].
      cbn [mul100_opt] in E6. injection E6 as <-. reflexivity.
  - intros Hne. destruct sf as [|x t] eqn:Es.
    + exfalso. apply Hne. subst sf. apply map_eq_nil in Es. exact Es.
    + cbn [if_nonempty Py.min Py.max sub_opt] in E1, E2, E3, E4.
      injection E2 as <-. injection E3 as <-. injection E4 as <-.
      split; [apply fold_min_in|]. split; [apply fold_max_in|]. split; [reflexivity|].
      unfold Py.truediv in E1.
      destruct (Py.float_of_int (Py.len (x :: t)) =? 0)%float; [discriminate|].
      injection E1 as <-. reflexivity.
Qed.



Lemma filter_all {A} (f : A -> bool) (l : list A) :
  (forall x, In x l -> f x = true) -> filter f l = l.
Proof.
  induction l as [|x t IH]; intros H; cbn [filter]; [reflexivity|].
  rewrite (H x (or_introl eq_refl)). f_equal. apply IH.
  intros y Hy. apply H. right. exact Hy.
Qed.

(** X13.  The simulation end to end, as [main] chains it: construction, the
    sender's run, the receiver's replay of its records, the statistics.  With
    [randint] values in [1000, 3000], draws in [0, 1) and a hop count a
    process can hold, no step raises, at any noise level; the sender consumes
    one draw per hop and the receiver two; the replay ends in the very state
    the sender's run ended in; every sender hop counts as valid, there is
    one reception per hop, and the minimum and maximum frequency reported lie
    in the band. *)
Theorem simulation_pipeline (log10 : float -> float) (randint : nat -> Z)
    (random : nat -> float) (key hop_count : Z) (noise_level : float) :
  (forall n, (n < 5)%nat -> 1000 <= randint n <= 3000) ->
  (forall n, (0 <=? random n)%float = true /\ (random n <? 1)%float = true) ->
  0 <= hop_count <= maxsize ->
  exists sender_results sself receiver_results rself st,
    simulate_sender_operation random (__init__ key randint) 0 hop_count =
      Some (sender_results, sself, Z.to_nat hop_count) /\
    simulate_receiver_operation random sself (Z.to_nat hop_count) sender_results noise_level =
      Some (receiver_results, rself, (3 * Z.to_nat hop_count)%nat) /\
    calculate_statistics log10 sender_results receiver_results = Some st /\
    rself = sself /\
    hop_counter sself = hop_count /\
    current_k_index sself = hop_count mod 5 /\
    total_hops (sender st) = hop_count /\
    valid_hops (sender st) = hop_count /\
    total_receptions (receiver st) = hop_count /\
    successful_matches (receiver st) <= valid_receptions (receiver st) <= hop_count /\
    (0 < hop_count ->
     in_band (min_frequency (sender st)) = true /\
     in_band (max_frequency (sender st)) = true).
Proof.
  intros Hr U Hh.
  set (init := __init__ key randint).
  pose proof (init_list_ok key randint Hr) as Hl. fold init in Hl.
  pose proof (len_5 _ Hl) as L5.
  set (n := Z.to_nat hop_count).
  unfold simulate_sender_operation, simulate_receiver_operation. fold n.
  destruct (sender_loop_records random U n 0 init 0%nat Hl ltac:(cbn; lia))
    as (sres & Es & Ls & Rs).
  rewrite Nat.add_0_r in Es.
  set (sself := state_after init n) in *.
  destruct (receiver_loop_records random noise_level sres 0 init n Hl ltac:(cbn; lia))
    as (rres & Er & Lr & Rr).
  rewrite Ls in Er. fold sself in Er.
  replace (2 * n + n)%nat with (3 * n)%nat in Er by lia.
  assert (Va : forall r, In r sres -> sr_is_valid r = true /\ in_band (sr_frequency r) = true).
  { intros r Hin. apply In_nth_error in Hin. destruct Hin as [j Hj].
    specialize (Rs j r Hj). cbv zeta in Rs. tauto. }
  assert (Fa : filter sr_is_valid sres = sres).
  { apply filter_all. intros r Hin. apply (Va r Hin). }
  assert (Lz : Py.len sres = hop_count) by (unfold Py.len; rewrite Ls; lia).
  destruct (calculate_statistics_total log10 sres rres) as [st E].
  { rewrite Fa, Lz. lia. }
  destruct (calculate_statistics_counts log10 _ _ st E) as (T & V & R & Vr & M & _ & F).
  exists sres, sself, rres, sself, st.
  split; [exact Es|]. split; [exact Er|]. split; [exact E|]. split; [reflexivity|].
  split; [cbn; lia|].
  split.
  { change (current_k_index sself)
      with ((0 + Z.of_nat n) mod Py.len (k1_k2_list init)).
    rewrite L5. f_equal. lia. }
  split; [rewrite T; exact Lz|]. split; [rewrite V, Fa; exact Lz|].
  assert (Lrz : Py.len rres = hop_count) by (unfold Py.len; rewrite Lr, Ls; lia).
  split; [rewrite R; exact Lrz|].
  split.
  { rewrite M, Vr, <- Lrz. split; apply filter_len_le. }
  intros P.
  assert (Hne : filter sr_is_valid sres <> []).
  { rewrite Fa. intros Q. rewrite Q in Lz. cbn in Lz. lia. }
  destruct (F Hne) as (Imin & Imax & _). rewrite Fa in Imin, Imax.
  apply in_map_iff in Imin. destruct Imin as (r1 & <- & I1).
  apply in_map_iff in Imax. destruct Imax as (r2 & <- & I2).
  split; [apply (Va r1 I1)|apply (Va r2 I2)].
Qed.

Lemma simulation_pipeline_witness :
  exists sender_results sself receiver_results rself st,
    simulate_sender_operation half_stream
        (__init__ 12345 (fun n => 3000 - 400 * Z.of_nat n)) 0 15 =
      Some (sender_results, sself, Z.to_nat 15) /\
    simulate_receiver_operation half_stream sself (Z.to_nat 15) sender_results 0.0099 =
      Some (receiver_results, rself, (3 * Z.to_nat 15)%nat) /\
    calculate_statistics (fun x => x) sender_results receiver_results = Some st /\
    rself = sself /\
    hop_counter sself = 15 /\
    current_k_index sself = 15 mod 5 /\
    total_hops (sender st) = 15 /\
    valid_hops (sender st) = 15 /\
    total_receptions (receiver st) = 15 /\
    successful_matches (receiver st) <= valid_receptions (receiver st) <= 15 /\
    (0 < 15 ->
     in_band (min_frequency (sender st)) = true /\
     in_band (max_frequency (sender st)) = true).
Proof.
  apply (simulation_pipeline (fun x => x) (fun n => 3000 - 400 * Z.of_nat n)
           half_stream 12345 15 0.0099).
  - intros n Hn. lia.
  - intros n. split; reflexivity.
  - split; [lia|vm_compute; discriminate].
Defined.

(** * Bounds on the simulated values *)

(** ** Rounding keeps bounds that lie on the grid *)

Lemma shr_1_exact mrs :
  0 <= shr_m mrs -> shr_r mrs = false -> shr_s mrs = false ->
  (2 | shr_m mrs) ->
  shr_r (shr_1 mrs) = false /\ shr_s (shr_1 mrs) = false.
Proof.
  destruct mrs as [m r s]. cbn [shr_m shr_r shr_s]. intros H -> -> [c Hc].
  destruct m as [|[p|p|]|p]; cbn [shr_1 shr_r shr_s orb]; try lia; auto.
Qed.

Lemma pow2_pos k : 0 < 2 ^ Zpos k.
Proof. apply Z.pow_pos_nonneg; lia. Qed.

Lemma iter_shr_1_exact (p : positive) : forall mrs,
  0 <= shr_m mrs -> shr_r mrs = false -> shr_s mrs = false ->
  (2 ^ Zpos p | shr_m mrs) ->
  shr_r (iter_pos shr_1 p mrs) = false /\ shr_s (iter_pos shr_1 p mrs) = false.
Proof.
  induction p as [p IH|p IH|]; intros mrs H Hr Hs [c Hc]; cbn [iter_pos].
  - pose proof (pow2_pos p) as P.
    assert (E : shr_m mrs = c * 2 ^ Zpos p * 2 ^ Zpos p * 2).
    { rewrite Hc. replace (Zpos p~1) with (Zpos p + Zpos p + 1) by lia.
      rewrite !Z.pow_add_r by lia. change (2 ^ 1) with 2. ring. }
    assert (C0 : 0 <= c) by nia.
    destruct (shr_1_exact mrs H Hr Hs) as [R1 S1].
    { exists (c * 2 ^ Zpos p * 2 ^ Zpos p). rewrite E. ring. }
    assert (M1 : shr_m (shr_1 mrs) = c * 2 ^ Zpos p * 2 ^ Zpos p).
    { rewrite shr_1_m by assumption. rewrite E. apply Z.div_mul. lia. }
    assert (H1 : 0 <= shr_m (shr_1 mrs)) by (rewrite M1; nia).
    destruct (IH (shr_1 mrs) H1 R1 S1) as [R2 S2].
    { exists (c * 2 ^ Zpos p). rewrite M1. ring. }
    assert (M2 : shr_m (iter_pos shr_1 p (shr_1 mrs)) = c * 2 ^ Zpos p).
    { rewrite iter_shr_1_m by assumption. rewrite M1. apply Z.div_mul. lia. }
    apply IH; try assumption; [rewrite M2; nia|].
    exists c. rewrite M2. reflexivity.
  - pose proof (pow2_pos p) as P.
    assert (E : shr_m mrs = c * 2 ^ Zpos p * 2 ^ Zpos p).
    { rewrite Hc. replace (Zpos p~0) with (Zpos p + Zpos p) by lia.
      rewrite !Z.pow_add_r by lia. ring. }
    assert (C0 : 0 <= c) by nia.
    destruct (IH mrs H Hr Hs) as [R2 S2].
    { exists (c * 2 ^ Zpos p). rewrite E. ring. }
    assert (M2 : shr_m (iter_pos shr_1 p mrs) = c * 2 ^ Zpos p).
    { rewrite iter_shr_1_m by assumption. rewrite E. apply Z.div_mul. lia. }
    apply IH; try assumption; [rewrite M2; nia|].
    exists c. rewrite M2. reflexivity.
  - apply shr_1_exact; try assumption. exists c. exact Hc.
Qed.

(** An exact mantissa that the shift divides exactly is not rounded. *)
Lemma shr_fexp_exact m e :
  0 <= m ->
  (2 ^ (Z.max e (fexp prec emax (Zdigits2 m + e)) - e) | m) ->
  exists mrs,
    shr_fexp prec emax m e loc_Exact =
      (mrs, Z.max e (fexp prec emax (Zdigits2 m + e))) /\
    shr_m mrs = m / 2 ^ (Z.max e (fexp prec emax (Zdigits2 m + e)) - e) /\
    loc_of_shr_record mrs = loc_Exact.
Proof.
  intros Hm D. unfold shr_fexp, shr.
  set (f := fexp prec emax (Zdigits2 m + e)) in *.
  destruct (f - e) as [|p|p] eqn:E.
  - exists (shr_record_of_loc m loc_Exact). replace (Z.max e f) with e by lia.
    rewrite Z.sub_diag, shr_record_of_loc_m, Z.div_1_r. auto.
  - exists (iter_pos shr_1 p (shr_record_of_loc m loc_Exact)).
    replace (Z.max e f) with (e + Zpos p) in * by lia.
    replace (e + Zpos p - e) with (Zpos p) in * by lia.
    rewrite iter_shr_1_m by (rewrite shr_record_of_loc_m; assumption).
    rewrite shr_record_of_loc_m. split; [reflexivity|]. split; [reflexivity|].
    destruct (iter_shr_1_exact p (shr_record_of_loc m loc_Exact)) as [R S];
      try reflexivity; try assumption.
    destruct (iter_pos shr_1 p (shr_record_of_loc m loc_Exact)) as [m' r' s'].
    cbn [shr_r shr_s] in R, S. subst. reflexivity.
  - exists (shr_record_of_loc m loc_Exact). replace (Z.max e f) with e by lia.
    rewrite Z.sub_diag, shr_record_of_loc_m, Z.div_1_r. auto.
Qed.

(** The shape of the rounding of an exact value: as [binary_round_aux_spec],
    and the mantissa is kept when the shift divides it. *)
Lemma binary_round_aux_exact s m e :
  0 <= m ->
  exists m2 e1,
    e1 = Z.max e (fexp prec emax (Zdigits2 m + e)) /\
    m / 2 ^ (e1 - e) <= m2 <= m / 2 ^ (e1 - e) + 1 /\
    ((2 ^ (e1 - e) | m) -> m2 = m / 2 ^ (e1 - e)) /\
    binary_round_aux prec emax s m e loc_Exact =
      let e2 := Z.max e1 (fexp prec emax (Zdigits2 m2 + e1)) in
      match m2 / 2 ^ (e2 - e1) with
      | Z0 => S754_zero s
      | Zpos p => if e2 <=? emax - prec then S754_finite s p e2 else S754_infinity s
      | Zneg _ => S754_nan
      end.
Proof.
  intros Hm. unfold binary_round_aux.
  destruct (shr_fexp_spec m e loc_Exact Hm) as (mrs1 & E1 & M1). rewrite E1.
  set (e1 := Z.max e (fexp prec emax (Zdigits2 m + e))) in *.
  set (m2 := round_nearest_even (shr_m mrs1) (loc_of_shr_record mrs1)).
  assert (B2 : shr_m mrs1 <= m2 <= shr_m mrs1 + 1) by apply round_nearest_even_bounds.
  assert (H1 : 0 <= shr_m mrs1) by (rewrite M1; apply Z.div_pos; lia).
  assert (H2 : 0 <= m2) by lia.
  destruct (shr_fexp_spec m2 e1 loc_Exact H2) as (mrs2 & E2 & M2). rewrite E2.
  exists m2, e1. split; [reflexivity|]. split; [rewrite <- M1; exact B2|].
  split.
  - intros D. destruct (shr_fexp_exact m e Hm D) as (mrs1' & E1' & M1' & L1').
    fold e1 in E1', M1'. rewrite E1 in E1'. injection E1' as <-.
    subst m2. rewrite L1'. cbn [round_nearest_even]. exact M1.
  - cbv zeta. rewrite M2. reflexivity.
Qed.

Lemma pow2_gt0 k : 0 <= k -> 0 < 2 ^ k.
Proof. intros H. apply Z.pow_pos_nonneg; lia. Qed.

Lemma pow2_add a b : 0 <= a -> 0 <= b -> 2 ^ (a + b) = 2 ^ a * 2 ^ b.
Proof. intros. apply Z.pow_add_r; assumption. Qed.

(** Dividing by a power of two keeps integer bounds that are multiples of
    it; [mr] is the floor or, unless the division is exact, the floor plus
    one. *)
Lemma div_between m mr P lo hi :
  0 < P -> lo * P <= m <= hi * P ->
  m / P <= mr <= m / P + 1 ->
  ((P | m) -> mr = m / P) ->
  lo <= mr <= hi.
Proof.
  intros HP [Hlo Hhi] [M1 M2] X.
  assert (Lf : lo <= m / P) by (apply Z.div_le_lower_bound; lia).
  split; [lia|].
  destruct (Z.eq_dec (m mod P) 0) as [D|D].
  - rewrite X by (apply Z.mod_divide; [lia|exact D]).
    apply Z.div_le_upper_bound; lia.
  - assert (m / P < hi); [|lia].
    destruct (Z_lt_le_dec (m / P) hi) as [|G]; [assumption|exfalso].
    pose proof (Z.mul_div_le m P HP) as F.
    assert (E : m = hi * P) by nia.
    apply D. rewrite E. apply Z.mod_mul. lia.
Qed.

Lemma below_pow2 m P hi k :
  0 < P -> 0 <= k -> m <= hi * P -> hi < 2 ^ 53 -> P = 2 ^ k -> m < 2 ^ (53 + k).
Proof.
  intros HP Hk Hm Hh ->. rewrite pow2_add by lia.
  assert (hi * 2 ^ k < 2 ^ 53 * 2 ^ k) by (apply Z.mul_lt_mono_pos_r; assumption).
  lia.
Qed.

(** Rounding an exact non-negative value [m * 2 ^ e] that lies between two
    multiples [lo * 2 ^ q] and [hi * 2 ^ q] of a coarser grid gives a zero or
    a finite number between the same two multiples; there is no overflow. *)
Lemma binary_round_aux_between (s : bool) m e q lo hi :
  0 <= m -> e <= q -> -1074 <= q <= 971 -> 0 <= lo -> hi < 2 ^ 53 ->
  lo * 2 ^ (q - e) <= m <= hi * 2 ^ (q - e) ->
  between q (if s then - hi else lo) (if s then - lo else hi)
          (binary_round_aux prec emax s m e loc_Exact) /\
  has_sign s (binary_round_aux prec emax s m e loc_Exact).
Proof.
  intros Hm He Hq Hlo Hhi B.
  destruct (binary_round_aux_exact s m e Hm) as (m2 & e1 & E1 & B1 & X1 & ->).
  cbv zeta. rewrite !fexp_def in *.
  assert (Pe : 0 < 2 ^ (q - e)) by (apply pow2_gt0; lia).
  assert (D1 : Zdigits2 m <= 53 + (q - e)).
  { apply Zdigits2_le; try lia. apply (below_pow2 m (2 ^ (q - e)) hi); try lia. }
  assert (He1 : e <= e1 <= q) by lia.
  set (k := e1 - e) in *.
  assert (Pk : 0 < 2 ^ k) by (apply pow2_gt0; lia).
  assert (P1 : 0 < 2 ^ (q - e1)) by (apply pow2_gt0; lia).
  assert (S1 : 2 ^ (q - e) = 2 ^ (q - e1) * 2 ^ k).
  { rewrite <- pow2_add by lia. f_equal. lia. }
  assert (B2 : lo * 2 ^ (q - e1) <= m2 <= hi * 2 ^ (q - e1)).
  { apply (div_between m m2 (2 ^ k)); try assumption.
    rewrite S1 in B. lia. }
  assert (Hm2 : 0 <= m2) by nia.
  assert (D2 : Zdigits2 m2 <= 53 + (q - e1)).
  { apply Zdigits2_le; try lia. apply (below_pow2 m2 (2 ^ (q - e1)) hi); try lia. }
  set (e2 := Z.max e1 (Z.max (Zdigits2 m2 + e1 - 53) (-1074))).
  assert (He2 : e1 <= e2 <= q) by lia.
  set (j := e2 - e1) in *.
  assert (Pj : 0 < 2 ^ j) by (apply pow2_gt0; lia).
  assert (P2 : 0 < 2 ^ (q - e2)) by (apply pow2_gt0; lia).
  assert (S2 : 2 ^ (q - e1) = 2 ^ (q - e2) * 2 ^ j).
  { rewrite <- pow2_add by lia. f_equal. lia. }
  assert (B3 : lo * 2 ^ (q - e2) <= m2 / 2 ^ j <= hi * 2 ^ (q - e2)).
  { rewrite S2 in B2. split.
    - apply Z.div_le_lower_bound; lia.
    - apply Z.div_le_upper_bound; lia. }
  destruct (m2 / 2 ^ j) as [|p|p] eqn:M.
  - cbn [between has_sign]. split; [|reflexivity].
    destruct s; nia.
  - assert (O : (e2 <=? emax - prec) = true).
    { apply Z.leb_le. change (emax - prec) with 971. lia. }
    rewrite O. cbn [between has_sign cond_Zopp]. split; [|reflexivity].
    split; [lia|]. destruct s; cbn [cond_Zopp]; lia.
  - exfalso. assert (0 <= lo * 2 ^ (q - e2)) by nia. lia.
Qed.

(** ** Bounds through the operations *)

Lemma between_mono q lo hi lo' hi' x :
  lo' <= lo -> hi <= hi' -> between q lo hi x -> between q lo' hi' x.
Proof.
  intros Hl Hh. destruct x as [s|s| |s m e]; cbn [between]; try tauto; [lia|].
  intros (He & B1 & B2). split; [exact He|].
  assert (P : 0 < 2 ^ (q - e)) by (apply pow2_gt0; lia).
  split; nia.
Qed.

(** A number with a positive lower bound is finite and positive. *)
Lemma between_pos q lo hi x :
  0 < lo -> between q lo hi x ->
  exists m e, x = S754_finite false m e /\ e <= q /\
              lo * 2 ^ (q - e) <= Zpos m <= hi * 2 ^ (q - e).
Proof.
  intros Hl. destruct x as [s|s| |s m e]; cbn [between]; try tauto; [lia|].
  intros (He & B1 & B2).
  assert (P : 0 < 2 ^ (q - e)) by (apply pow2_gt0; lia).
  destruct s; cbn [cond_Zopp] in *; [exfalso; nia|].
  exists m, e. auto.
Qed.

(** The product of two non-negative numbers. *)
Lemma SFmul_between q lx hx ly hy lo hi x y :
  between q lx hx x -> between q ly hy y ->
  0 <= lx -> 0 <= ly -> -1074 <= q <= 0 -> 0 <= lo -> hi < 2 ^ 53 ->
  lo * 2 ^ (- q) <= lx * ly -> hx * hy <= hi * 2 ^ (- q) ->
  between q lo hi (SFmul prec emax x y).
Proof.
  intros Bx By Hlx Hly Hq Hlo Hhi L U.
  assert (Pq : 0 < 2 ^ (- q)) by (apply pow2_gt0; lia).
  destruct x as [sx|sx| |sx mx ex], y as [sy|sy| |sy my ey];
    cbn [between] in Bx, By; try tauto; cbn [SFmul between].
  - nia.
  - assert (0 <= hy).
    { destruct By as (He & B1 & B2).
      assert (P : 0 < 2 ^ (q - ey)) by (apply pow2_gt0; lia).
      destruct sy; cbn [cond_Zopp] in *; nia. }
    nia.
  - assert (0 <= hx).
    { destruct Bx as (He & B1 & B2).
      assert (P : 0 < 2 ^ (q - ex)) by (apply pow2_gt0; lia).
      destruct sx; cbn [cond_Zopp] in *; nia. }
    nia.
  - destruct Bx as (Hex & X1 & X2). destruct By as (Hey & Y1 & Y2).
    assert (Px : 0 < 2 ^ (q - ex)) by (apply pow2_gt0; lia).
    assert (Py : 0 < 2 ^ (q - ey)) by (apply pow2_gt0; lia).
    destruct sx; cbn [cond_Zopp] in X1, X2; [exfalso; nia|].
    destruct sy; cbn [cond_Zopp] in Y1, Y2; [exfalso; nia|].
    cbn [xorb].
    assert (S : 2 ^ (q - (ex + ey)) = 2 ^ (- q) * (2 ^ (q - ex) * 2 ^ (q - ey))).
    { rewrite <- !pow2_add by lia. f_equal. lia. }
    set (A := 2 ^ (q - ex)) in *. set (B := 2 ^ (q - ey)) in *.
    assert (M1 : lx * A * (ly * B) <= Zpos mx * Zpos my)
      by (apply Z.mul_le_mono_nonneg; nia).
    assert (M2 : Zpos mx * Zpos my <= hx * A * (hy * B))
      by (apply Z.mul_le_mono_nonneg; lia).
    assert (AB : 0 < A * B) by nia.
    destruct (binary_round_aux_between false (Zpos (mx * my)) (ex + ey) q lo hi)
      as [R _]; try lia.
    + rewrite Pos2Z.inj_mul, S. split.
      * apply Z.le_trans with (lx * ly * (A * B)); [|lia].
        replace (lo * (2 ^ (- q) * (A * B))) with (lo * 2 ^ (- q) * (A * B)) by ring.
        apply Z.mul_le_mono_nonneg_r; lia.
      * apply Z.le_trans with (hx * hy * (A * B)); [lia|].
        replace (hi * (2 ^ (- q) * (A * B))) with (hi * 2 ^ (- q) * (A * B)) by ring.
        apply Z.mul_le_mono_nonneg_r; lia.
    + exact R.
Qed.

Lemma cond_Zopp_mul s m k : cond_Zopp s (m * k) = cond_Zopp s m * k.
Proof. destruct s; cbn [cond_Zopp]; ring. Qed.

(** The rounding of a signed exact value. *)
Lemma binary_normalize_between m e q lo hi :
  e <= q -> -1074 <= q <= 971 -> - 2 ^ 53 < lo -> hi < 2 ^ 53 ->
  lo * 2 ^ (q - e) <= m <= hi * 2 ^ (q - e) ->
  between q lo hi (binary_normalize prec emax m e false).
Proof.
  intros He Hq Hlo Hhi B.
  assert (Pe : 0 < 2 ^ (q - e)) by (apply pow2_gt0; lia).
  destruct m as [|p|p]; cbn [binary_normalize].
  - cbn [between]. nia.
  - unfold binary_round.
    destruct (shl_align_spec p e (fexp prec emax (Zpos (digits2_pos p) + e))) as [E1 E2].
    destruct (shl_align p e (fexp prec emax (Zpos (digits2_pos p) + e))) as [mz ez].
    cbn [fst snd] in E1, E2.
    assert (Hez : ez <= e) by lia.
    assert (Pz : 0 < 2 ^ (e - ez)) by (apply pow2_gt0; lia).
    assert (S : 2 ^ (q - ez) = 2 ^ (q - e) * 2 ^ (e - ez)).
    { rewrite <- pow2_add by lia. f_equal. lia. }
    destruct (binary_round_aux_between false (Zpos mz) ez q (Z.max lo 0) hi)
      as [R _]; try lia.
    + rewrite E2, S. rewrite <- E1.
      replace (e - Z.min e (fexp prec emax (Zpos (digits2_pos p) + e)))
        with (e - ez) by lia.
      split; [|nia].
      destruct (Z.max_spec lo 0) as [[_ ->]|[_ ->]]; nia.
    + apply (between_mono q (Z.max lo 0) hi); [lia|lia|exact R].
  - unfold binary_round.
    destruct (shl_align_spec p e (fexp prec emax (Zpos (digits2_pos p) + e))) as [E1 E2].
    destruct (shl_align p e (fexp prec emax (Zpos (digits2_pos p) + e))) as [mz ez].
    cbn [fst snd] in E1, E2.
    assert (Hez : ez <= e) by lia.
    assert (Pz : 0 < 2 ^ (e - ez)) by (apply pow2_gt0; lia).
    assert (S : 2 ^ (q - ez) = 2 ^ (q - e) * 2 ^ (e - ez)).
    { rewrite <- pow2_add by lia. f_equal. lia. }
    destruct (binary_round_aux_between true (Zpos mz) ez q (Z.max (- hi) 0) (- lo))
      as [R _]; try lia.
    + rewrite E2, S. rewrite <- E1.
      replace (e - Z.min e (fexp prec emax (Zpos (digits2_pos p) + e)))
        with (e - ez) by lia.
      split; [|nia].
      destruct (Z.max_spec (- hi) 0) as [[_ ->]|[_ ->]]; nia.
    + apply (between_mono q (- - lo) (- Z.max (- hi) 0)); [lia|lia|exact R].
Qed.

(** The sum of two numbers, of any signs. *)
Lemma SFadd_between q lx hx ly hy x y :
  between q lx hx x -> between q ly hy y ->
  -1074 <= q <= 971 -> - 2 ^ 53 < lx + ly -> hx + hy < 2 ^ 53 ->
  between q (lx + ly) (hx + hy) (SFadd prec emax x y).
Proof.
  intros Bx By Hq Hlo Hhi.
  destruct x as [sx|sx| |sx mx ex], y as [sy|sy| |sy my ey];
    cbn [between] in Bx, By; try tauto; cbn [SFadd].
  - destruct sx, sy; cbn [between]; lia.
  - apply (between_mono q ly hy); [lia|lia|exact By].
  - apply (between_mono q lx hx); [lia|lia|exact Bx].
  - destruct Bx as (Hex & X1 & X2). destruct By as (Hey & Y1 & Y2).
    set (ez := Z.min ex ey).
    destruct (shl_align_spec mx ex ez) as [_ Ex].
    destruct (shl_align_spec my ey ez) as [_ Ey].
    replace (Z.min ex ez) with ez in Ex by lia.
    replace (Z.min ey ez) with ez in Ey by lia.
    rewrite Ex, Ey.
    assert (Px : 0 < 2 ^ (ex - ez)) by (apply pow2_gt0; lia).
    assert (Py : 0 < 2 ^ (ey - ez)) by (apply pow2_gt0; lia).
    assert (Sx : 2 ^ (q - ez) = 2 ^ (q - ex) * 2 ^ (ex - ez)).
    { rewrite <- pow2_add by lia. f_equal. lia. }
    assert (Sy : 2 ^ (q - ez) = 2 ^ (q - ey) * 2 ^ (ey - ez)).
    { rewrite <- pow2_add by lia. f_equal. lia. }
    apply binary_normalize_between; try lia.
    rewrite !cond_Zopp_mul.
    split.
    + rewrite Z.mul_add_distr_r. apply Z.add_le_mono.
      * rewrite Sx. nia.
      * rewrite Sy. nia.
    + rewrite Z.mul_add_distr_r. apply Z.add_le_mono.
      * rewrite Sx. nia.
      * rewrite Sy. nia.
Qed.

(** ** Bounds on binary64 values *)

(** The exponent of a binary64 number is the canonical one. *)
Lemma valid_canonical (x : float) s m e :
  Prim2SF x = S754_finite s m e ->
  Z.max (Zpos (digits2_pos m) + e - 53) (-1074) = e.
Proof.
  intros H. pose proof (Prim2SF_valid x) as V. rewrite H in V.
  cbn [SpecFloat.valid_binary] in V. unfold bounded, canonical_mantissa in V.
  apply andb_prop in V. destruct V as [V _]. apply Z.eqb_eq in V.
  rewrite fexp_def in V. exact V.
Qed.

Lemma mul_between q lx hx ly hy lo hi x y :
  between q lx hx (Prim2SF x) -> between q ly hy (Prim2SF y) ->
  0 <= lx -> 0 <= ly -> -1074 <= q <= 0 -> 0 <= lo -> hi < 2 ^ 53 ->
  lo * 2 ^ (- q) <= lx * ly -> hx * hy <= hi * 2 ^ (- q) ->
  between q lo hi (Prim2SF (x * y)).
Proof. intros. rewrite mul_spec. apply (SFmul_between q lx hx ly hy); assumption. Qed.

Lemma add_between q lx hx ly hy x y :
  between q lx hx (Prim2SF x) -> between q ly hy (Prim2SF y) ->
  -1074 <= q <= 971 -> - 2 ^ 53 < lx + ly -> hx + hy < 2 ^ 53 ->
  between q (lx + ly) (hx + hy) (Prim2SF (x + y)).
Proof. intros. rewrite add_spec. apply SFadd_between; assumption. Qed.

(** Halving a positive normal number is exact. *)
Lemma SFdiv_core_two m e :
  Zpos (digits2_pos m) = 53 -> -1072 <= e ->
  SFdiv_core_binary prec emax (Zpos m) e 4503599627370496 (-51) =
  (2 * Zpos m, e - 2, loc_Exact).
Proof.
  intros D He. unfold SFdiv_core_binary. rewrite fexp_def.
  cbn [Zdigits2]. rewrite D.
  change (Zpos (digits2_pos 4503599627370496)) with 53.
  replace (Z.min (Z.max (53 + e - (53 + -51) - 53) (-1074)) (e - -51)) with (e - 2) by lia.
  replace (e - -51 - (e - 2)) with 53 by lia.
  rewrite Z.shiftl_mul_pow2 by lia.
  pose proof (Z_div_mod (Zpos m * 2 ^ 53) 4503599627370496 eq_refl) as Q.
  destruct (Z.div_eucl (Zpos m * 2 ^ 53) 4503599627370496) as [q0 r0].
  change (2 ^ 53) with 9007199254740992 in Q.
  destruct Q as [Q1 Q2].
  assert (q0 = 2 * Zpos m) by lia. assert (r0 = 0) by lia. subst q0 r0.
  reflexivity.
Qed.

Lemma div_two_between q lx hx lo hi x :
  between q lx hx (Prim2SF x) ->
  0 < lx -> -1000 <= q <= 971 -> 0 <= lo -> hi < 2 ^ 53 ->
  2 * lo <= lx -> hx <= 2 * hi ->
  between q lo hi (Prim2SF (x / 2)).
Proof.
  intros B Hl Hq Hlo Hhi L U.
  destruct (between_pos q lx hx _ Hl B) as (m & e & E & He & B1 & B2).
  pose proof (valid_canonical x _ _ _ E) as C.
  pose proof (digits2_pos_upper m) as Du.
  assert (P : 0 < 2 ^ (q - e)) by (apply pow2_gt0; lia).
  assert (Dq : q - e < Zpos (digits2_pos m)).
  { apply (Z.pow_lt_mono_r_iff 2); nia. }
  assert (D : Zpos (digits2_pos m) = 53) by lia.
  rewrite div_spec, E. change (Prim2SF 2) with (S754_finite false 4503599627370496 (-51)).
  unfold SF64div. cbn [SFdiv]. rewrite SFdiv_core_two by lia. cbn [xorb].
  destruct (binary_round_aux_between false (2 * Zpos m) (e - 2) q lo hi) as [R _];
    try lia.
  - replace (q - (e - 2)) with (q - e + 2) by lia.
    rewrite pow2_add by lia. change (2 ^ 2) with 4. nia.
  - exact R.
Qed.

(** A bound on the grid decides a comparison. *)
Lemma leb_between q lc hc lx hx c x :
  between q lc hc (Prim2SF c) -> between q lx hx (Prim2SF x) ->
  0 < lc -> hc <= lx ->
  (c <=? x)%float = true.
Proof.
  intros Bc Bx Hc H.
  destruct (between_pos q lc hc _ Hc Bc) as (mc & ec & Ec & Hec & C1 & C2).
  assert (Pc : 0 < 2 ^ (q - ec)) by (apply pow2_gt0; lia).
  assert (Hx : 0 < lx) by nia.
  destruct (between_pos q lx hx _ Hx Bx) as (mx & ex & Ex & Hex & X1 & X2).
  assert (Px : 0 < 2 ^ (q - ex)) by (apply pow2_gt0; lia).
  pose proof (valid_canonical c _ _ _ Ec) as Vc.
  pose proof (valid_canonical x _ _ _ Ex) as Vx.
  pose proof (valid_digits x _ _ _ Ex) as Dx.
  rewrite leb_compare, Ec, Ex. cbn [SFcompare].
  destruct (Z.compare_spec ec ex) as [Q|Q|Q]; [|reflexivity|exfalso].
  - subst ex.
    assert (Hm : (mc <= mx)%positive) by nia.
    unfold Pos.le in Hm. change (Pos.compare_cont Eq mc mx) with (mc ?= mx)%positive.
    destruct (mc ?= mx)%positive; [reflexivity|reflexivity|contradiction Hm; reflexivity].
  - assert (Dc : Zpos (digits2_pos mc) = 53) by lia.
    pose proof (digits2_pos_lower mc) as Lc. rewrite Dc in Lc.
    pose proof (digits2_pos_upper mx) as Ux.
    assert (Ux' : Zpos mx < 2 ^ 53).
    { apply Z.lt_le_trans with (2 ^ Zpos (digits2_pos mx)); [exact Ux|].
      apply Z.pow_le_mono_r; lia. }
    assert (Pd : 2 <= 2 ^ (ec - ex)).
    { change 2 with (2 ^ 1) at 1. apply Z.pow_le_mono_r; lia. }
    assert (S : 2 ^ (q - ex) = 2 ^ (q - ec) * 2 ^ (ec - ex)).
    { rewrite <- pow2_add by lia. f_equal. lia. }
    change (2 ^ (53 - 1)) with 4503599627370496 in Lc.
    change (2 ^ 53) with 9007199254740992 in Ux'.
    rewrite S in X1.
    assert (hc * 2 ^ (q - ec) * 2 ^ (ec - ex) <= lx * (2 ^ (q - ec) * 2 ^ (ec - ex))) by nia.
    assert (Zpos mc * 2 <= Zpos mc * 2 ^ (ec - ex)) by nia.
    assert (Zpos mc * 2 ^ (ec - ex) <= hc * 2 ^ (q - ec) * 2 ^ (ec - ex)) by nia.
    lia.
Qed.

(** A value drawn by [random.random()] is between 0 and 1. *)
Lemma draw_between r :
  (0 <=? r)%float = true -> (r <? 1)%float = true ->
  between grid 0 (2 ^ 40) (Prim2SF r).
Proof.
  intros L U. rewrite leb_compare, Prim2SF_zero in L. rewrite ltb_compare, Prim2SF_one in U.
  pose proof (valid_digits r) as V.
  destruct (Prim2SF r) as [s|s| |s m e]; cbn [SFcompare] in L, U; try discriminate.
  - cbn [between]. lia.
  - destruct s; discriminate.
  - destruct s; [discriminate|].
    specialize (V false m e eq_refl).
    pose proof (digits2_pos_upper m) as Du.
    assert (M53 : Zpos m < 2 ^ 53).
    { apply Z.lt_le_trans with (2 ^ Zpos (digits2_pos m)); [exact Du|].
      apply Z.pow_le_mono_r; lia. }
    unfold grid. cbn [between cond_Zopp].
    rewrite Z.mul_0_l.
    assert (E : e <= -52).
    { destruct (Z.compare_spec e (-52)) as [Q|Q|Q]; [lia|lia|discriminate]. }
    split; [lia|]. split; [apply Pos2Z.is_nonneg|].
    rewrite <- pow2_add by lia.
    replace (40 + (-40 - e)) with (- e) by lia.
    destruct (Z.eq_dec e (-52)) as [->|N].
    + rewrite Z.compare_refl in U.
      assert (Q : (m < 4503599627370496)%positive).
      { unfold Pos.lt, Pos.compare.
        destruct (PosDef.Pos.compare_cont Eq m 4503599627370496); congruence. }
      clear - Q. change (- -52) with 52.
      replace (2 ^ 52) with 4503599627370496 by reflexivity.
      apply Z.lt_le_incl. exact (Pos2Z.pos_lt_pos _ _ Q).
    + apply Z.lt_le_incl. apply Z.lt_le_trans with (2 ^ 53); [exact M53|].
      apply Z.pow_le_mono_r; lia.
Qed.

Lemma between_not_nan q lo hi x : between q lo hi (Prim2SF x) -> is_nan x = false.
Proof. intros B. apply is_nan_false. intros E. rewrite E in B. exact B. Qed.

Lemma opp_between q lo hi x :
  between q lo hi (Prim2SF x) -> between q (- hi) (- lo) (Prim2SF (- x)).
Proof.
  intros B. rewrite opp_spec.
  destruct (Prim2SF x) as [s|s| |s m e]; cbn [SFopp between] in *; try tauto; [lia|].
  destruct B as (He & B1 & B2). split; [exact He|].
  destruct s; cbn [negb cond_Zopp] in *; lia.
Qed.

(** The difference of two numbers, of any signs. *)
Lemma SFsub_between q lx hx ly hy x y :
  between q lx hx x -> between q ly hy y ->
  -1074 <= q <= 971 -> - 2 ^ 53 < lx - hy -> hx - ly < 2 ^ 53 ->
  between q (lx - hy) (hx - ly) (SFsub prec emax x y).
Proof.
  intros Bx By Hq Hlo Hhi.
  destruct x as [sx|sx| |sx mx ex], y as [sy|sy| |sy my ey];
    cbn [between] in Bx, By; try tauto; cbn [SFsub].
  - destruct sx, sy; cbn [Bool.eqb negb between]; lia.
  - cbn [between]. destruct By as (He & B1 & B2). split; [exact He|].
    assert (P : 0 < 2 ^ (q - ey)) by (apply pow2_gt0; lia).
    destruct sy; cbn [negb cond_Zopp] in *; nia.
  - apply (between_mono q lx hx); [lia|lia|exact Bx].
  - destruct Bx as (Hex & X1 & X2). destruct By as (Hey & Y1 & Y2).
    set (ez := Z.min ex ey).
    destruct (shl_align_spec mx ex ez) as [_ Ex].
    destruct (shl_align_spec my ey ez) as [_ Ey].
    replace (Z.min ex ez) with ez in Ex by lia.
    replace (Z.min ey ez) with ez in Ey by lia.
    rewrite Ex, Ey.
    assert (Px : 0 < 2 ^ (ex - ez)) by (apply pow2_gt0; lia).
    assert (Py : 0 < 2 ^ (ey - ez)) by (apply pow2_gt0; lia).
    assert (Sx : 2 ^ (q - ez) = 2 ^ (q - ex) * 2 ^ (ex - ez)).
    { rewrite <- pow2_add by lia. f_equal. lia. }
    assert (Sy : 2 ^ (q - ez) = 2 ^ (q - ey) * 2 ^ (ey - ez)).
    { rewrite <- pow2_add by lia. f_equal. lia. }
    apply binary_normalize_between; try lia.
    rewrite !cond_Zopp_mul.
    split.
    + rewrite Z.mul_sub_distr_r. apply Z.sub_le_mono.
      * rewrite Sx. nia.
      * rewrite Sy. nia.
    + rewrite Z.mul_sub_distr_r. apply Z.sub_le_mono.
      * rewrite Sx. nia.
      * rewrite Sy. nia.
Qed.

Lemma sub_between q lx hx ly hy x y :
  between q lx hx (Prim2SF x) -> between q ly hy (Prim2SF y) ->
  -1074 <= q <= 971 -> - 2 ^ 53 < lx - hy -> hx - ly < 2 ^ 53 ->
  between q (lx - hy) (hx - ly) (Prim2SF (x - y)).
Proof. intros. rewrite sub_spec. apply SFsub_between; assumption. Qed.

(** A number between zero and a positive bound, by comparisons. *)
Lemma range_between q hc c x :
  (0 <=? x)%float = true -> (x <=? c)%float = true ->
  between q 1 hc (Prim2SF c) ->
  between q 0 hc (Prim2SF x).
Proof.
  intros L U Bc.
  destruct (between_pos q 1 hc _ ltac:(lia) Bc) as (mc & ec & Ec & Hec & C1 & C2).
  assert (Pc : 0 < 2 ^ (q - ec)) by (apply pow2_gt0; lia).
  pose proof (valid_canonical c _ _ _ Ec) as Vc.
  rewrite leb_compare, Prim2SF_zero in L. rewrite leb_compare, Ec in U.
  pose proof (valid_canonical x) as Vx.
  pose proof (valid_digits x) as Dx.
  destruct (Prim2SF x) as [s|s| |s m e]; cbn [SFcompare] in L, U; try discriminate.
  - cbn [between]. nia.
  - destruct s; discriminate.
  - destruct s; [discriminate|].
    specialize (Vx false m e eq_refl). specialize (Dx false m e eq_refl).
    cbn [between cond_Zopp].
    destruct (Z.compare_spec e ec) as [Q|Q|Q]; [| |discriminate].
    + subst e. split; [exact Hec|]. split; [nia|].
      assert (Hm : (m <= mc)%positive).
      { unfold Pos.le, Pos.compare.
        destruct (PosDef.Pos.compare_cont Eq m mc); congruence. }
      apply Z.le_trans with (Zpos mc); [exact Hm|exact C2].
    + split; [lia|].
      assert (Px : 0 < 2 ^ (q - e)) by (apply pow2_gt0; lia).
      split; [nia|].
      assert (Dc : Zpos (digits2_pos mc) = 53) by lia.
      pose proof (digits2_pos_lower mc) as Lc. rewrite Dc in Lc.
      pose proof (digits2_pos_upper m) as Ux.
      assert (Ux' : Zpos m < 2 ^ 53).
      { apply Z.lt_le_trans with (2 ^ Zpos (digits2_pos m)); [exact Ux|].
        apply Z.pow_le_mono_r; lia. }
      assert (Pd : 2 <= 2 ^ (ec - e)).
      { change 2 with (2 ^ 1) at 1. apply Z.pow_le_mono_r; lia. }
      assert (S : 2 ^ (q - e) = 2 ^ (q - ec) * 2 ^ (ec - e)).
      { rewrite <- pow2_add by lia. f_equal. lia. }
      change (2 ^ (53 - 1)) with 4503599627370496 in Lc.
      change (2 ^ 53) with 9007199254740992 in Ux'.
      rewrite S.
      assert (Zpos mc * 2 <= Zpos mc * 2 ^ (ec - e)) by nia.
      assert (Zpos mc * 2 ^ (ec - e) <= hc * 2 ^ (q - ec) * 2 ^ (ec - e)) by nia.
      lia.
Qed.

Lemma in_band_leb f :
  (2000 <=? f)%float = true -> (f <=? 4000)%float = true -> in_band f = true.
Proof.
  intros L U. unfold in_band.
  change (Py.float_of_int band_min) with 2000%float.
  change (Py.float_of_int band_max) with 4000%float.
  rewrite L, U. reflexivity.
Qed.

Lemma float_of_k1_between k :
  10 <= k <= 30 ->
  between grid (k * 2 ^ 40) (k * 2 ^ 40) (Prim2SF (Py.float_of_int k)).
Proof.
  intros H.
  replace k with (10 + Z.of_nat (Z.to_nat (k - 10))) by lia.
  assert (Hn : (Z.to_nat (k - 10) <= 20)%nat) by lia.
  revert Hn. generalize (Z.to_nat (k - 10)). intros n Hn.
  do 21 (destruct n as [|n]; [vm_compute; repeat split; discriminate|]).
  lia.
Qed.

(** ** Bounds on the values of the simulation *)

(** Closed side conditions and the bounds of constants are decided by
    evaluation. *)
Ltac zdec := first [apply Z.leb_le | apply Z.ltb_lt]; vm_compute; reflexivity.
Ltac zdec2 := split; zdec.
Ltac const_between := vm_compute; repeat split; discriminate.

Lemma raw_frequency_two a e k :
  raw_frequency a (Py.float_of_int t_hop) e k k2_constant =
  (2000 + (a * Py.float_of_int k + e * 100) / 2)%float.
Proof. reflexivity. Qed.

(** The amplitude the sender generates: [3.0 + uniform(-0.15, 0.15)]. *)
Lemma sender_amplitude_between r :
  (0 <=? r)%float = true -> (r <? 1)%float = true ->
  between grid (micro 2849990) (micro 3150010)
    (Prim2SF (sp_amplitude (generate_signal_parameters r))).
Proof.
  intros L U. pose proof (draw_between r L U) as Br.
  change (sp_amplitude (generate_signal_parameters r))
    with (3.0 + (-0.15 + (0.15 - -0.15) * r))%float.
  assert (Bw : between grid (micro 299999) (micro 300001) (Prim2SF (0.15 - -0.15)))
    by const_between.
  assert (Bm : between grid (micro (-150001)) (micro (-149999)) (Prim2SF (-0.15)))
    by const_between.
  assert (B3 : between grid (micro 3000000) (micro 3000000) (Prim2SF 3.0))
    by const_between.
  pose proof (mul_between grid _ _ _ _ 0 (micro 300001) _ _ Bw Br
                ltac:(zdec) ltac:(zdec) ltac:(zdec2) ltac:(zdec) ltac:(zdec)
                ltac:(zdec) ltac:(zdec)) as B1.
  pose proof (add_between grid _ _ _ _ _ _ Bm B1 ltac:(zdec2) ltac:(zdec) ltac:(zdec)) as B2.
  pose proof (add_between grid _ _ _ _ _ _ B3 B2 ltac:(zdec2) ltac:(zdec) ltac:(zdec)) as B4.
  refine (between_mono _ _ _ _ _ _ _ _ B4); zdec.
Qed.

(** The energy [amplitude ** 2 * time_ms] of such an amplitude. *)
Lemma sender_energy_between a :
  between grid (micro 2849990) (micro 3150010) (Prim2SF a) ->
  between grid (micro 16244000) (micro 19846000)
    (Prim2SF (a * a * Py.float_of_int t_hop)).
Proof.
  intros Ba.
  change (Py.float_of_int t_hop) with 2%float.
  assert (B2 : between grid (micro 2000000) (micro 2000000) (Prim2SF 2))
    by const_between.
  pose proof (mul_between grid _ _ _ _ (micro 8122400) (micro 9922600) _ _ Ba Ba
                ltac:(zdec) ltac:(zdec) ltac:(zdec2) ltac:(zdec) ltac:(zdec)
                ltac:(zdec) ltac:(zdec)) as B1.
  apply (mul_between grid _ _ _ _ _ _ _ _ B1 B2); try zdec. zdec2.
Qed.

(** The formula value for such a signal under any coefficient of the list. *)
Lemma sender_frequency_between a e k :
  between grid (micro 2849990) (micro 3150010) (Prim2SF a) ->
  between grid (micro 16244000) (micro 19846000) (Prim2SF e) ->
  10 <= k <= 30 ->
  between grid (micro 2826400000) (micro 3039600000)
    (Prim2SF (raw_frequency a (Py.float_of_int t_hop) e k k2_constant)).
Proof.
  intros Ba Be Hk. rewrite raw_frequency_two.
  assert (Bk : between grid (micro 10000000) (micro 30000000)
                 (Prim2SF (Py.float_of_int k))).
  { refine (between_mono _ _ _ _ _ _ _ _ (float_of_k1_between k Hk)).
    - apply Z.le_trans with (10 * 2 ^ 40); [zdec|].
      apply Z.mul_le_mono_nonneg_r; [zdec|lia].
    - apply Z.le_trans with (30 * 2 ^ 40); [|zdec].
      apply Z.mul_le_mono_nonneg_r; [zdec|lia]. }
  assert (B100 : between grid (micro 100000000) (micro 100000000) (Prim2SF 100))
    by const_between.
  assert (B2000 : between grid (micro 2000000000) (micro 2000000000) (Prim2SF 2000))
    by const_between.
  pose proof (mul_between grid _ _ _ _ (micro 28499000) (micro 94500400) _ _ Ba Bk
                ltac:(zdec) ltac:(zdec) ltac:(zdec2) ltac:(zdec) ltac:(zdec)
                ltac:(zdec) ltac:(zdec)) as B1.
  pose proof (mul_between grid _ _ _ _ (micro 1624390000) (micro 1984610000) _ _ Be B100
                ltac:(zdec) ltac:(zdec) ltac:(zdec2) ltac:(zdec) ltac:(zdec)
                ltac:(zdec) ltac:(zdec)) as B2.
  pose proof (add_between grid _ _ _ _ _ _ B1 B2 ltac:(zdec2) ltac:(zdec) ltac:(zdec)) as B3.
  pose proof (div_two_between grid _ _ (micro 826440000) (micro 1039560000) _ B3
                ltac:(zdec) ltac:(zdec2) ltac:(zdec) ltac:(zdec)
                ltac:(zdec) ltac:(zdec)) as B4.
  pose proof (add_between grid _ _ _ _ _ _ B2000 B4 ltac:(zdec2) ltac:(zdec) ltac:(zdec)) as B5.
  refine (between_mono _ _ _ _ _ _ _ _ B5); zdec.
Qed.

(** Bounds by comparison with the constants of the program. *)
Lemma frequency_between_leb f :
  between grid (micro 2826400000) (micro 3039600000) (Prim2SF f) ->
  (2826 <=? f)%float = true /\ (f <=? 3040)%float = true /\
  (2000 <=? f)%float = true /\ (f <=? 4000)%float = true.
Proof.
  intros B.
  assert (B1 : between grid (micro 2826000000) (micro 2826000000) (Prim2SF 2826))
    by const_between.
  assert (B2 : between grid (micro 3040000000) (micro 3040000000) (Prim2SF 3040))
    by const_between.
  assert (B3 : between grid (micro 2000000000) (micro 2000000000) (Prim2SF 2000))
    by const_between.
  assert (B4 : between grid (micro 4000000000) (micro 4000000000) (Prim2SF 4000))
    by const_between.
  split; [apply (leb_between grid _ _ _ _ _ _ B1 B); zdec|].
  split; [apply (leb_between grid _ _ _ _ _ _ B B2); zdec|].
  split; [apply (leb_between grid _ _ _ _ _ _ B3 B); zdec|].
  apply (leb_between grid _ _ _ _ _ _ B B4); zdec.
Qed.

(** A signal well inside the tolerances passes [validate_signal]. *)
Lemma validate_signal_between self a t :
  between grid (micro 2700010) (micro 3299990) (Prim2SF a) ->
  between grid (micro 1900010) (micro 2099990) (Prim2SF t) ->
  v_is_valid (fst (validate_signal self a t)) = true.
Proof.
  intros Ba Bt. unfold validate_signal. cbn [fst v_is_valid].
  unfold nominal_amplitude, amplitude_tolerance, time_tolerance.
  change (Py.float_of_int t_hop) with 2%float.
  assert (B1 : between grid (micro 2699999) (micro 2700001) (Prim2SF (3.0 - 0.3)))
    by const_between.
  assert (B2 : between grid (micro 3299999) (micro 3300001) (Prim2SF (3.0 + 0.3)))
    by const_between.
  assert (B3 : between grid (micro 1899999) (micro 1900001) (Prim2SF (2 - 0.1)))
    by const_between.
  assert (B4 : between grid (micro 2099999) (micro 2100001) (Prim2SF (2 + 0.1)))
    by const_between.
  rewrite (leb_between grid _ _ _ _ _ _ B1 Ba) by zdec.
  rewrite (leb_between grid _ _ _ _ _ _ Ba B2) by zdec.
  rewrite (leb_between grid _ _ _ _ _ _ B3 Bt) by zdec.
  rewrite (leb_between grid _ _ _ _ _ _ Bt B4) by zdec.
  reflexivity.
Qed.

(** A bounded number lies between two neighbouring points of the grid. *)
Lemma between_unit q lo hi x :
  between q lo hi x ->
  exists k, lo <= k <= hi /\ between q k (k + 1) x.
Proof.
  destruct x as [s|s| |s m e]; cbn [between]; try tauto.
  - intros H. exists 0. lia.
  - intros (He & B1 & B2).
    assert (P : 0 < 2 ^ (q - e)) by (apply pow2_gt0; lia).
    exists (cond_Zopp s (Zpos m) / 2 ^ (q - e)).
    pose proof (Z.mul_div_le (cond_Zopp s (Zpos m)) _ P) as D1.
    pose proof (Z.mul_succ_div_gt (cond_Zopp s (Zpos m)) _ P) as D2.
    split; [split|].
    + apply Z.div_le_lower_bound; lia.
    + apply Z.div_le_upper_bound; lia.
    + split; [exact He|]. lia.
Qed.

(** The noise factor [1 + uniform(-noise_level, noise_level)] for a noise
    level between 0 and 0.045. *)
Lemma noise_factor_between nl r :
  (0 <=? nl)%float = true -> (nl <=? 0.045)%float = true ->
  (0 <=? r)%float = true -> (r <? 1)%float = true ->
  between grid (micro 954990) (micro 1045010)
    (Prim2SF (Py.float_of_int 1 + Py.uniform (- nl) nl r)).
Proof.
  intros L0 L1 R0 R1. pose proof (draw_between r R0 R1) as Br.
  change (Py.float_of_int 1) with 1%float. unfold Py.uniform.
  assert (Bc : between grid 1 (micro 45001) (Prim2SF 0.045)) by const_between.
  destruct (between_unit _ _ _ _ (range_between grid _ _ _ L0 L1 Bc))
    as (k & [K0 K1] & Bn).
  change (micro 45001) with 49479122761 in K1.
  pose proof (opp_between _ _ _ _ Bn) as Bo.
  assert (P53 : 2 ^ 53 = 9007199254740992) by reflexivity.
  assert (P40 : 2 ^ 40 = 1099511627776) by reflexivity.
  assert (Hq : -1074 <= grid <= 971) by zdec2.
  assert (Hq' : -1074 <= grid <= 0) by zdec2.
  assert (Bw : between grid (k - - k) (k + 1 - - (k + 1)) (Prim2SF (nl - - nl))).
  { apply sub_between; try assumption; try rewrite P53; lia. }
  assert (B1 : between grid 0 (2 * k + 2) (Prim2SF ((nl - - nl) * r))).
  { apply (mul_between grid _ _ _ _ _ _ _ _ Bw Br); try assumption; try lia.
    all: change (2 ^ (- grid)) with 1099511627776; lia. }
  assert (B2 : between grid (- (k + 1) + 0) (- k + (2 * k + 2))
                 (Prim2SF (- nl + (nl - - nl) * r))).
  { apply add_between; try assumption; try rewrite P53; lia. }
  assert (Bone : between grid 1099511627776 1099511627776 (Prim2SF 1))
    by const_between.
  assert (B3 : between grid (1099511627776 + (- (k + 1) + 0))
                 (1099511627776 + (- k + (2 * k + 2)))
                 (Prim2SF (1 + (- nl + (nl - - nl) * r)))).
  { apply add_between; try assumption; try rewrite P53; lia. }
  refine (between_mono _ _ _ _ _ _ _ _ B3).
  - change (micro 954990) with 1050022609409. lia.
  - change (micro 1045010) with 1149000646142. lia.
Qed.

(** The received time [2 + uniform(-0.05, 0.05)]. *)
Lemma received_time_between r :
  (0 <=? r)%float = true -> (r <? 1)%float = true ->
  between grid (micro 1949990) (micro 2050010)
    (Prim2SF (Py.float_of_int t_hop + Py.uniform (-0.05) 0.05 r)).
Proof.
  intros R0 R1. pose proof (draw_between r R0 R1) as Br.
  change (Py.float_of_int t_hop) with 2%float. unfold Py.uniform.
  assert (Bw : between grid (micro 99999) (micro 100001) (Prim2SF (0.05 - -0.05)))
    by const_between.
  assert (Bm : between grid (micro (-50001)) (micro (-49999)) (Prim2SF (-0.05)))
    by const_between.
  assert (B2 : between grid (micro 2000000) (micro 2000000) (Prim2SF 2))
    by const_between.
  pose proof (mul_between grid _ _ _ _ 0 (micro 100001) _ _ Bw Br
                ltac:(zdec) ltac:(zdec) ltac:(zdec2) ltac:(zdec) ltac:(zdec)
                ltac:(zdec) ltac:(zdec)) as B1.
  pose proof (add_between grid _ _ _ _ _ _ Bm B1 ltac:(zdec2) ltac:(zdec) ltac:(zdec)) as B3.
  pose proof (add_between grid _ _ _ _ _ _ B2 B3 ltac:(zdec2) ltac:(zdec) ltac:(zdec)) as B4.
  refine (between_mono _ _ _ _ _ _ _ _ B4); zdec.
Qed.

(** What the receiver measures of a signal the sender generated. *)
Lemma reception_between a e nf :
  between grid (micro 2849990) (micro 3150010) (Prim2SF a) ->
  between grid (micro 16244000) (micro 19846000) (Prim2SF e) ->
  between grid (micro 954990) (micro 1045010) (Prim2SF nf) ->
  between grid (micro 2721000) (micro 3292000) (Prim2SF (a * nf)) /\
  between grid (micro 15500000) (micro 20800000) (Prim2SF (e * nf)).
Proof.
  intros Ba Be Bn. split.
  - apply (mul_between grid _ _ _ _ _ _ _ _ Ba Bn); try zdec. zdec2.
  - apply (mul_between grid _ _ _ _ _ _ _ _ Be Bn); try zdec. zdec2.
Qed.

(** ** The runs, with bounds *)

(** Every record of the sender's loop is a generated signal. *)
Lemma sender_loop_signals random :
  (forall n, (0 <=? random n)%float = true /\ (random n <? 1)%float = true) ->
  forall n i self drawn,
  coefficient_list_ok (k1_k2_list self) ->
  0 <= current_k_index self < 5 ->
  exists results,
    sender_loop random n i self drawn =
      Some (results, state_after self n, (n + drawn)%nat) /\
    length results = n /\
    forall rec, In rec results ->
      generated_signal rec /\ sr_is_valid rec = true /\ 10 <= sr_k1 rec <= 30.
Proof.
  intros U n i self drawn Hl Hi.
  destruct (sender_loop_records random U n i self drawn Hl Hi) as (results & E & Len & R).
  exists results. split; [exact E|]. split; [exact Len|].
  intros rec Hin. apply In_nth_error in Hin. destruct Hin as [j Hj].
  specialize (R j rec Hj). cbv zeta in R.
  destruct R as (_ & _ & Ha & Ht & He & Hv & _ & _ & _ & _ & p & Hp & K1 & K2 & _ & Hf).
  destruct (U (j + drawn)%nat) as [R0 R1].
  pose proof (sender_amplitude_between _ R0 R1) as Ba.
  pose proof (sender_energy_between _ Ba) as Be.
  assert (Hk : 10 <= p / k2_constant <= 30).
  { apply (coefficient_list_ok_k1 _ p Hl). eapply nth_error_In. exact Hp. }
  pose proof (sender_frequency_between _ _ _ Ba Be Hk) as Bf.
  change (sp_amplitude (generate_signal_parameters (random (j + drawn)%nat)) *
          sp_amplitude (generate_signal_parameters (random (j + drawn)%nat)) *
          Py.float_of_int t_hop)%float
    with (sp_energy (generate_signal_parameters (random (j + drawn)%nat))) in Be, Bf.
  destruct (frequency_between_leb _ Bf) as (_ & _ & F1 & F2).
  rewrite (clamp_id _ (in_band_leb _ F1 F2)) in Hf.
  rewrite <- Ha, <- He, <- K1 in *.
  split; [|split; [exact Hv|exact Hk]].
  split; [exact Ba|]. split; [exact Be|]. split; [exact Ht|].
  rewrite Hf, Ht. split; [exact Bf|reflexivity].
Qed.

(** The receiver's loop over generated signals at a noise level between 0
    and 0.045: every signal is accepted and gets a valid frequency. *)
Lemma receiver_loop_valid random nl :
  (forall n, (0 <=? random n)%float = true /\ (random n <? 1)%float = true) ->
  (0 <=? nl)%float = true -> (nl <=? 0.045)%float = true ->
  forall srs i self drawn,
  coefficient_list_ok (k1_k2_list self) ->
  0 <= current_k_index self < 5 ->
  (forall sd, In sd srs -> generated_signal sd) ->
  exists results,
    receiver_loop random srs i nl self drawn =
      Some (results, state_after self (length srs), (2 * length srs + drawn)%nat) /\
    length results = length srs /\
    forall rec, In rec results ->
      In (original_data rec) srs /\
      between grid (micro 2721000) (micro 3292000) (Prim2SF (rr_amplitude rec)) /\
      between grid (micro 1949990) (micro 2050010) (Prim2SF (rr_time_ms rec)) /\
      between grid (micro 15500000) (micro 20800000) (Prim2SF (rr_energy rec)) /\
      v_is_valid (validation rec) = true /\
      exists fr,
        freq_result rec = Computed fr /\
        is_valid fr = true /\ attempts fr = 1 /\
        in_band (frequency fr) = true /\
        frequency_difference rec = abs (frequency fr - sr_frequency (original_data rec)) /\
        is_match rec = (frequency_difference rec <? 40)%float.
Proof.
  intros U N0 N1 srs i self drawn Hl Hi Hs.
  destruct (receiver_loop_records random nl srs i self drawn Hl Hi) as (results & E & Len & R).
  exists results. split; [exact E|]. split; [exact Len|].
  intros rec Hin. apply In_nth_error in Hin. destruct Hin as [j Hj].
  destruct (R j rec Hj) as (sd & Hsd & Ej).
  destruct (receive_hop_record random (i + Z.of_nat j) sd nl (state_after self j)
              (2 * j + drawn)%nat Hl)
    as (rec' & E' & Ho & _ & _ & _ & Ha & He & Ht & Hv & Hacc & _).
  rewrite Ej in E'. injection E' as <-.
  assert (Isd : In sd srs) by (eapply nth_error_In; exact Hsd).
  destruct (Hs sd Isd) as (Ba & Be & Tt & _ & _).
  destruct (U (2 * j + drawn)%nat) as [R0 R1].
  destruct (U (S (2 * j + drawn))) as [R2 R3].
  pose proof (noise_factor_between nl _ N0 N1 R0 R1) as Bn.
  destruct (reception_between _ _ _ Ba Be Bn) as [Ba' Be'].
  pose proof (received_time_between _ R2 R3) as Bt'.
  rewrite <- Tt in Bt'. rewrite <- Ha in Ba'. rewrite <- He in Be'. rewrite <- Ht in Bt'.
  assert (V : v_is_valid (validation rec) = true).
  { rewrite Hv. apply validate_signal_between.
    - refine (between_mono _ _ _ _ _ _ _ _ Ba'); zdec.
    - refine (between_mono _ _ _ _ _ _ _ _ Bt'); zdec. }
  rewrite Ho. split; [exact Isd|]. split; [exact Ba'|]. split; [exact Bt'|].
  split; [exact Be'|]. split; [exact V|].
  destruct (Hacc V) as (p & fr & _ & F & _ & _ & _ & _ & Fv & Fn & Fb & _ & Fd & Fm).
  rewrite (between_not_nan _ _ _ _ Be') in Fv. cbn [negb] in Fv.
  rewrite Fv in Fn.
  exists fr. split; [exact F|]. split; [exact Fv|]. split; [exact Fn|].
  split; [apply (Fb Fv)|]. split; [exact Fd|exact Fm].
Qed.

(** X14.  The sender never corrects a frequency.  From a state with a
    coefficient list as [__init__] builds it and an index in range, with
    draws in [0, 1), every record of [simulate_sender_operation] has an
    amplitude between 2.8499 and 3.1501 and an energy between 16.24 and
    19.85; its frequency is the value of the formula
    [f0 + (A * k1 + E * k2) / t] as computed, untouched by the band
    correction, and lies between 2826 and 3040 MHz; and the signal, as sent,
    passes [validate_signal]. *)
Theorem sender_frequency_unclamped random self drawn hop_count :
  (forall n, (0 <=? random n)%float = true /\ (random n <? 1)%float = true) ->
  coefficient_list_ok (k1_k2_list self) ->
  0 <= current_k_index self < 5 ->
  exists results self',
    simulate_sender_operation random self drawn hop_count =
      Some (results, self', (Z.to_nat hop_count + drawn)%nat) /\
    forall rec, In rec results ->
      (2.8499 <=? sr_amplitude rec)%float = true /\
      (sr_amplitude rec <=? 3.1501)%float = true /\
      (16.24 <=? sr_energy rec)%float = true /\
      (sr_energy rec <=? 19.85)%float = true /\
      sr_frequency rec =
        (2000 + (sr_amplitude rec * Py.float_of_int (sr_k1 rec) + sr_energy rec * 100) / 2)%float /\
      sr_frequency rec =
        raw_frequency (sr_amplitude rec) (sr_time_ms rec) (sr_energy rec) (sr_k1 rec) 100 /\
      (2826 <=? sr_frequency rec)%float = true /\
      (sr_frequency rec <=? 3040)%float = true /\
      v_is_valid (fst (validate_signal self' (sr_amplitude rec) (sr_time_ms rec))) = true.
Proof.
  intros U Hl Hi. unfold simulate_sender_operation.
  destruct (sender_loop_signals random U (Z.to_nat hop_count) 0 self drawn Hl Hi)
    as (results & E & _ & R).
  exists results, (state_after self (Z.to_nat hop_count)).
  split; [exact E|].
  intros rec Hin. destruct (R rec Hin) as ((Ba & Be & Ht & Bf & Hf) & _ & _).
  assert (C1 : between grid (micro 2849899) (micro 2849901) (Prim2SF 2.8499))
    by const_between.
  assert (C2 : between grid (micro 3150099) (micro 3150101) (Prim2SF 3.1501))
    by const_between.
  assert (C3 : between grid (micro 16239999) (micro 16240001) (Prim2SF 16.24))
    by const_between.
  assert (C4 : between grid (micro 19849999) (micro 19850001) (Prim2SF 19.85))
    by const_between.
  split; [apply (leb_between grid _ _ _ _ _ _ C1 Ba); zdec|].
  split; [apply (leb_between grid _ _ _ _ _ _ Ba C2); zdec|].
  split; [apply (leb_between grid _ _ _ _ _ _ C3 Be); zdec|].
  split; [apply (leb_between grid _ _ _ _ _ _ Be C4); zdec|].
  split; [rewrite Hf at 1; rewrite Ht; apply raw_frequency_two|].
  split; [exact Hf|].
  destruct (frequency_between_leb _ Bf) as (F1 & F2 & _ & _).
  split; [exact F1|]. split; [exact F2|].
  apply validate_signal_between.
  - refine (between_mono _ _ _ _ _ _ _ _ Ba); zdec.
  - rewrite Ht. const_between.
Qed.

Lemma sender_frequency_unclamped_witness :
  exists results self',
    simulate_sender_operation half_stream (fresh 12345 k1_k2_list_12345) 0 15 =
      Some (results, self', (Z.to_nat 15 + 0)%nat) /\
    forall rec, In rec results ->
      (2.8499 <=? sr_amplitude rec)%float = true /\
      (sr_amplitude rec <=? 3.1501)%float = true /\
      (16.24 <=? sr_energy rec)%float = true /\
      (sr_energy rec <=? 19.85)%float = true /\
      sr_frequency rec =
        (2000 + (sr_amplitude rec * Py.float_of_int (sr_k1 rec) + sr_energy rec * 100) / 2)%float /\
      sr_frequency rec =
        raw_frequency (sr_amplitude rec) (sr_time_ms rec) (sr_energy rec) (sr_k1 rec) 100 /\
      (2826 <=? sr_frequency rec)%float = true /\
      (sr_frequency rec <=? 3040)%float = true /\
      v_is_valid (fst (validate_signal self' (sr_amplitude rec) (sr_time_ms rec))) = true.
Proof.
  apply (sender_frequency_unclamped half_stream (fresh 12345 k1_k2_list_12345) 0 15).
  - intros n. split; reflexivity.
  - split; [reflexivity|repeat constructor; lia].
  - cbn. lia.
Defined.

(** X15.  No reception is rejected at a noise level between 0 and 0.045
    (the default 0.0099 included).  When the receiver, from any state with a
    coefficient list as [__init__] builds it, replays the records of a
    sender's run: every received amplitude lies between 2.72 and 3.3 and
    every received time between 1.9499 and 2.0501, so [validate_signal]
    accepts every signal; each record carries a frequency result that is
    valid on the first attempt and inside the band; and it is a match
    exactly when that frequency is less than 40 MHz from the sender's. *)
Theorem receptions_validated random self rself drawn hop_count noise_level :
  (forall n, (0 <=? random n)%float = true /\ (random n <? 1)%float = true) ->
  coefficient_list_ok (k1_k2_list self) ->
  0 <= current_k_index self < 5 ->
  coefficient_list_ok (k1_k2_list rself) ->
  (0 <=? noise_level)%float = true -> (noise_level <=? 0.045)%float = true ->
  exists sender_results sself receiver_results rself',
    simulate_sender_operation random self drawn hop_count =
      Some (sender_results, sself, (Z.to_nat hop_count + drawn)%nat) /\
    simulate_receiver_operation random rself (Z.to_nat hop_count + drawn)
        sender_results noise_level =
      Some (receiver_results, rself', (3 * Z.to_nat hop_count + drawn)%nat) /\
    length receiver_results = Z.to_nat hop_count /\
    forall rec, In rec receiver_results ->
      In (original_data rec) sender_results /\
      (2.72 <=? rr_amplitude rec)%float = true /\
      (rr_amplitude rec <=? 3.3)%float = true /\
      (1.9499 <=? rr_time_ms rec)%float = true /\
      (rr_time_ms rec <=? 2.0501)%float = true /\
      v_is_valid (validation rec) = true /\
      exists fr,
        freq_result rec = Computed fr /\
        is_valid fr = true /\ attempts fr = 1 /\
        in_band (frequency fr) = true /\
        frequency_difference rec = abs (frequency fr - sr_frequency (original_data rec)) /\
        is_match rec = (frequency_difference rec <? 40)%float.
Proof.
  intros U Hl Hi Hr N0 N1.
  unfold simulate_sender_operation, simulate_receiver_operation.
  set (n := Z.to_nat hop_count).
  destruct (sender_loop_signals random U n 0 self drawn Hl Hi) as (sres & Es & Ls & Ss).
  set (reset := set_hop_counter (set_current_k_index rself 0) 0).
  destruct (receiver_loop_valid random noise_level U N0 N1 sres 0 reset (n + drawn)%nat
              Hr ltac:(cbn; lia) (fun sd I => proj1 (Ss sd I)))
    as (rres & Er & Lr & Rr).
  exists sres, (state_after self n), rres, (state_after reset (length sres)).
  split; [exact Es|].
  split; [rewrite Er, Ls; do 2 f_equal; lia|].
  split; [rewrite Lr; exact Ls|].
  intros rec Hin. destruct (Rr rec Hin) as (Ho & Ba & Bt & _ & V & F).
  assert (C1 : between grid (micro 2719999) (micro 2720001) (Prim2SF 2.72))
    by const_between.
  assert (C2 : between grid (micro 3299999) (micro 3300001) (Prim2SF 3.3))
    by const_between.
  assert (C3 : between grid (micro 1949899) (micro 1949901) (Prim2SF 1.9499))
    by const_between.
  assert (C4 : between grid (micro 2050099) (micro 2050101) (Prim2SF 2.0501))
    by const_between.
  split; [exact Ho|].
  split; [apply (leb_between grid _ _ _ _ _ _ C1 Ba); zdec|].
  split; [apply (leb_between grid _ _ _ _ _ _ Ba C2); zdec|].
  split; [apply (leb_between grid _ _ _ _ _ _ C3 Bt); zdec|].
  split; [apply (leb_between grid _ _ _ _ _ _ Bt C4); zdec|].
  split; [exact V|exact F].
Qed.

Lemma receptions_validated_witness :
  exists sender_results sself receiver_results rself',
    simulate_sender_operation half_stream (fresh 12345 k1_k2_list_12345) 0 15 =
      Some (sender_results, sself, (Z.to_nat 15 + 0)%nat) /\
    simulate_receiver_operation half_stream (fresh 12345 k1_k2_list_12345)
        (Z.to_nat 15 + 0) sender_results 0.0099 =
      Some (receiver_results, rself', (3 * Z.to_nat 15 + 0)%nat) /\
    length receiver_results = Z.to_nat 15 /\
    forall rec, In rec receiver_results ->
      In (original_data rec) sender_results /\
      (2.72 <=? rr_amplitude rec)%float = true /\
      (rr_amplitude rec <=? 3.3)%float = true /\
      (1.9499 <=? rr_time_ms rec)%float = true /\
      (rr_time_ms rec <=? 2.0501)%float = true /\
      v_is_valid (validation rec) = true /\
      exists fr,
        freq_result rec = Computed fr /\
        is_valid fr = true /\ attempts fr = 1 /\
        in_band (frequency fr) = true /\
        frequency_difference rec = abs (frequency fr - sr_frequency (original_data rec)) /\
        is_match rec = (frequency_difference rec <? 40)%float.
Proof.
  apply (receptions_validated half_stream (fresh 12345 k1_k2_list_12345)
           (fresh 12345 k1_k2_list_12345) 0 15 0.0099).
  - intros n. split; reflexivity.
  - split; [reflexivity|repeat constructor; lia].
  - cbn. lia.
  - split; [reflexivity|repeat constructor; lia].
  - reflexivity.
  - reflexivity.
Defined.

(** X16.  The figures [main] prints, at a noise level between 0 and 0.045
    (its own 0.0099 included).  With [randint] values in [1000, 3000], draws
    in [0, 1) and a hop count a process can hold: the statistics report as
    many valid receptions as receptions, namely [hop_count], so the
    validator rejects nothing; the successful matches are exactly the
    receptions whose frequency is within 40 MHz of the sender's; and for a
    positive hop count the minimum and the maximum sender frequency lie
    between 2826 and 3040 MHz. *)
Theorem validated_pipeline_statistics (log10 : float -> float) (randint : nat -> Z)
    (random : nat -> float) (key hop_count : Z) (noise_level : float) :
  (forall n, (n < 5)%nat -> 1000 <= randint n <= 3000) ->
  (forall n, (0 <=? random n)%float = true /\ (random n <? 1)%float = true) ->
  0 <= hop_count <= maxsize ->
  (0 <=? noise_level)%float = true -> (noise_level <=? 0.045)%float = true ->
  exists sender_results sself receiver_results rself st,
    simulate_sender_operation random (__init__ key randint) 0 hop_count =
      Some (sender_results, sself, Z.to_nat hop_count) /\
    simulate_receiver_operation random sself (Z.to_nat hop_count) sender_results noise_level =
      Some (receiver_results, rself, (3 * Z.to_nat hop_count)%nat) /\
    calculate_statistics log10 sender_results receiver_results = Some st /\
    total_receptions (receiver st) = hop_count /\
    valid_receptions (receiver st) = hop_count /\
    successful_matches (receiver st) = Py.len (filter is_match receiver_results) /\
    (forall rec, In rec receiver_results ->
       is_match rec = (abs (rf_frequency (freq_result rec) -
                            sr_frequency (original_data rec)) <? 40)%float) /\
    (0 < hop_count ->
     (2826 <=? min_frequency (sender st))%float = true /\
     (min_frequency (sender st) <=? 3040)%float = true /\
     (2826 <=? max_frequency (sender st))%float = true /\
     (max_frequency (sender st) <=? 3040)%float = true).
Proof.
  intros Hr U Hh N0 N1.
  set (init := __init__ key randint).
  pose proof (init_list_ok key randint Hr) as Hl. fold init in Hl.
  set (n := Z.to_nat hop_count).
  unfold simulate_sender_operation, simulate_receiver_operation. fold n.
  destruct (sender_loop_signals random U n 0 init 0%nat Hl ltac:(cbn; lia))
    as (sres & Es & Ls & Ss).
  rewrite Nat.add_0_r in Es.
  set (sself := state_after init n) in *.
  set (reset := set_hop_counter (set_current_k_index sself 0) 0).
  destruct (receiver_loop_valid random noise_level U N0 N1 sres 0 reset n
              Hl ltac:(cbn; lia) (fun sd I => proj1 (Ss sd I)))
    as (rres & Er & Lr & Rr).
  rewrite Ls in Er.
  replace (2 * n + n)%nat with (3 * n)%nat in Er by lia.
  assert (Fa : filter sr_is_valid sres = sres).
  { apply filter_all. intros r Hin. apply (Ss r Hin). }
  assert (Fv : filter (fun r => v_is_valid (validation r)) rres = rres).
  { apply filter_all. intros r Hin. apply (Rr r Hin). }
  assert (Lz : Py.len sres = hop_count) by (unfold Py.len; rewrite Ls; lia).
  assert (Lrz : Py.len rres = hop_count) by (unfold Py.len; rewrite Lr, Ls; lia).
  destruct (calculate_statistics_total log10 sres rres) as [st E].
  { rewrite Fa, Lz. lia. }
  destruct (calculate_statistics_counts log10 _ _ st E) as (_ & _ & R & Vr & M & _ & F).
  exists sres, sself, rres, (state_after reset n), st.
  split; [exact Es|]. split; [exact Er|]. split; [exact E|].
  split; [rewrite R; exact Lrz|].
  split; [rewrite Vr, Fv; exact Lrz|].
  split; [rewrite M, Fv; reflexivity|].
  split.
  { intros rec Hin. destruct (Rr rec Hin) as (_ & _ & _ & _ & _ & fr & Ef & _ & _ & _ & Fd & Fm).
    rewrite Ef. cbn [rf_frequency]. rewrite <- Fd. exact Fm. }
  intros P.
  assert (Hne : filter sr_is_valid sres <> []).
  { rewrite Fa. intros Q. rewrite Q in Lz. cbn in Lz. lia. }
  destruct (F Hne) as (Imin & Imax & _). rewrite Fa in Imin, Imax.
  apply in_map_iff in Imin. destruct Imin as (r1 & <- & I1).
  apply in_map_iff in Imax. destruct Imax as (r2 & <- & I2).
  destruct (Ss r1 I1) as ((_ & _ & _ & B1 & _) & _).
  destruct (Ss r2 I2) as ((_ & _ & _ & B2 & _) & _).
  destruct (frequency_between_leb _ B1) as (A1 & A2 & _).
  destruct (frequency_between_leb _ B2) as (A3 & A4 & _).
  auto.
Qed.

Lemma validated_pipeline_statistics_witness :
  exists sender_results sself receiver_results rself st,
    simulate_sender_operation half_stream
        (__init__ 12345 (fun n => 3000 - 400 * Z.of_nat n)) 0 15 =
      Some (sender_results, sself, Z.to_nat 15) /\
    simulate_receiver_operation half_stream sself (Z.to_nat 15) sender_results 0.0099 =
      Some (receiver_results, rself, (3 * Z.to_nat 15)%nat) /\
    calculate_statistics (fun x => x) sender_results receiver_results = Some st /\
    total_receptions (receiver st) = 15 /\
    valid_receptions (receiver st) = 15 /\
    successful_matches (receiver st) = Py.len (filter is_match receiver_results) /\
    (forall rec, In rec receiver_results ->
       is_match rec = (abs (rf_frequency (freq_result rec) -
                            sr_frequency (original_data rec)) <? 40)%float) /\
    (0 < 15 ->
     (2826 <=? min_frequency (sender st))%float = true /\
     (min_frequency (sender st) <=? 3040)%float = true /\
     (2826 <=? max_frequency (sender st))%float = true /\
     (max_frequency (sender st) <=? 3040)%float = true).
Proof.
  apply (validated_pipeline_statistics (fun x => x) (fun n => 3000 - 400 * Z.of_nat n)
           half_stream 12345 15 0.0099).
  - intros n Hn. lia.
  - intros n. split; reflexivity.
  - split; [lia|vm_compute; discriminate].
  - reflexivity.
  - reflexivity.
Defined.

(** ** Bounds through a division *)

(** Rounding a value strictly between [m * 2 ^ e] and [(m + 1) * 2 ^ e], or
    equal to the first, stays between two multiples of the grid that
    enclose both. *)
Lemma binary_round_aux_within (s : bool) m e l q lo hi :
  0 <= m -> e <= q -> -1074 <= q <= 971 -> 0 <= lo -> hi < 2 ^ 53 ->
  lo * 2 ^ (q - e) <= m -> m + 1 <= hi * 2 ^ (q - e) ->
  between q (if s then - hi else lo) (if s then - lo else hi)
          (binary_round_aux prec emax s m e l).
Proof.
  intros Hm He Hq Hlo Hhi BL BU.
  destruct (binary_round_aux_spec s m e l Hm) as (m2 & e1 & E1 & B1 & ->).
  cbv zeta. rewrite !fexp_def in *.
  assert (Pe : 0 < 2 ^ (q - e)) by (apply pow2_gt0; lia).
  assert (D1 : Zdigits2 m <= 53 + (q - e)).
  { apply Zdigits2_le; try lia. apply (below_pow2 m (2 ^ (q - e)) hi); try lia. }
  assert (He1 : e <= e1 <= q) by lia.
  set (k := e1 - e) in *.
  assert (Pk : 0 < 2 ^ k) by (apply pow2_gt0; lia).
  assert (P1 : 0 < 2 ^ (q - e1)) by (apply pow2_gt0; lia).
  assert (S1 : 2 ^ (q - e) = 2 ^ (q - e1) * 2 ^ k).
  { rewrite <- pow2_add by lia. f_equal. lia. }
  assert (B2 : lo * 2 ^ (q - e1) <= m2 <= hi * 2 ^ (q - e1)).
  { rewrite S1 in BL, BU. split.
    - apply Z.le_trans with (m / 2 ^ k); [|lia].
      apply Z.div_le_lower_bound; lia.
    - assert (m / 2 ^ k < hi * 2 ^ (q - e1)); [|lia].
      apply Z.div_lt_upper_bound; lia. }
  assert (Hm2 : 0 <= m2) by nia.
  assert (D2 : Zdigits2 m2 <= 53 + (q - e1)).
  { apply Zdigits2_le; try lia. apply (below_pow2 m2 (2 ^ (q - e1)) hi); try lia. }
  set (e2 := Z.max e1 (Z.max (Zdigits2 m2 + e1 - 53) (-1074))).
  assert (He2 : e1 <= e2 <= q) by lia.
  set (j := e2 - e1) in *.
  assert (Pj : 0 < 2 ^ j) by (apply pow2_gt0; lia).
  assert (P2 : 0 < 2 ^ (q - e2)) by (apply pow2_gt0; lia).
  assert (S2 : 2 ^ (q - e1) = 2 ^ (q - e2) * 2 ^ j).
  { rewrite <- pow2_add by lia. f_equal. lia. }
  assert (B3 : lo * 2 ^ (q - e2) <= m2 / 2 ^ j <= hi * 2 ^ (q - e2)).
  { rewrite S2 in B2. split.
    - apply Z.div_le_lower_bound; lia.
    - apply Z.div_le_upper_bound; lia. }
  destruct (m2 / 2 ^ j) as [|p|p] eqn:M.
  - cbn [between]. destruct s; nia.
  - assert (O : (e2 <=? emax - prec) = true).
    { apply Z.leb_le. change (emax - prec) with 971. lia. }
    rewrite O. cbn [between].
    split; [lia|]. destruct s; cbn [cond_Zopp]; lia.
  - exfalso. assert (0 <= lo * 2 ^ (q - e2)) by nia. lia.
Qed.

(** The quotient of two positive numbers whose ratio is below
    [2 ^ (q + 52)]. *)
Lemma SFdiv_between q lx hx ly hy lo hi x y :
  between q lx hx x -> between q ly hy y ->
  0 < lx -> 0 < ly -> -1074 <= q <= 0 -> 0 <= lo -> hi < 2 ^ 53 ->
  hx <= 2 ^ (q + 52) * ly -> 0 <= q + 52 ->
  lo * hy <= lx * 2 ^ (- q) -> hx * 2 ^ (- q) <= (hi - 1) * ly ->
  between q lo hi (SFdiv prec emax x y).
Proof.
  intros Bx By Hlx Hly Hq Hlo Hhi Hr Hq52 L U.
  destruct (between_pos q lx hx x Hlx Bx) as (mx & ex & -> & Hex & X1 & X2).
  destruct (between_pos q ly hy y Hly By) as (my & ey & -> & Hey & Y1 & Y2).
  cbn [SFdiv xorb]. unfold SFdiv_core_binary. cbn [Zdigits2].
  rewrite fexp_def.
  set (d1 := Zpos (digits2_pos mx)). set (d2 := Zpos (digits2_pos my)).
  set (e' := Z.min (Z.max (d1 + ex - (d2 + ey) - 53) (-1074)) (ex - ey)).
  assert (A0 : 0 < 2 ^ (q - ex)) by (apply pow2_gt0; lia).
  assert (B0 : 0 < 2 ^ (q - ey)) by (apply pow2_gt0; lia).
  assert (G0 : 0 < 2 ^ (- q)) by (apply pow2_gt0; lia).
  assert (R0 : 0 < 2 ^ (q + 52)) by (apply pow2_gt0; lia).
  pose proof (digits2_pos_lower mx) as Lx. fold d1 in Lx.
  pose proof (digits2_pos_upper my) as Uy. fold d2 in Uy.
  assert (Hd1 : 1 <= d1) by (unfold d1; lia).
  assert (Hd2 : 1 <= d2) by (unfold d2; lia).
  assert (HD : d1 + ex - (d2 + ey) <= q + 52).
  { assert (C : 2 ^ (d1 - 1 + (q - ey)) < 2 ^ (q + 52 + (q - ex) + d2)).
    { rewrite !pow2_add by lia.
      assert (T1 : 2 ^ (d1 - 1) * (ly * 2 ^ (q - ey)) <
                   hx * 2 ^ (q - ex) * 2 ^ d2).
      { apply Z.le_lt_trans with (hx * 2 ^ (q - ex) * (ly * 2 ^ (q - ey))).
        - apply Z.mul_le_mono_nonneg_r; [nia|lia].
        - apply Z.mul_lt_mono_pos_l; [nia|lia]. }
      assert (T2 : hx * 2 ^ (q - ex) * 2 ^ d2 <=
                   2 ^ (q + 52) * ly * 2 ^ (q - ex) * 2 ^ d2).
      { apply Z.mul_le_mono_nonneg_r; [apply Z.pow_nonneg; lia|].
        apply Z.mul_le_mono_nonneg_r; lia. }
      assert (P1 : 0 < 2 ^ (d1 - 1)) by (apply pow2_gt0; lia).
      assert (P2 : 0 < 2 ^ d2) by (apply pow2_gt0; lia).
      nia. }
    apply Z.pow_lt_mono_r_iff in C; lia. }
  assert (He' : e' <= q) by (unfold e'; lia).
  assert (Hs : 0 <= ex - ey - e') by (unfold e'; lia).
  set (s := ex - ey - e') in *.
  assert (S0 : 0 < 2 ^ s) by (apply pow2_gt0; lia).
  assert (P0 : 0 < 2 ^ (q - e')) by (apply pow2_gt0; lia).
  assert (Em : match s with
               | 0 => Zpos mx
               | Zpos _ => Z.shiftl (Zpos mx) s
               | Zneg _ => 0
               end = Zpos mx * 2 ^ s).
  { destruct s as [|p|p] eqn:Es; [rewrite Z.mul_1_r; reflexivity| |lia].
    apply Z.shiftl_mul_pow2. lia. }
  rewrite Em.
  pose proof (Z_div_mod (Zpos mx * 2 ^ s) (Zpos my) ltac:(lia)) as Dm.
  destruct (Z.div_eucl (Zpos mx * 2 ^ s) (Zpos my)) as [qz r] eqn:Ed.
  assert (Eq : qz = Zpos mx * 2 ^ s / Zpos my).
  { unfold Z.div. rewrite Ed. reflexivity. }
  (* the exponents on both sides agree *)
  assert (I : 2 ^ (- q) * (2 ^ (q - e') * 2 ^ (q - ey)) = 2 ^ (q - ex) * 2 ^ s).
  { rewrite <- !pow2_add by lia. f_equal. unfold s. lia. }
  set (A := 2 ^ (q - ex)) in *. set (B := 2 ^ (q - ey)) in *.
  set (G := 2 ^ (- q)) in *. set (P := 2 ^ (q - e')) in *. set (T := 2 ^ s) in *.
  assert (Hq0 : 0 <= qz) by (rewrite Eq; apply Z.div_pos; nia).
  apply (binary_round_aux_within false qz e' _ q lo hi); try lia.
  - rewrite Eq. apply Z.div_le_lower_bound; [lia|].
    apply Z.le_trans with (lx * (A * T)).
    + rewrite <- I.
      apply Z.le_trans with (lo * P * (hy * B)).
      * rewrite (Z.mul_comm (Zpos my)). apply Z.mul_le_mono_nonneg_l; nia.
      * replace (lo * P * (hy * B)) with (lo * hy * (P * B)) by ring.
        replace (lx * (G * (P * B))) with (lx * G * (P * B)) by ring.
        apply Z.mul_le_mono_nonneg_r; nia.
    + replace (lx * (A * T)) with (lx * A * T) by ring.
      apply Z.mul_le_mono_nonneg_r; lia.
  - assert (Q : qz <= (hi - 1) * P); [|nia].
    rewrite Eq. apply Z.div_le_upper_bound; [lia|].
    apply Z.le_trans with (hx * (A * T)).
    + replace (hx * (A * T)) with (hx * A * T) by ring.
      apply Z.mul_le_mono_nonneg_r; lia.
    + rewrite <- I.
      replace (hx * (G * (P * B))) with (hx * G * (P * B)) by ring.
      apply Z.le_trans with ((hi - 1) * ly * (P * B)).
      * apply Z.mul_le_mono_nonneg_r; nia.
      * assert (0 <= hi - 1) by nia.
        replace ((hi - 1) * ly * (P * B)) with ((hi - 1) * P * (ly * B)) by ring.
        replace (Zpos my * ((hi - 1) * P)) with ((hi - 1) * P * Zpos my) by ring.
        apply Z.mul_le_mono_nonneg_l; nia.
Qed.

Lemma quotient_between q lx hx ly hy lo hi x y :
  between q lx hx (Prim2SF x) -> between q ly hy (Prim2SF y) ->
  0 < lx -> 0 < ly -> -1074 <= q <= 0 -> 0 <= lo -> hi < 2 ^ 53 ->
  hx <= 2 ^ (q + 52) * ly -> 0 <= q + 52 ->
  lo * hy <= lx * 2 ^ (- q) -> hx * 2 ^ (- q) <= (hi - 1) * ly ->
  between q lo hi (Prim2SF (x / y)).
Proof. intros. rewrite div_spec. apply (SFdiv_between q lx hx ly hy); assumption. Qed.

Lemma abs_between q lo hi x :
  between q lo hi (Prim2SF x) ->
  between q 0 (Z.max (- lo) hi) (Prim2SF (abs x)).
Proof.
  intros B. rewrite abs_spec.
  destruct (Prim2SF x) as [s|s| |s m e]; cbn [SFabs between] in *; try tauto; [lia|].
  destruct B as (He & B1 & B2). split; [exact He|].
  assert (P : 0 < 2 ^ (q - e)) by (apply pow2_gt0; lia).
  destruct s; cbn [cond_Zopp] in *; nia.
Qed.

Lemma between_nonzero q lo hi x :
  0 < lo -> between q lo hi (Prim2SF x) -> (x =? 0)%float = false.
Proof.
  intros Hl B. destruct (between_pos q lo hi _ Hl B) as (m & e & E & _).
  apply (finite_eqb_zero x false m e E).
Qed.

(** A bound on the grid decides a strict comparison, also for a zero or a
    negative number on the left. *)
Lemma ltb_between q lx hx lc hc x c :
  between q lx hx (Prim2SF x) -> between q lc hc (Prim2SF c) ->
  0 < lc -> hx < lc ->
  (x <? c)%float = true.
Proof.
  intros Bx Bc Hc H.
  destruct (between_pos q lc hc _ Hc Bc) as (mc & ec & Ec & Hec & C1 & C2).
  assert (Pc : 0 < 2 ^ (q - ec)) by (apply pow2_gt0; lia).
  pose proof (valid_canonical x) as Vx.
  pose proof (valid_digits c _ _ _ Ec) as Dc.
  pose proof (valid_canonical c _ _ _ Ec) as Vc.
  rewrite ltb_compare, Ec.
  destruct (Prim2SF x) as [s|s| |s m e]; cbn [between] in Bx; try contradiction;
    cbn [SFcompare]; [reflexivity|].
  destruct Bx as (He & X1 & X2).
  destruct s; [reflexivity|]. cbn [cond_Zopp] in X1, X2.
  specialize (Vx false m e eq_refl).
  assert (Px : 0 < 2 ^ (q - e)) by (apply pow2_gt0; lia).
  destruct (Z.compare_spec e ec) as [Q|Q|Q]; [|reflexivity|exfalso].
  - subst e.
    assert (K : hx * 2 ^ (q - ec) < lc * 2 ^ (q - ec))
      by (apply Z.mul_lt_mono_pos_r; lia).
    assert (Hz : Zpos m < Zpos mc) by lia.
    assert (Hm : (m < mc)%positive) by exact Hz.
    unfold Pos.lt in Hm. change (Pos.compare_cont Eq m mc) with (m ?= mc)%positive.
    rewrite Hm. reflexivity.
  - assert (Dx : Zpos (digits2_pos m) = 53) by lia.
    pose proof (digits2_pos_lower m) as Lx. rewrite Dx in Lx.
    pose proof (digits2_pos_upper mc) as Uc.
    assert (Uc' : Zpos mc < 2 ^ 53).
    { apply Z.lt_le_trans with (2 ^ Zpos (digits2_pos mc)); [exact Uc|].
      apply Z.pow_le_mono_r; lia. }
    assert (Pd : 2 <= 2 ^ (e - ec)).
    { change 2 with (2 ^ 1) at 1. apply Z.pow_le_mono_r; lia. }
    assert (S : 2 ^ (q - ec) = 2 ^ (q - e) * 2 ^ (e - ec)).
    { rewrite <- pow2_add by lia. f_equal. lia. }
    change (2 ^ (53 - 1)) with 4503599627370496 in Lx.
    change (2 ^ 53) with 9007199254740992 in Uc'.
    rewrite S in C1.
    assert (Zpos m * 2 <= Zpos m * 2 ^ (e - ec)) by nia.
    assert (Zpos m * 2 ^ (e - ec) <= hx * 2 ^ (q - e) * 2 ^ (e - ec)) by nia.
    assert (hx * 2 ^ (q - e) * 2 ^ (e - ec) <= lc * (2 ^ (q - e) * 2 ^ (e - ec))) by nia.
    lia.
Qed.

(** ** Lock step *)

(** The formula value for a hop time that is not zero. *)
Lemma raw_frequency_nonzero a t e k1 k2 :
  (t =? 0)%float = false ->
  raw_frequency a t e k1 k2 =
  (2000 + (a * Py.float_of_int k1 + e * Py.float_of_int k2) / t)%float.
Proof. intros H. unfold raw_frequency, formula, Py.truediv. rewrite H. reflexivity. Qed.

(** The nominal signal (3.0 V, 18.0) measured at a time between 1.95 and
    2.05 ms against the same signal at 2 ms, under any coefficient of the
    list: the two frequencies are less than 25 MHz apart. *)
Lemma lock_step_difference k t :
  10 <= k <= 30 ->
  between grid (micro 1949990) (micro 2050010) (Prim2SF t) ->
  (abs (clamp (raw_frequency 3 t 18 k k2_constant) -
        clamp (raw_frequency 3 2 18 k k2_constant)) <? 25)%float = true /\
  (abs (clamp (raw_frequency 3 t 18 k k2_constant) -
        clamp (raw_frequency 3 2 18 k k2_constant)) <? 40.0)%float = true.
Proof.
  intros Hk Bt.
  rewrite (raw_frequency_nonzero 3 t) by (apply (between_nonzero grid (micro 1949990) (micro 2050010) t ltac:(zdec) Bt)).
  replace k with (10 + Z.of_nat (Z.to_nat (k - 10))) by lia.
  assert (Hn : (Z.to_nat (k - 10) <= 20)%nat) by lia.
  revert Hn. generalize (Z.to_nat (k - 10)). intros n Hn.
  assert (B25 : between grid (25 * 2 ^ 40) (25 * 2 ^ 40) (Prim2SF 25)) by const_between.
  assert (B40 : between grid (40 * 2 ^ 40) (40 * 2 ^ 40) (Prim2SF 40.0)) by const_between.
  assert (B2000 : between grid (2000 * 2 ^ 40) (2000 * 2 ^ 40) (Prim2SF 2000))
    by const_between.
  assert (L2000 : between grid (micro 2000000000) (micro 2000000000) (Prim2SF 2000))
    by const_between.
  assert (L4000 : between grid (micro 4000000000) (micro 4000000000) (Prim2SF 4000))
    by const_between.
  do 21 (destruct n as [|n];
    [ match goal with
      | |- context [Py.float_of_int ?z] =>
          let s := eval vm_compute in (3 * z + 1800) in
          assert (Bs : between grid (s * 2 ^ 40) (s * 2 ^ 40)
                         (Prim2SF (3 * Py.float_of_int z + 18 * Py.float_of_int k2_constant)))
            by const_between;
          assert (Bf : between grid (2000 * 2 ^ 40 + s * 2 ^ 39) (2000 * 2 ^ 40 + s * 2 ^ 39)
                         (Prim2SF (clamp (raw_frequency 3 2 18 z k2_constant))))
            by const_between;
          pose proof (quotient_between grid _ _ _ _
                        (s * 2 ^ 40 * 2 ^ 40 / micro 2050010)
                        (s * 2 ^ 40 * 2 ^ 40 / micro 1949990 + 2) _ _ Bs Bt
                        ltac:(zdec) ltac:(zdec) ltac:(zdec2) ltac:(zdec) ltac:(zdec)
                        ltac:(zdec) ltac:(zdec) ltac:(zdec) ltac:(zdec)) as Bq;
          pose proof (add_between grid _ _ _ _ _ _ B2000 Bq
                        ltac:(zdec2) ltac:(zdec) ltac:(zdec)) as Br;
          rewrite (clamp_id _ (in_band_leb _
                     (leb_between grid _ _ _ _ _ _ L2000 Br ltac:(zdec) ltac:(zdec))
                     (leb_between grid _ _ _ _ _ _ Br L4000 ltac:(zdec) ltac:(zdec))));
          pose proof (sub_between grid _ _ _ _ _ _ Br Bf
                        ltac:(zdec2) ltac:(zdec) ltac:(zdec)) as Bd;
          split;
          [ apply (ltb_between grid _ _ _ _ _ _ (abs_between _ _ _ _ Bd) B25); zdec
          | apply (ltb_between grid _ _ _ _ _ _ (abs_between _ _ _ _ Bd) B40); zdec ]
      end |]).
  lia.
Qed.

(** C8, amended.  Lock step at hop 0 with key 12345: the sender's draw gives
    the amplitude 3.0 V (time 2 ms, energy 18.0, coefficient index 0) and the
    receiver runs with noise_level = 0.  Whatever the receiver draws, it
    measures the sender's amplitude and energy exactly and the sender's time
    plus a jitter [uniform(-0.05, 0.05)]; its frequency is less than 25 MHz
    from the sender's, so is_match is true.  When the jitter drawn is zero,
    its frequency equals the sender's and frequency_difference is 0. *)
Theorem lock_step_match (random : nat -> float) (l : list Z) :
  coefficient_list_ok l ->
  random 0%nat = 0.5%float ->
  (0 <=? random 1%nat)%float = true -> (random 1%nat <? 1)%float = true ->
  (0 <=? random 2%nat)%float = true -> (random 2%nat <? 1)%float = true ->
  exists srec sself rrec rself,
    simulate_sender_operation random (fresh 12345 l) 0 1 = Some ([srec], sself, 1%nat) /\
    sr_amplitude srec = 3.0%float /\ sr_time_ms srec = 2%float /\
    sr_energy srec = 18.0%float /\ sr_k_index srec = 0 /\
    simulate_receiver_operation random sself 1 [srec] 0 = Some ([rrec], rself, 3%nat) /\
    rr_amplitude rrec = sr_amplitude srec /\ rr_energy rrec = sr_energy srec /\
    rr_time_ms rrec = (sr_time_ms srec + Py.uniform (-0.05) 0.05 (random 2%nat))%float /\
    frequency_difference rrec =
      abs (rf_frequency (freq_result rrec) - sr_frequency srec) /\
    (frequency_difference rrec <? 25)%float = true /\
    is_match rrec = true /\
    (Py.uniform (-0.05) 0.05 (random 2%nat) = 0%float ->
     rf_frequency (freq_result rrec) = sr_frequency srec /\
     frequency_difference rrec = 0%float).
Proof.
  intros Hl H0 L1 U1 L2 U2.
  pose proof (coefficient_list_ok_nonempty l Hl) as Hne.
  pose proof (len_5 l Hl) as L5.
  destruct (get_k1_k2_values_nth (fresh 12345 l) Hne) as (p & Hp & G).
  cbn [fresh k1_k2_list current_k_index] in Hp. rewrite L5 in Hp.
  change (Z.to_nat (0 mod 5)) with 0%nat in Hp.
  set (k := p / k2_constant) in *.
  assert (Hk : 10 <= k <= 30).
  { apply (coefficient_list_ok_k1 l p Hl). eapply nth_error_In. exact Hp. }
  assert (N : is_nan (raw_frequency 3 (guard_time 2) 18 k k2_constant) = false).
  { change (guard_time 2) with 2%float.
    rewrite (raw_frequency_nan 3 2 18 k 2 false 4503599627370496 (-51)).
    - reflexivity.
    - vm_compute. discriminate.
    - lia.
    - reflexivity.
    - exact Hk. }
  pose proof (calculate_frequency_first (fresh 12345 l) 3 2 18 k k2_constant G N) as E.
  change (guard_time 2) with 2%float in E, N.
  set (f := clamp (raw_frequency 3 2 18 k k2_constant)) in *.
  assert (B : in_band f = true) by (unfold f; rewrite clamp_in_band, N; reflexivity).
  pose proof (next_hop_some (fresh 12345 l) Hne) as Hn.
  set (srec := {| sr_hop_number := 0 + 1; sr_amplitude := 3; sr_time_ms := 2;
                  sr_energy := 18; sr_generation_method := sender_generated;
                  sr_frequency := f; sr_k1 := k; sr_k2 := k2_constant;
                  sr_k1_k2_product := k * k2_constant; sr_k_index := 0;
                  sr_is_valid := true; sr_attempts := 1;
                  sr_sync_info := sync_check (fresh 12345 l) |}).
  set (sself := {| sync_key := 12345; k1_k2_list := l;
                   current_k_index := (0 + 1) mod Py.len l;
                   hop_counter := 0 + 1 |}).
  assert (Es : simulate_sender_operation random (fresh 12345 l) 0 1 =
               Some ([srec], sself, 1%nat)).
  { unfold simulate_sender_operation. change (Z.to_nat 1) with 1%nat.
    cbn [sender_loop]. rewrite H0.
    change (generate_signal_parameters 0.5) with
      {| sp_amplitude := 3; sp_time_ms := 2; sp_energy := 18;
         sp_generation_method := sender_generated |}.
    cbn [sp_amplitude sp_time_ms sp_energy sp_generation_method].
    rewrite E, Hn. reflexivity. }
  destruct (receive_hop_record random 0 srec 0 (fresh 12345 l) 1 Hl)
    as (rrec & Er & _ & _ & _ & _ & Ha & He & Ht & Hv & Hacc & _).
  rewrite (zero_noise_factor (random 1%nat) L1 U1) in Ha, He.
  cbn [srec sr_amplitude sr_energy sr_time_ms] in Ha, He, Ht.
  change (3 * 1)%float with 3%float in Ha. change (18 * 1)%float with 18%float in He.
  pose proof (received_time_between (random 2%nat) L2 U2) as Bt.
  change (Py.float_of_int t_hop) with 2%float in Bt. rewrite <- Ht in Bt.
  assert (V : v_is_valid (validation rrec) = true).
  { rewrite Hv. apply validate_signal_between.
    - rewrite Ha. const_between.
    - refine (between_mono _ _ _ _ _ _ _ _ Bt); zdec. }
  destruct (Hacc V) as (p' & fr & Hp' & F & _ & _ & _ & _ & Fv & _ & Fb & _ & Fd & Fm).
  cbn [fresh k1_k2_list current_k_index] in Hp'.
  change (Z.to_nat (0 mod 5)) with 0%nat in Hp'.
  rewrite Hp in Hp'. injection Hp' as <-. fold k in Fb.
  rewrite He in Fv. change (negb (is_nan 18)) with true in Fv.
  destruct (Fb Fv) as (_ & _ & _ & Ff & _).
  rewrite Ha, He in Ff.
  destruct (lock_step_difference k (rr_time_ms rrec) Hk Bt) as [D25 D40].
  rewrite <- Ff in D25, D40. fold f in D25, D40.
  cbn [srec sr_frequency] in Fd. rewrite <- Fd in D25, D40.
  exists srec, sself, rrec,
    {| sync_key := 12345; k1_k2_list := l;
       current_k_index := (0 + 1) mod Py.len l; hop_counter := 0 + 1 |}.
  split; [exact Es|].
  do 4 (split; [reflexivity|]).
  split.
  { unfold simulate_receiver_operation.
    change (set_hop_counter (set_current_k_index sself 0) 0) with (fresh 12345 l).
    cbn [receiver_loop]. rewrite Er, Hn. reflexivity. }
  cbn [srec sr_amplitude sr_energy sr_time_ms sr_frequency].
  split; [exact Ha|]. split; [exact He|]. split; [exact Ht|].
  rewrite F. cbn [rf_frequency].
  split; [exact Fd|]. split; [exact D25|]. split; [rewrite Fm; exact D40|].
  intros Hj. rewrite Hj in Ht. change (2 + 0)%float with 2%float in Ht.
  rewrite Ht in Ff. fold f in Ff.
  split; [exact Ff|]. rewrite Fd, Ff, (in_band_sub_self f B). reflexivity.
Qed.

Lemma lock_step_match_witness :
  exists srec sself rrec rself,
    simulate_sender_operation jitter_stream (fresh 12345 k1_k2_list_12345) 0 1 =
      Some ([srec], sself, 1%nat) /\
    sr_amplitude srec = 3.0%float /\ sr_time_ms srec = 2%float /\
    sr_energy srec = 18.0%float /\ sr_k_index srec = 0 /\
    simulate_receiver_operation jitter_stream sself 1 [srec] 0 = Some ([rrec], rself, 3%nat) /\
    rr_amplitude rrec = sr_amplitude srec /\ rr_energy rrec = sr_energy srec /\
    rr_time_ms rrec = (sr_time_ms srec + Py.uniform (-0.05) 0.05 (jitter_stream 2%nat))%float /\
    frequency_difference rrec =
      abs (rf_frequency (freq_result rrec) - sr_frequency srec) /\
    (frequency_difference rrec <? 25)%float = true /\
    is_match rrec = true /\
    (Py.uniform (-0.05) 0.05 (jitter_stream 2%nat) = 0%float ->
     rf_frequency (freq_result rrec) = sr_frequency srec /\
     frequency_difference rrec = 0%float).
Proof.
  apply (lock_step_match jitter_stream k1_k2_list_12345).
  - split; [reflexivity|repeat constructor; lia].
  - reflexivity.
  - reflexivity.
  - reflexivity.
  - reflexivity.
  - reflexivity.
Defined.
